(** * hubspot-local-dev-lib: credential lifecycle and token cache

    A shallow embedding of [src/http/index.ts] (the [withAuth] request
    decorator and the [PrivateAppUserTokenManager] class), of
    [CLIConfiguration.getAccount] from [src/src/config/CLIConfiguration.ts]
    and of [throwErrorWithMessage] from [src/errors/standardErrors.ts].

    JavaScript objects become records, [Map]s become [gmap]s, promises that
    may reject become a sum type threaded through a state-and-exception
    monad, and the Node timer table is an explicit list of live intervals. *)

From Stdlib Require Import ZArith String List Ascii.
From stdpp Require Import gmap strings list fin_maps.

Local Open Scope Z_scope.
Local Open Scope string_scope.
Local Open Scope list_scope.

Set Warnings "-register-all".

(* ===================================================================== *)
(** ** JavaScript values, errors and results                              *)
(* ===================================================================== *)

(** Values that travel through interpolation tables and query strings. *)
Inductive JsValue :=
| VUndefined
| VNum (n : Z)
| VStr (s : string).

(** A slot that TypeScript types as [T] but that the code still tests
    against [undefined] and [null]. *)
Inductive Maybe (A : Type) :=
| JsUndefined
| JsNull
| JsVal (a : A).
Arguments JsUndefined {A}.
Arguments JsNull {A}.
Arguments JsVal {A} a.

(** What a [throw] or a rejected promise carries.  [AxiosError] is the
    class recognised by [isAxiosError]; [status] is [err.response?.status].
    [PlainError] is [new Error(message, { cause })].  [NonError] is any
    thrown value that is not an [Error] instance. *)
Inductive JsError :=
| AxiosError (status : option Z) (message : string)
| PlainError (message : string) (cause : option JsError)
| NonError (v : JsValue).

Definition isAxiosError (e : JsError) : bool :=
  match e with AxiosError _ _ => true | _ => false end.

(** [err.response?.status == code] *)
Definition statusIs (e : JsError) (code : Z) : bool :=
  match e with
  | AxiosError (Some status) _ => (status =? code)%Z
  | _ => false
  end.

Definition truthy (v : JsValue) : bool :=
  match v with
  | VUndefined => false
  | VNum n => negb (n =? 0)%Z
  | VStr s => negb (String.eqb s "")
  end.

(** [if (cause)] of [genericThrowErrorWithMessage]: objects are truthy. *)
Definition truthyError (e : JsError) : bool :=
  match e with NonError v => truthy v | _ => true end.

Definition JsResult (A : Type) : Type := JsError + A.

(* ===================================================================== *)
(** ** Data model                                                         *)
(* ===================================================================== *)

(** [PrivateAppUserTokenResponse] is declared in [api/privateAppUserToken],
    outside the sources at hand; the manager reads exactly these three
    fields.  [expiresAt] is the instant [moment.utc(token.expiresAt)]
    denotes, in milliseconds since the epoch. *)
Record PrivateAppUserTokenResponse := {
  userTokenKey : string;
  scopeGroups : list string;
  expiresAt : Z
}.

(** The arguments an interval closure captured:
    [() => this.refreshToken(appId, token.userTokenKey, scopeGroups)],
    together with the period handed to [setInterval]. *)
Record Interval := {
  cbAppId : Z;
  cbUserTokenKey : string;
  cbScopeGroups : list string;
  delayMillis : Z
}.

(** The fields of a [PrivateAppUserTokenManager] instance.  A
    [NodeJS.Timeout] handle is the identifier of the interval. *)
Record Manager := {
  accountId : Z;
  tokenMap : gmap Z PrivateAppUserTokenResponse;
  tokenMapIntervalId : gmap Z nat;
  enabled : bool
}.

(** Invocations of the remote collaborators, in the order they were made. *)
Inductive ApiCall :=
| CallScopeGroups (account : Z)
| CallFetch (account app : Z)
| CallCreate (account app : Z) (scopes : list string)
| CallUpdate (account app : Z) (key : string) (scopes : list string).

(** [i18n(key, interpolation)] from [utils/lang], outside the sources at
    hand: it renders a message and has no other effect. *)
Class Lang := {
  i18n : string → list (string * JsValue) → string
}.

(** The collaborators the class imports and that live outside the sources
    at hand: the clock, the three token endpoints, the scope lookup, and
    [getAxiosErrorWithContext(err).message].  [E] is the state of the
    outside world (remote service and clock). *)
Class Collaborators (E : Type) := {
  utcNow : E → Z;
  fetchPrivateAppUserToken :
    Z → Z → E → JsResult (Maybe PrivateAppUserTokenResponse) * E;
  createPrivateAppUserToken :
    Z → Z → list string → E → JsResult (Maybe PrivateAppUserTokenResponse) * E;
  updatePrivateAppUserToken :
    Z → Z → string → list string → E →
    JsResult (Maybe PrivateAppUserTokenResponse) * E;
  scopeGroupsForPersonalAccessKey : Z → E → JsResult (list string) * E;
  axiosErrorWithContextMessage : JsError → string
}.

(** Everything a method of the manager can read or write: the instance
    itself, the runtime's table of live intervals with its next fresh
    handle, the outside world, and two observation logs. *)
Record Heap (E : Type) := {
  self : Manager;
  liveIntervals : list (nat * Interval);
  nextTimeout : nat;
  world : E;
  apiCalls : list ApiCall;
  debugLog : list string
}.
Arguments self {E} _.
Arguments liveIntervals {E} _.
Arguments nextTimeout {E} _.
Arguments world {E} _.
Arguments apiCalls {E} _.
Arguments debugLog {E} _.

(* ===================================================================== *)
(** ** A state-and-exception monad for method bodies                      *)
(* ===================================================================== *)

Module Js.

Definition M (E A : Type) : Type := Heap E → JsResult A * Heap E.

Definition ret {E A} (a : A) : M E A := fun h => (inr a, h).

Definition throw {E A} (e : JsError) : M E A := fun h => (inl e, h).

Definition bind {E A B} (c : M E A) (k : A → M E B) : M E B :=
fun h =>
  match c h with
  | (inr a, h') => k a h'
  | (inl e, h') => (inl e, h')
  end.

(** [try { c } catch (err) { handler(err) }] *)
Definition tryCatch {E A} (c : M E A) (handler : JsError → M E A) : M E A :=
fun h =>
  match c h with
  | (inr a, h') => (inr a, h')
  | (inl e, h') => handler e h'
  end.

Definition modify {E} (f : Heap E → Heap E) : M E unit :=
fun h => (inr tt, f h).

End Js.

Declare Scope js_scope.
Delimit Scope js_scope with js.
Notation "'let*' x := c 'in' k" := (Js.bind c (fun x => k))
  (at level 10, x name, c at level 100, k at level 200) : js_scope.
Local Open Scope js_scope.

(* ===================================================================== *)
(** ** src/errors/standardErrors.ts                                       *)
(* ===================================================================== *)

Section StandardErrors.
Context `{Lang}.

(** The value [genericThrowErrorWithMessage(Error, ...)] throws. *)
Definition genericThrowErrorWithMessage (identifier : string)
    (interpolation : list (string * JsValue)) (cause : option JsError)
  : JsError :=
  let message := i18n identifier interpolation in
  match cause with
  | Some c =>
      if truthyError c then PlainError message (Some c)
      else PlainError message None
  | None => PlainError message None
  end.

(** [throwErrorWithMessage] inside a method body. *)
Definition throwErrorWithMessage {E A} (identifier : string)
    (interpolation : list (string * JsValue)) (cause : option JsError)
  : Js.M E A :=
  Js.throw (genericThrowErrorWithMessage identifier interpolation cause).
End StandardErrors.

(* ===================================================================== *)
(** ** Primitive effects                                                  *)
(* ===================================================================== *)

Definition setSelf {E} (m : Manager) (h : Heap E) : Heap E :=
  {| self := m; liveIntervals := liveIntervals h; nextTimeout := nextTimeout h;
     world := world h; apiCalls := apiCalls h; debugLog := debugLog h |}.

Definition setLive {E} (l : list (nat * Interval)) (n : nat) (h : Heap E)
  : Heap E :=
  {| self := self h; liveIntervals := l; nextTimeout := n;
     world := world h; apiCalls := apiCalls h; debugLog := debugLog h |}.

Definition setWorld {E} (w : E) (c : ApiCall) (h : Heap E) : Heap E :=
  {| self := self h; liveIntervals := liveIntervals h;
     nextTimeout := nextTimeout h;
     world := w; apiCalls := apiCalls h ++ [c]; debugLog := debugLog h |}.

Definition addDebug {E} (line : string) (h : Heap E) : Heap E :=
  {| self := self h; liveIntervals := liveIntervals h;
     nextTimeout := nextTimeout h;
     world := world h; apiCalls := apiCalls h; debugLog := debugLog h ++ [line] |}.

Definition withTokenMap (f : gmap Z PrivateAppUserTokenResponse →
                             gmap Z PrivateAppUserTokenResponse)
    (m : Manager) : Manager :=
  {| accountId := accountId m; tokenMap := f (tokenMap m);
     tokenMapIntervalId := tokenMapIntervalId m; enabled := enabled m |}.

Definition withIntervalIds (f : gmap Z nat → gmap Z nat) (m : Manager)
  : Manager :=
  {| accountId := accountId m; tokenMap := tokenMap m;
     tokenMapIntervalId := f (tokenMapIntervalId m); enabled := enabled m |}.

Definition withEnabled (b : bool) (m : Manager) : Manager :=
  {| accountId := accountId m; tokenMap := tokenMap m;
     tokenMapIntervalId := tokenMapIntervalId m; enabled := b |}.

(** [clearInterval(id)]: the interval stops being live; unknown handles are
    ignored. *)
Definition dropInterval (id : nat) (l : list (nat * Interval))
  : list (nat * Interval) :=
  filter (λ p, p.1 ≠ id) l.

Section Effects.
Context `{Lang} {E : Type} `{Collaborators E}.

(** [logger.debug(i18n(key, interpolation))] *)
Definition loggerDebug (key : string) (interpolation : list (string * JsValue))
  : Js.M E unit :=
  Js.modify (addDebug (i18n key interpolation)).

(** [await endpoint(...)]: the call is logged, the world moves on, a
    rejection becomes a throw. *)
Definition await {A} (c : ApiCall) (endpoint : E → JsResult A * E)
  : Js.M E A :=
  fun h =>
    let '(r, w) := endpoint (world h) in
    (r, setWorld w c h).

(** [moment.utc()] as milliseconds since the epoch. *)
Definition momentUtc : Js.M E Z := fun h => (inr (utcNow (world h)), h).

Definition readSelf : Js.M E Manager := fun h => (inr (self h), h).

Definition updateSelf (f : Manager → Manager) : Js.M E unit :=
  Js.modify (fun h => setSelf (f (self h)) h).

(** [setInterval(callback, delay)] returns a fresh handle. *)
Definition setInterval (cb : Interval) : Js.M E nat :=
  fun h =>
    (inr (nextTimeout h),
     setLive (liveIntervals h ++ [(nextTimeout h, cb)]) (S (nextTimeout h)) h).

Definition clearInterval (id : nat) : Js.M E unit :=
  Js.modify (fun h => setLive (dropInterval id (liveIntervals h))
                              (nextTimeout h) h).
End Effects.

(* ===================================================================== *)
(** ** src/http/index.ts: PrivateAppUserTokenManager                      *)
(* ===================================================================== *)

Definition USER_TOKEN_READ := "developer.private_app.temporary_token.read".
Definition USER_TOKEN_WRITE := "developer.private_app.temporary_token.write".
Definition i18nKey := "lib.PrivateAppUserTokenManager".

(** Five minutes, in milliseconds. *)
Definition FIVE_MINUTES : Z := 5 * 60 * 1000.

(** [new PrivateAppUserTokenManager(accountId)] *)
Definition constructor (account : Z) : Manager :=
  {| accountId := account; tokenMap := ∅; tokenMapIntervalId := ∅;
     enabled := false |}.

(** [Array.prototype.includes] on strings. *)
Definition includes (l : list string) (s : string) : bool :=
  existsb (String.eqb s) l.

Definition doesTokenHaveAllScopes
    (token : option PrivateAppUserTokenResponse)
    (requestedScopes : list string) : bool :=
  match token with
  | None => false
  | Some t => forallb (λ scopeGroup, includes (scopeGroups t) scopeGroup)
                requestedScopes
  end.

Definition isEnabled (m : Manager) : bool := enabled m.

(** [Math.max(expiresAt - 5 minutes - now, 0)] *)
Definition refreshDelayMillis (token : PrivateAppUserTokenResponse) (now : Z)
  : Z :=
  Z.max (expiresAt token - FIVE_MINUTES - now) 0.

Section ManagerMethods.
Context `{Lang} {E : Type} `{Collaborators E}.

Definition init : Js.M E unit :=
  let* this := readSelf in
  let* granted :=
    await (CallScopeGroups (accountId this))
          (scopeGroupsForPersonalAccessKey (accountId this)) in
  if negb (includes granted USER_TOKEN_READ)
     || negb (includes granted USER_TOKEN_WRITE)
  then
    throwErrorWithMessage (i18nKey +:+ ".errors.noScopes")
      [("accountId", VNum (accountId this))] None
  else
    let* _ := loggerDebug (i18nKey +:+ ".enabled")
                [("accountId", VNum (accountId this))] in
    updateSelf (withEnabled true).

(** [map.forEach(v => f(v))], on the values in iteration order. *)
Fixpoint forEach {A} (f : A → Js.M E unit) (l : list A) : Js.M E unit :=
  match l with
  | [] => Js.ret tt
  | x :: l' => let* _ := f x in forEach f l'
  end.

Definition cleanup : Js.M E unit :=
  let* this := readSelf in
  let* _ := forEach clearInterval
              (map snd (map_to_list (tokenMapIntervalId this))) in
  let* _ := updateSelf (withIntervalIds (λ _, ∅)) in
  updateSelf (withTokenMap (λ _, ∅)).

Definition setCacheAndRefresh (appId : Z)
    (token : Maybe PrivateAppUserTokenResponse) (requested : list string)
  : Js.M E unit :=
  let* this := readSelf in
  match token with
  | JsUndefined | JsNull =>
      throwErrorWithMessage (i18nKey +:+ ".errors.refreshFailed")
        [("accountId", VNum (accountId this)); ("appId", VNum appId)] None
  | JsVal token =>
      let* _ := updateSelf (withTokenMap (insert appId token)) in
      let* _ := match tokenMapIntervalId this !! appId with
                | Some id => clearInterval id
                | None => Js.ret tt
                end in
      let* now := momentUtc in
      let delay := refreshDelayMillis token now in
      let* id := setInterval
                   {| cbAppId := appId;
                      cbUserTokenKey := userTokenKey token;
                      cbScopeGroups := requested;
                      delayMillis := delay |} in
      let* _ := updateSelf (withIntervalIds (insert appId id)) in
      loggerDebug (i18nKey +:+ ".refreshScheduled")
        [("appId", VNum appId); ("expiresAt", VNum (expiresAt token));
         ("refreshTime", VNum (now + delay))]
  end.

Definition getExistingToken (appId : Z)
  : Js.M E (Maybe PrivateAppUserTokenResponse) :=
  let* this := readSelf in
  Js.tryCatch
    (await (CallFetch (accountId this) appId)
           (fetchPrivateAppUserToken (accountId this) appId))
    (λ err,
       if isAxiosError err && statusIs err 404 then Js.ret JsNull
       else Js.throw err).

Definition createOrGetActiveToken (appId : Z) (requested : list string)
  : Js.M E (Maybe PrivateAppUserTokenResponse) :=
  let* this := readSelf in
  let* maybeToken := getExistingToken appId in
  match maybeToken with
  | JsNull =>
      let* _ := loggerDebug (i18nKey +:+ ".create") [("appId", VNum appId)] in
      await (CallCreate (accountId this) appId requested)
            (createPrivateAppUserToken (accountId this) appId requested)
  | JsUndefined =>
      (* [maybeToken.expiresAt] on [undefined] *)
      Js.throw (PlainError
        "Cannot read properties of undefined (reading 'expiresAt')" None)
  | JsVal t =>
      let* now := momentUtc in
      if (expiresAt t <? now + FIVE_MINUTES)%Z
         || negb (doesTokenHaveAllScopes (Some t) requested)
      then
        let* _ := loggerDebug (i18nKey +:+ ".refresh")
                    [("appId", VNum appId)] in
        await (CallUpdate (accountId this) appId (userTokenKey t) requested)
              (updatePrivateAppUserToken (accountId this) appId
                 (userTokenKey t) requested)
      else Js.ret (JsVal t)
  end.

(** The [catch] block of [getPrivateAppToken]. *)
Definition wrapApiError {A} (appId : Z) (err : JsError) : Js.M E A :=
  let* this := readSelf in
  let messageDetail :=
    if isAxiosError err then axiosErrorWithContextMessage err
    else match err with
         | PlainError m _ => m
         | _ => "Unknown error"
         end in
  throwErrorWithMessage (i18nKey +:+ ".errors.apiError")
    [("accountId", VNum (accountId this)); ("appId", VNum appId);
     ("messageDetail", VStr messageDetail)]
    (if isAxiosError err then None else Some err).

(** [Map.prototype.has] *)
Definition has {V} (m : gmap Z V) (k : Z) : bool :=
  match m !! k with Some _ => true | None => false end.

(** Returns [Some key] for a string and [None] for [undefined]. *)
Definition getPrivateAppToken (appId : Z) (requested : list string)
  : Js.M E (option string) :=
  let* this := readSelf in
  if negb (enabled this) then
    let* _ := loggerDebug (i18nKey +:+ ".disabled")
                [("accountId", VNum (accountId this)); ("appId", VNum appId)] in
    Js.ret None
  else
    Js.tryCatch
      (if has (tokenMap this) appId
          && doesTokenHaveAllScopes (tokenMap this !! appId) requested
       then
         let* _ := loggerDebug (i18nKey +:+ ".cached")
                     [("appId", VNum appId)] in
         match tokenMap this !! appId with
         | Some cached => Js.ret (Some (userTokenKey cached))
         | None =>
             (* [this.tokenMap.get(appId)!.userTokenKey] on [undefined] *)
             Js.throw (PlainError
               "Cannot read properties of undefined (reading 'userTokenKey')"
               None)
         end
       else
         let* token := createOrGetActiveToken appId requested in
         let* _ := setCacheAndRefresh appId token requested in
         match token with
         | JsVal t => Js.ret (Some (userTokenKey t))
         | _ =>
             (* [token.userTokenKey] on [undefined] or [null] *)
             Js.throw (PlainError
               "Cannot read properties of undefined (reading 'userTokenKey')"
               None)
         end)
      (wrapApiError appId).

(** [refreshToken] up to its [await]: the request has been sent and the
    response is pending. *)
Definition refreshToken_request (appId : Z) (key : string)
    (requested : list string)
  : Js.M E (Maybe PrivateAppUserTokenResponse) :=
  let* this := readSelf in
  let* _ := loggerDebug (i18nKey +:+ ".refresh") [("appId", VNum appId)] in
  await (CallUpdate (accountId this) appId key requested)
        (updatePrivateAppUserToken (accountId this) appId key requested).

(** [refreshToken] after its [await]: what runs once the response is in. *)
Definition refreshToken_resume (appId : Z) (requested : list string)
    (newToken : Maybe PrivateAppUserTokenResponse) : Js.M E unit :=
  let* this := readSelf in
  match newToken with
  | JsVal _ => setCacheAndRefresh appId newToken requested
  | _ =>
      throwErrorWithMessage (i18nKey +:+ ".errors.refreshFailed")
        [("accountId", VNum (accountId this)); ("appId", VNum appId)] None
  end.

Definition refreshToken (appId : Z) (key : string) (requested : list string)
  : Js.M E unit :=
  let* newToken := refreshToken_request appId key requested in
  refreshToken_resume appId requested newToken.

(** The runtime fires live interval [id]: its closure runs; nothing
    around the closure catches what it throws, and the interval stays
    live. *)
Definition fireInterval (id : nat) : Js.M E unit :=
  fun h =>
    match List.find (λ p, Nat.eqb p.1 id) (liveIntervals h) with
    | Some (_, cb) =>
        refreshToken (cbAppId cb) (cbUserTokenKey cb) (cbScopeGroups cb) h
    | None => (inr tt, h)
    end.
End ManagerMethods.

(* ===================================================================== *)
(** ** Callers and the timer table, as seen from outside                  *)
(* ===================================================================== *)

Section Observers.
Context `{Lang} {E : Type} `{Collaborators E}.

(** A caller issuing [getPrivateAppToken] calls one after the other,
    keeping each outcome (a throw does not stop the caller). *)
Fixpoint getPrivateAppTokens (requests : list (Z * list string))
    (h : Heap E) : list (JsResult (option string)) * Heap E :=
  match requests with
  | [] => ([], h)
  | (appId, requested) :: more =>
      let '(r, h1) := getPrivateAppToken appId requested h in
      let '(rs, h2) := getPrivateAppTokens more h1 in
      (r :: rs, h2)
  end.

(** Consecutive [setCacheAndRefresh] calls for one app, each with the
    token and scopes of its own call; the heap after the last one. *)
Fixpoint armAll (appId : Z)
    (arms : list (PrivateAppUserTokenResponse * list string)) (h : Heap E)
  : Heap E :=
  match arms with
  | [] => h
  | (token, requested) :: more =>
      armAll appId more
        (snd (setCacheAndRefresh appId (JsVal token) requested h))
  end.
End Observers.

(** The live intervals whose closure refreshes [appId]. *)
Definition intervalsFor {E} (appId : Z) (h : Heap E) : list (nat * Interval) :=
  filter (λ p, cbAppId p.2 = appId) (liveIntervals h).

(** How many timers are outstanding for [appId]. *)
Definition outstanding {E} (appId : Z) (h : Heap E) : nat :=
  length (intervalsFor appId h).

(** Every live interval is the one the manager has on file for its app. *)
Definition registered {E} (h : Heap E) : Prop :=
  ∀ id cb, (id, cb) ∈ liveIntervals h →
           tokenMapIntervalId (self h) !! cbAppId cb = Some id.

(* ===================================================================== *)
(** ** src/src/config/CLIConfiguration.ts: account lookup                 *)
(* ===================================================================== *)

Module CLIConfiguration.

(** The fields of a [CLIAccount] that [getAccount] and [withAuth] read;
    the type itself is declared in [types/Accounts]. *)
Record CLIAccount := {
  name : option string;
  accountId : Z;
  env : option string;
  authType : option string;
  apiKey : option string
}.

(** [string | number] *)
Inductive NameOrId :=
| ByName (s : string)
| ById (n : Z).

Record CLIConfig := {
  accounts : list CLIAccount;
  defaultAccount : option NameOrId
}.

Definition truthyNameOrId (x : NameOrId) : bool :=
  match x with
  | ByName s => negb (String.eqb s "")
  | ById n => negb (n =? 0)%Z
  end.

Definition isDigit (c : ascii) : bool :=
  (48 <=? nat_of_ascii c)%nat && (nat_of_ascii c <=? 57)%nat.

Fixpoint allDigits (s : string) : bool :=
  match s with
  | EmptyString => true
  | String c rest => isDigit c && allDigits rest
  end.

(** [/^\d+$/.test(s)] *)
Definition testDigits (s : string) : bool :=
  negb (String.eqb s "") && allDigits s.

Fixpoint parseDigits (acc : Z) (s : string) : Z :=
  match s with
  | EmptyString => acc
  | String c rest =>
      parseDigits (10 * acc + (Z.of_nat (nat_of_ascii c) - 48)) rest
  end.

(** [parseInt(s, 10)] on a string of digits. *)
Definition parseInt (s : string) : Z := parseDigits 0 s.

Definition getDefaultAccount (config : option CLIConfig) : option NameOrId :=
  match config with
  | Some c =>
      match defaultAccount c with
      | Some d => if truthyNameOrId d then Some d else None
      | None => None
      end
  | None => None
  end.

Definition getAccount (config : option CLIConfig) (nameOrId : option NameOrId)
  : option CLIAccount :=
  match config with
  | None => None
  | Some c =>
      let nameOrIdToCheck :=
        match nameOrId with
        | Some x => if truthyNameOrId x then Some x else getDefaultAccount config
        | None => getDefaultAccount config
        end in
      match nameOrIdToCheck with
      | None => None
      | Some x =>
          if negb (truthyNameOrId x) then None
          else
            let '(name', accountId') :=
              match x with
              | ById n => (None, Some n)
              | ByName s =>
                  if testDigits s then (None, Some (parseInt s))
                  else (Some s, None)
              end in
            match name', accountId' with
            | Some n, _ =>
                (* a name that reached here is a non-empty string *)
                List.find
                  (λ a, match name a with
                        | Some m => String.eqb m n
                        | None => false
                        end)
                  (accounts c)
            | None, Some i =>
                if negb (i =? 0)%Z
                then List.find (λ a, (i =? accountId a)%Z) (accounts c)
                else None
            | None, None => None
            end
      end
  end.

End CLIConfiguration.

(* ===================================================================== *)
(** ** src/http/index.ts: attaching the account credential to a request   *)
(* ===================================================================== *)

Module Http.

(** [headers] and [qs] are the two members the decorators rewrite; every
    other member of the options object rides along in [others]. *)
Record RequestOptions := {
  headers : gmap string string;
  qs : gmap string JsValue;
  others : list (string * JsValue)
}.

(** The helpers [withAuth] imports and that live outside the sources at
    hand.  [getRequestOptions env options] stands for
    [getRequestOptions({ env, ...options })];
    [getOauthManager] yields, when a manager exists, the outcome of its
    [accessToken()]. *)
Class Collaborators (Opts : Type) := {
  getRequestOptions : option string → Opts → RequestOptions;
  accessTokenForPersonalAccessKey : Z → JsResult string;
  getOauthManager :
    Z → CLIConfiguration.CLIAccount → option (JsResult string)
}.

Section Decorators.
Context `{Lang} {Opts : Type} `{Collaborators Opts}.

Definition bearer (accessToken : string) (requestOptions : RequestOptions)
  : RequestOptions :=
  {| headers := <["Authorization" := "Bearer " +:+ accessToken]>
                  (headers requestOptions);
     qs := qs requestOptions;
     others := others requestOptions |}.

Definition withOauth (accountId : Z)
    (accountConfig : CLIConfiguration.CLIAccount)
    (requestOptions : RequestOptions) : JsResult RequestOptions :=
  match getOauthManager accountId accountConfig with
  | None =>
      inl (genericThrowErrorWithMessage "http.index.withOauth"
             [("accountId", VNum accountId)] None)
  | Some (inl rejected) => inl rejected
  | Some (inr accessToken) => inr (bearer accessToken requestOptions)
  end.

Definition withPersonalAccessKey (accountId : Z)
    (requestOptions : RequestOptions) : JsResult RequestOptions :=
  match accessTokenForPersonalAccessKey accountId with
  | inl rejected => inl rejected
  | inr accessToken => inr (bearer accessToken requestOptions)
  end.

Definition withPortalId (portalId : Z) (requestOptions : RequestOptions)
  : RequestOptions :=
  {| headers := headers requestOptions;
     qs := <["portalId" := VNum portalId]> (qs requestOptions);
     others := others requestOptions |}.

Definition optionalString (s : option string) : JsValue :=
  match s with Some v => VStr v | None => VUndefined end.

(** [authType === literal] *)
Definition authTypeIs (accountConfig : CLIConfiguration.CLIAccount)
    (literal : string) : bool :=
  match CLIConfiguration.authType accountConfig with
  | Some t => String.eqb t literal
  | None => false
  end.

Definition withAuth (config : option CLIConfiguration.CLIConfig)
    (accountId : Z) (options : Opts) : JsResult RequestOptions :=
  match CLIConfiguration.getAccount config
          (Some (CLIConfiguration.ById accountId)) with
  | None =>
      inl (genericThrowErrorWithMessage "http.index.withAuth"
             [("accountId", VNum accountId)] None)
  | Some accountConfig =>
      let requestOptions :=
        withPortalId accountId
          (getRequestOptions (CLIConfiguration.env accountConfig) options) in
      if authTypeIs accountConfig "personalaccesskey" then
        withPersonalAccessKey accountId requestOptions
      else if authTypeIs accountConfig "oauth2" then
        withOauth accountId accountConfig requestOptions
      else
        inr {| headers := headers requestOptions;
               qs := <["hapikey" :=
                         optionalString
                           (CLIConfiguration.apiKey accountConfig)]>
                       (qs requestOptions);
               others := others requestOptions |}
  end.
End Decorators.

End Http.

(* ===================================================================== *)
(** ** A small simulated remote service, for concrete runs                *)
(* ===================================================================== *)

Module Sim.

(** [Up]: requests succeed.  [Down]: every token endpoint rejects with a
    503.  [Blank]: the update endpoint resolves without a token. *)
Inductive Mode := Up | Down | Blank.

Record World := {
  now : Z;
  remote : gmap Z PrivateAppUserTokenResponse;
  ttl : Z;
  grants : list string;
  mode : Mode;
  minted : nat
}.

Definition keyOf (n : nat) : string :=
  match n with
  | O => "token-0"
  | 1%nat => "token-1"
  | 2%nat => "token-2"
  | _ => "token-n"
  end.

(** The service grants exactly the scopes it is asked for. *)
Definition mint (scopes : list string) (w : World)
  : PrivateAppUserTokenResponse :=
  {| userTokenKey := keyOf (minted w); scopeGroups := scopes;
     expiresAt := now w + ttl w |}.

Definition store (app : Z) (t : PrivateAppUserTokenResponse) (w : World)
  : World :=
  {| now := now w; remote := <[app := t]> (remote w); ttl := ttl w;
     grants := grants w; mode := mode w; minted := S (minted w) |}.

Definition unavailable {A} : JsResult A :=
  inl (AxiosError (Some 503) "service unavailable").

Definition fetch (account app : Z) (w : World)
  : JsResult (Maybe PrivateAppUserTokenResponse) * World :=
  match mode w with
  | Down => (unavailable, w)
  | _ =>
      match remote w !! app with
      | Some t => (inr (JsVal t), w)
      | None => (inl (AxiosError (Some 404) "not found"), w)
      end
  end.

Definition create (account app : Z) (scopes : list string) (w : World)
  : JsResult (Maybe PrivateAppUserTokenResponse) * World :=
  match mode w with
  | Down => (unavailable, w)
  | _ => (inr (JsVal (mint scopes w)), store app (mint scopes w) w)
  end.

Definition update (account app : Z) (key : string) (scopes : list string)
    (w : World)
  : JsResult (Maybe PrivateAppUserTokenResponse) * World :=
  match mode w with
  | Down => (unavailable, w)
  | Blank => (inr JsUndefined, w)
  | Up => (inr (JsVal (mint scopes w)), store app (mint scopes w) w)
  end.

Definition scopeCheck (account : Z) (w : World)
  : JsResult (list string) * World :=
  (inr (grants w), w).

(** Messages are rendered as their key. *)
#[global] Instance lang : Lang := {| i18n := λ key _, key |}.

#[global] Instance collaborators : Collaborators World := {|
  utcNow := now;
  fetchPrivateAppUserToken := fetch;
  createPrivateAppUserToken := create;
  updatePrivateAppUserToken := update;
  scopeGroupsForPersonalAccessKey := scopeCheck;
  axiosErrorWithContextMessage :=
    λ e, match e with AxiosError _ m => m | _ => "" end
|}.

Definition world0 (grants : list string) (ttl : Z) : World :=
  {| now := 1000000; remote := ∅; ttl := ttl; grants := grants;
     mode := Up; minted := 0 |}.

(** A freshly constructed manager for account 7 in a fresh runtime. *)
Definition boot (grants : list string) (ttl : Z) : Heap World :=
  {| self := constructor 7; liveIntervals := []; nextTimeout := 0;
     world := world0 grants ttl; apiCalls := []; debugLog := [] |}.

(** Time passes and the service changes mode, with no timer firing. *)
Definition drift (dt : Z) (m : Mode) (h : Heap World) : Heap World :=
  {| self := self h; liveIntervals := liveIntervals h;
     nextTimeout := nextTimeout h;
     world := {| now := now (world h) + dt; remote := remote (world h);
                 ttl := ttl (world h); grants := grants (world h);
                 mode := m; minted := minted (world h) |};
     apiCalls := apiCalls h; debugLog := debugLog h |}.

Definition bothScopes : list string := [USER_TOKEN_READ; USER_TOKEN_WRITE].

(** Run a method and keep the heap it leaves behind. *)
Definition after {A} (c : Js.M World A) (h : Heap World) : Heap World :=
  snd (c h).

(** An enabled manager: [init] has run against an account holding both
    token-management scopes. *)
Definition ready (ttl : Z) : Heap World := after init (boot bothScopes ttl).

(** Request options carry only the environment they were built for. *)
#[global] Instance httpCollaborators : Http.Collaborators unit := {|
  Http.getRequestOptions :=
    λ env _, {| Http.headers := ∅; Http.qs := ∅;
                Http.others := [("env", Http.optionalString env)] |};
  Http.accessTokenForPersonalAccessKey := λ _, inr "pak-access-token";
  Http.getOauthManager := λ _ _, Some (inr "oauth-access-token")
|}.

(** Account 7 names an auth type the library does not know and stores no
    API key; account 8 is an API-key account; account 9 uses a personal
    access key. *)
Definition config : CLIConfiguration.CLIConfig :=
  {| CLIConfiguration.accounts :=
       [ {| CLIConfiguration.name := Some "sso";
            CLIConfiguration.accountId := 7;
            CLIConfiguration.env := Some "prod";
            CLIConfiguration.authType := Some "saml";
            CLIConfiguration.apiKey := None |};
         {| CLIConfiguration.name := Some "legacy";
            CLIConfiguration.accountId := 8;
            CLIConfiguration.env := Some "prod";
            CLIConfiguration.authType := Some "apikey";
            CLIConfiguration.apiKey := Some "secret" |};
         {| CLIConfiguration.name := Some "dev";
            CLIConfiguration.accountId := 9;
            CLIConfiguration.env := Some "qa";
            CLIConfiguration.authType := Some "personalaccesskey";
            CLIConfiguration.apiKey := None |} ];
     CLIConfiguration.defaultAccount := None |}.

End Sim.

(* ===================================================================== *)
(** ** The life of a manager, one event at a time                         *)
(* ===================================================================== *)

(** What can happen to a manager between two turns of the event loop: a
    caller runs one of the public methods, the runtime fires a live
    interval, the response of a refresh that was in flight arrives (and the
    rest of [refreshToken] runs on it), or the outside world moves on. *)
Inductive Event (E : Type) :=
| EvInit
| EvGetToken (appId : Z) (requested : list string)
| EvCleanup
| EvTimer (id : nat)
| EvResponse (appId : Z) (requested : list string)
    (response : Maybe PrivateAppUserTokenResponse)
| EvWorld (w : E).
Arguments EvInit {E}.
Arguments EvGetToken {E} appId requested.
Arguments EvCleanup {E}.
Arguments EvTimer {E} id.
Arguments EvResponse {E} appId requested response.
Arguments EvWorld {E} w.

Section History.
Context `{Lang} {E : Type} `{Collaborators E}.

(** The heap an event leaves behind; what a method returns or throws goes
    to its caller and is not kept. *)
Definition happen (ev : Event E) (h : Heap E) : Heap E :=
  match ev with
  | EvInit => snd (init h)
  | EvGetToken appId requested => snd (getPrivateAppToken appId requested h)
  | EvCleanup => snd (cleanup h)
  | EvTimer id => snd (fireInterval id h)
  | EvResponse appId requested response =>
      snd (refreshToken_resume appId requested response h)
  | EvWorld w =>
      {| self := self h; liveIntervals := liveIntervals h;
         nextTimeout := nextTimeout h; world := w; apiCalls := apiCalls h;
         debugLog := debugLog h |}
  end.

Definition history (events : list (Event E)) (h : Heap E) : Heap E :=
  foldl (λ h ev, happen ev h) h events.

(** [new PrivateAppUserTokenManager(account)] in a runtime with no live
    interval. *)
Definition newborn (account : Z) (w : E) : Heap E :=
  {| self := constructor account; liveIntervals := []; nextTimeout := 0;
     world := w; apiCalls := []; debugLog := [] |}.
End History.

(** The two maps and the timer table tell the same story: every live
    interval is on file, handles are not reused, every handle on file is
    live for its app, and an app has a cached token exactly when it has a
    handle on file. *)
Definition inSync {E} (h : Heap E) : Prop :=
  registered h
  ∧ NoDup (map fst (liveIntervals h))
  ∧ (∀ p, p ∈ liveIntervals h → (p.1 < nextTimeout h)%nat)
  ∧ (∀ appId id,
       tokenMapIntervalId (self h) !! appId = Some id →
       ∃ cb, (id, cb) ∈ liveIntervals h ∧ cbAppId cb = appId)
  ∧ (∀ appId,
       is_Some (tokenMap (self h) !! appId)
       ↔ is_Some (tokenMapIntervalId (self h) !! appId)).

(** [h'] differs from [h] at most in the enabled flag, the outside world
    and the logs. *)
Definition sameTimers {E} (h h' : Heap E) : Prop :=
  tokenMap (self h') = tokenMap (self h)
  ∧ tokenMapIntervalId (self h') = tokenMapIntervalId (self h)
  ∧ liveIntervals h' = liveIntervals h
  ∧ nextTimeout h' = nextTimeout h.

(** What a method can have done to the maps and the timer table: nothing,
    or one arm after nothing. *)
Definition atMostOneArm `{Lang} {E} `{Collaborators E} (h h' : Heap E)
  : Prop :=
  sameTimers h h'
  ∨ ∃ h1 appId token requested,
      sameTimers h h1
      ∧ h' = snd (setCacheAndRefresh appId (JsVal token) requested h1).

(* ===================================================================== *)
(** ** src/http/index.ts: query parameters and the five verbs             *)
(* ===================================================================== *)

Module Requests.

(** [GetRequestOptionsOptions] and [HttpOptions] are declared in
    [types/Http]; the code here reads [qs] and [query] and passes every
    other member along.  [HttpOptions] is [GetRequestOptionsOptions] plus
    an optional [query]. *)
Record HttpOptions := {
  query : option (gmap string JsValue);
  qs : option (gmap string JsValue);
  rest : list (string * JsValue)
}.

(** [{ ...o }] of a member that may be [undefined] *)
Definition spread (o : option (gmap string JsValue)) : gmap string JsValue :=
  match o with Some m => m | None => ∅ end.

(** [{ ...requestOptions, qs: { ...qs, ...params } }], with [params]
    defaulting to the empty object; later keys win. *)
Definition addQueryParams (requestOptions : HttpOptions)
    (params : option (gmap string JsValue)) : HttpOptions :=
  {| query := query requestOptions;
     qs := Some (spread params ∪ spread (qs requestOptions));
     rest := rest requestOptions |}.

(** [const { query, ...rest } = options] *)
Definition withoutQuery (options : HttpOptions) : HttpOptions :=
  {| query := None; qs := qs options; rest := rest options |}.

Inductive Verb := GET | POST | PUT | PATCH | DEL.

(** [requestPN.get], [.post], [.put], [.patch] and [.del] of
    request-promise-native: what the request resolves or rejects with. *)
Class Transport (Resp : Type) := {
  requestPN : Verb → Http.RequestOptions → JsResult Resp
}.

Section Verbs.
Context `{Lang} `{Http.Collaborators HttpOptions} {Resp : Type}
        `{Transport Resp}.

(** A verb answers with the outcome of the request and with the requests
    it handed to the transport. *)
Definition send (verb : Verb) (authenticated : JsResult Http.RequestOptions)
  : JsResult Resp * list (Verb * Http.RequestOptions) :=
  match authenticated with
  | inl thrown => (inl thrown, [])
  | inr requestOptionsWithAuth =>
      (requestPN verb requestOptionsWithAuth, [(verb, requestOptionsWithAuth)])
  end.

Definition getRequest (config : option CLIConfiguration.CLIConfig)
    (accountId : Z) (options : HttpOptions) :=
  let requestOptions := addQueryParams (withoutQuery options) (query options) in
  send GET (Http.withAuth config accountId requestOptions).

Definition postRequest (config : option CLIConfiguration.CLIConfig)
    (accountId : Z) (options : HttpOptions) :=
  send POST (Http.withAuth config accountId options).

Definition putRequest (config : option CLIConfiguration.CLIConfig)
    (accountId : Z) (options : HttpOptions) :=
  send PUT (Http.withAuth config accountId options).

Definition patchRequest (config : option CLIConfiguration.CLIConfig)
    (accountId : Z) (options : HttpOptions) :=
  send PATCH (Http.withAuth config accountId options).

Definition deleteRequest (config : option CLIConfiguration.CLIConfig)
    (accountId : Z) (options : HttpOptions) :=
  send DEL (Http.withAuth config accountId options).
End Verbs.

End Requests.

(* ===================================================================== *)
(** ** src/src/config/CLIConfiguration.ts: the rest of the class          *)
(* ===================================================================== *)

Module Config.

Definition i18nKey := "config.cliConfiguration".

(** [getAccountId]: [account ? account.accountId : null] *)
Definition getAccountId (config : option CLIConfiguration.CLIConfig)
    (nameOrId : CLIConfiguration.NameOrId) : option Z :=
  match CLIConfiguration.getAccount config (Some nameOrId) with
  | Some account => Some (CLIConfiguration.accountId account)
  | None => None
  end.

(** [Array.prototype.findIndex], with -1 for no match. *)
Fixpoint findIndex {A} (f : A → bool) (l : list A) : Z :=
  match l with
  | [] => -1
  | x :: l' =>
      if f x then 0
      else let i := findIndex f l' in if (i <? 0)%Z then -1 else i + 1
  end.

Definition getConfigAccountIndex (config : option CLIConfiguration.CLIConfig)
    (accountId : Z) : Z :=
  match config with
  | Some c =>
      findIndex (λ account, (CLIConfiguration.accountId account =? accountId)%Z)
        (CLIConfiguration.accounts c)
  | None => -1
  end.

(** [array.splice(index, 1)]: a negative index counts from the end. *)
Definition splice1 {A} (index : Z) (l : list A) : list A :=
  let len := Z.of_nat (length l) in
  let start := if (index <? 0)%Z then Z.max (len + index) 0
               else Z.min index len in
  delete (Z.to_nat start) l.

(** The fields of the class the methods below use, and the configs handed
    to [writeConfigToFile] (from [./configFile]), oldest first, and the
    keys handed to [debug]. *)
Record Store := {
  useEnvConfig : bool;
  config : option CLIConfiguration.CLIConfig;
  disk : list CLIConfiguration.CLIConfig;
  debugged : list string
}.

Definition setConfig (c : option CLIConfiguration.CLIConfig) (s : Store)
  : Store :=
  {| useEnvConfig := useEnvConfig s; config := c; disk := disk s;
     debugged := debugged s |}.

Definition writeConfigToFile (c : CLIConfiguration.CLIConfig) (s : Store)
  : Store :=
  {| useEnvConfig := useEnvConfig s; config := config s;
     disk := disk s ++ [c]; debugged := debugged s |}.

Definition debug (key : string) (s : Store) : Store :=
  {| useEnvConfig := useEnvConfig s; config := config s; disk := disk s;
     debugged := debugged s ++ [key] |}.

Definition write (updatedConfig : option CLIConfiguration.CLIConfig)
    (s : Store) : option CLIConfiguration.CLIConfig * Store :=
  if useEnvConfig s then (config s, s)
  else
    let s1 := match updatedConfig with
              | Some c => setConfig (Some c) s
              | None => s
              end in
    let s2 := match config s1 with
              | Some c => writeConfigToFile c s1
              | None => s1
              end in
    (config s2, s2).

Definition nameOrIdValue (x : CLIConfiguration.NameOrId) : JsValue :=
  match x with
  | CLIConfiguration.ByName n => VStr n
  | CLIConfiguration.ById i => VNum i
  end.

(** [this.getDefaultAccount() === accountConfig.name] *)
Definition isDefaultName (default : option CLIConfiguration.NameOrId)
    (name : option string) : bool :=
  match default, name with
  | Some (CLIConfiguration.ByName d), Some n => String.eqb d n
  | _, _ => false
  end.

Section Mutators.
Context `{Lang}.

(** A call without interpolation hands [i18n] no table. *)
Definition updateDefaultAccount (defaultAccount : CLIConfiguration.NameOrId)
    (s : Store) : JsResult (option CLIConfiguration.CLIConfig) * Store :=
  match config s with
  | None =>
      (inl (genericThrowErrorWithMessage (i18nKey +:+ ".noConfigLoaded") []
              None), s)
  | Some c =>
      if negb (CLIConfiguration.truthyNameOrId defaultAccount) then
        (inl (genericThrowErrorWithMessage
                (i18nKey +:+ ".updateDefaultAccount") [] None), s)
      else
        let c' := {| CLIConfiguration.accounts := CLIConfiguration.accounts c;
                     CLIConfiguration.defaultAccount := Some defaultAccount |} in
        let '(written, s') := write None (setConfig (Some c') s) in
        (inr written, s')
  end.

Definition removeAccountFromConfig (nameOrId : CLIConfiguration.NameOrId)
    (s : Store) : JsResult bool * Store :=
  match config s with
  | None =>
      (inl (genericThrowErrorWithMessage (i18nKey +:+ ".noConfigLoaded") []
              None), s)
  | Some c =>
      let missing :=
        (inl (genericThrowErrorWithMessage
                (i18nKey +:+ ".removeAccountFromConfig")
                [("nameOrId", nameOrIdValue nameOrId)] None), s) in
      match getAccountId (Some c) nameOrId with
      | None => missing
      | Some accountId =>
          if (accountId =? 0)%Z then missing
          else
            match CLIConfiguration.getAccount (Some c)
                    (Some (CLIConfiguration.ById accountId)) with
            | None => (inr false, s)
            | Some accountConfig =>
                let s1 := debug (i18nKey +:+ ".removeAccountFromConfig") s in
                let index := getConfigAccountIndex (Some c) accountId in
                let c' :=
                  {| CLIConfiguration.accounts :=
                       splice1 index (CLIConfiguration.accounts c);
                     CLIConfiguration.defaultAccount :=
                       CLIConfiguration.defaultAccount c |} in
                let shouldShowDefaultAccountPrompt :=
                  isDefaultName (CLIConfiguration.getDefaultAccount (Some c'))
                    (CLIConfiguration.name accountConfig) in
                let '(_, s2) := write None (setConfig (Some c') s1) in
                (inr shouldShowDefaultAccountPrompt, s2)
            end
      end
  end.
End Mutators.

(** What [validate] reports through [logger.error], one constructor per
    message.  The file does not import [logger]; it is taken to be the
    logger of [utils/logger], whose [error] only writes the line. *)
Inductive Complaint :=
| NoConfig
| AccountsNotArray
| EmptyEntry
| MissingAccountId
| DuplicateAccountId (accountId : Z)
| DuplicateName (name : string)
| NameHasSpaces (name : string).

(** A config as [validate] must be ready to find it: [accounts] may not be
    an array at all and an entry may be empty.  An [accountId] of 0 also
    stands for a missing one; the tests the class makes on it (truthiness,
    [===] against an id that is not 0) cannot tell the two apart. *)
Record RawConfig := {
  rawAccounts : option (list (option CLIConfiguration.CLIAccount))
}.

Definition raw (c : CLIConfiguration.CLIConfig) : RawConfig :=
  {| rawAccounts := Some (map Some (CLIConfiguration.accounts c)) |}.

(** The properties every object inherits: reading one of these keys from
    [accountNamesMap] is truthy before anything was stored. *)
Definition objectPrototypeKeys : list string :=
  ["constructor"; "__defineGetter__"; "__defineSetter__"; "hasOwnProperty";
   "__lookupGetter__"; "__lookupSetter__"; "isPrototypeOf";
   "propertyIsEnumerable"; "toString"; "valueOf"; "__proto__";
   "toLocaleString"].

(** [\s] on code units below 256: tab, line feed, vertical tab, form feed,
    carriage return, space and no-break space. *)
Definition isSpace (c : ascii) : bool :=
  let n := nat_of_ascii c in
  ((9 <=? n)%nat && (n <=? 13)%nat) || (n =? 32)%nat || (n =? 160)%nat.

(** [/\s+/.test(s)] *)
Fixpoint hasSpace (s : string) : bool :=
  match s with
  | EmptyString => false
  | String c s' => isSpace c || hasSpace s'
  end.

(** The callback of [accounts.every], with the two maps as the lists of
    keys stored so far: the first complaint, if any. *)
Fixpoint validateAccounts (accountIdsMap : list Z) (accountNamesMap : list string)
    (accounts : list (option CLIConfiguration.CLIAccount)) : option Complaint :=
  match accounts with
  | [] => None
  | None :: _ => Some EmptyEntry
  | Some accountConfig :: more =>
      let accountId := CLIConfiguration.accountId accountConfig in
      if (accountId =? 0)%Z then Some MissingAccountId
      else if existsb (Z.eqb accountId) accountIdsMap
      then Some (DuplicateAccountId accountId)
      else
        match CLIConfiguration.name accountConfig with
        | Some name =>
            if String.eqb name "" then
              validateAccounts (accountId :: accountIdsMap) accountNamesMap more
            else if existsb (String.eqb name)
                      (accountNamesMap ++ objectPrototypeKeys)
            then Some (DuplicateName name)
            else if hasSpace name then Some (NameHasSpaces name)
            else validateAccounts (accountId :: accountIdsMap)
                   (name :: accountNamesMap) more
        | None =>
            validateAccounts (accountId :: accountIdsMap) accountNamesMap more
        end
  end.

(** The answer of [validate] and what it logged. *)
Definition validate (config : option RawConfig) : bool * list Complaint :=
  match config with
  | None => (false, [NoConfig])
  | Some c =>
      match rawAccounts c with
      | None => (false, [AccountsNotArray])
      | Some accounts =>
          match validateAccounts [] [] accounts with
          | Some complaint => (false, [complaint])
          | None => (true, [])
          end
      end
  end.

End Config.

(* ===================================================================== *)
(** ** Concrete collaborators for the requests and the configuration      *)
(* ===================================================================== *)

Module Lab.

(** Request options are built from the caller's query string alone. *)
#[global] Instance httpCollaborators
  : Http.Collaborators Requests.HttpOptions := {|
  Http.getRequestOptions :=
    λ env options,
      {| Http.headers := ∅;
         Http.qs := Requests.spread (Requests.qs options);
         Http.others := Requests.rest options |};
  Http.accessTokenForPersonalAccessKey := λ _, inr "pak-access-token";
  Http.getOauthManager := λ _ _, None
|}.

(** Every request is answered with the verb it was sent with. *)
#[global] Instance transport : Requests.Transport Requests.Verb := {|
  Requests.requestPN := λ verb _, inr verb
|}.

Definition account (name : option string) (accountId : Z)
  : CLIConfiguration.CLIAccount :=
  {| CLIConfiguration.name := name;
     CLIConfiguration.accountId := accountId;
     CLIConfiguration.env := Some "prod";
     CLIConfiguration.authType := Some "personalaccesskey";
     CLIConfiguration.apiKey := None |}.

(** Three accounts; the second is the default, by name. *)
Definition config : CLIConfiguration.CLIConfig :=
  {| CLIConfiguration.accounts :=
       [account (Some "main") 11; account (Some "sandbox") 22;
        account None 33];
     CLIConfiguration.defaultAccount :=
       Some (CLIConfiguration.ByName "sandbox") |}.

Definition store : Config.Store :=
  {| Config.useEnvConfig := false; Config.config := Some config;
     Config.disk := []; Config.debugged := [] |}.

Definition options : Requests.HttpOptions :=
  {| Requests.query := Some {["limit" := VNum 10]};
     Requests.qs := Some {["limit" := VNum 5; "offset" := VNum 0]};
     Requests.rest := [("url", VStr "cms/v3/pages")] |}.

End Lab.

(* ===================================================================== *)
(** ** src/lib/github.ts: asking for a release                            *)
(* ===================================================================== *)

Module Github.

Definition i18nKey := "lib.github".

(** [String.prototype.toLowerCase], one code unit below 256 at a time: the
    letters A to Z and the accented capitals from 192 to 222 (but not the
    multiplication sign, 215) move up by 32. *)
Definition toLowerUnit (c : ascii) : ascii :=
  let n := nat_of_ascii c in
  if ((65 <=? n)%nat && (n <=? 90)%nat)
     || ((192 <=? n)%nat && (n <=? 222)%nat && negb (n =? 215)%nat)
  then ascii_of_nat (n + 32)
  else c.

Fixpoint toLowerCase (s : string) : string :=
  match s with
  | EmptyString => EmptyString
  | String c s' => String (toLowerUnit c) (toLowerCase s')
  end.

Fixpoint trimStart (s : string) : string :=
  match s with
  | EmptyString => EmptyString
  | String c s' => if Config.isSpace c then trimStart s' else s
  end.

Fixpoint trimEnd (s : string) : string :=
  match s with
  | EmptyString => EmptyString
  | String c s' =>
      match trimEnd s' with
      | EmptyString => if Config.isSpace c then EmptyString
                       else String c EmptyString
      | kept => String c kept
      end
  end.

(** [String.prototype.trim] on code units below 256 *)
Definition trim (s : string) : string := trimEnd (trimStart s).

(** [tag[0] === 'v'] *)
Definition startsWithV (s : string) : bool :=
  match s with
  | String c _ => Ascii.eqb c "v"
  | EmptyString => false
  end.

(** The tag [fetchReleaseData] asks for: its opening statements, from
    [if (tag)] to the closing brace. *)
Definition releaseTag (tag : option string) : option string :=
  match tag with
  | Some given =>
      if String.eqb given "" then Some given
      else
        let lowered := toLowerCase (trim given) in
        if negb (String.eqb lowered "") && negb (startsWithV lowered)
        then Some ("v" +:+ lowered)
        else Some lowered
  | None => None
  end.

(** [fetchRepoReleaseData] from [api/github]: the [data] of its response,
    or what it rejects with. *)
Class Api (Release : Type) := {
  fetchRepoReleaseData : string → option string → JsResult Release
}.

Section Release.
Context `{Lang} {Release : Type} `{Api Release}.

(** [tag || 'latest'] *)
Definition tagOrLatest (tag : option string) : string :=
  match tag with
  | Some t => if String.eqb t "" then "latest" else t
  | None => "latest"
  end.

Definition fetchReleaseData (repoPath : string) (tag : option string)
  : JsResult Release :=
  let tag := releaseTag tag in
  match fetchRepoReleaseData repoPath tag with
  | inr data => inr data
  | inl error =>
      inl (genericThrowErrorWithMessage
             (i18nKey +:+ ".fetchReleaseData.errors.fetchFail")
             [("tag", VStr (tagOrLatest tag))] (Some error))
  end.
End Release.

End Github.

(* ===================================================================== *)
(** ** src/unnamed/part_001: a configuration from environment variables   *)
(* ===================================================================== *)

Module Environment.

(** The environment variables [getConfigVariablesFromEnv] reads, each
    present or not. *)
Record Variables := {
  HUBSPOT_API_KEY : option string;
  HUBSPOT_CLIENT_ID : option string;
  HUBSPOT_CLIENT_SECRET : option string;
  HUBSPOT_PERSONAL_ACCESS_KEY : option string;
  HUBSPOT_ACCOUNT_ID : option string;
  HUBSPOT_REFRESH_TOKEN : option string;
  HUBSPOT_ENVIRONMENT : option string
}.

(** The longest run of decimal digits a string starts with, as a number,
    and how many digits it has. *)
Fixpoint leadingDigits (acc : Z) (count : nat) (s : string) : Z * nat :=
  match s with
  | String c s' =>
      if CLIConfiguration.isDigit c
      then leadingDigits (10 * acc + (Z.of_nat (nat_of_ascii c) - 48))
             (S count) s'
      else (acc, count)
  | EmptyString => (acc, count)
  end.

(** [parseInt(s, 10)]: white space is skipped, one sign is read, then the
    digits; [None] is NaN.  A missing variable is parsed as the text
    "undefined".  Exact below 2^53. *)
Definition parseInt10 (s : option string) : option Z :=
  match s with
  | None => None
  | Some text =>
      let body := Github.trimStart text in
      let '(negative, digits) :=
        match body with
        | String "-" more => (true, more)
        | String "+" more => (false, more)
        | _ => (false, body)
        end in
      match leadingDigits 0 0 digits with
      | (_, O) => None
      | (n, _) => Some (if negative then - n else n)
      end
  end.

(** A string that is present and not empty. *)
Definition given (s : option string) : option string :=
  match s with
  | Some text => if String.eqb text "" then None else Some text
  | None => None
  end.

(** The [value] of the three auth-method constants of [constants/auth]. *)
Inductive AuthMethod :=
| PERSONAL_ACCESS_KEY_AUTH_METHOD
| OAUTH_AUTH_METHOD
| API_KEY_AUTH_METHOD.

(** What is handed to [generateConfig] next to the method. *)
Record Options := {
  accountId : Z;
  personalAccessKey : option string;
  clientId : option string;
  clientSecret : option string;
  refreshToken : option string;
  scopes : option (list string);
  apiKey : option string;
  env : string
}.

(** [generateConfig] from [./configUtils], [getValidEnv] from
    [lib/environment], the scope values of [OAUTH_SCOPES] and [debug]'s
    keys are not among the sources at hand. *)
Class Collaborators (Generated : Type) := {
  generateConfig : AuthMethod → Options → option Generated;
  getValidEnv : option string → option string;
  OAUTH_SCOPES : list string
}.

Section Load.
Context {Generated : Type} `{Collaborators Generated}.

(** The configuration, if any, and the keys handed to [debug]. *)
Definition loadConfigFromEnvironment (vars : Variables)
  : option Generated * list string :=
  let accountId := parseInt10 (HUBSPOT_ACCOUNT_ID vars) in
  let env := given (getValidEnv (HUBSPOT_ENVIRONMENT vars)) in
  match accountId with
  | None => (None, ["environment.loadConfig.missingAccountId"])
  | Some id =>
      if (id =? 0)%Z
      then (None, ["environment.loadConfig.missingAccountId"])
      else
        match env with
        | None => (None, ["environment.loadConfig.env"])
        | Some env =>
            match given (HUBSPOT_PERSONAL_ACCESS_KEY vars),
                  given (HUBSPOT_CLIENT_ID vars),
                  given (HUBSPOT_CLIENT_SECRET vars),
                  given (HUBSPOT_REFRESH_TOKEN vars),
                  given (HUBSPOT_API_KEY vars) with
            | Some key, _, _, _, _ =>
                (generateConfig PERSONAL_ACCESS_KEY_AUTH_METHOD
                   {| accountId := id; personalAccessKey := Some key;
                      clientId := None; clientSecret := None;
                      refreshToken := None; scopes := None; apiKey := None;
                      env := env |}, [])
            | None, Some client, Some secret, Some refresh, _ =>
                (generateConfig OAUTH_AUTH_METHOD
                   {| accountId := id; personalAccessKey := None;
                      clientId := Some client; clientSecret := Some secret;
                      refreshToken := Some refresh;
                      scopes := Some OAUTH_SCOPES; apiKey := None;
                      env := env |}, [])
            | None, _, _, _, Some key =>
                (generateConfig API_KEY_AUTH_METHOD
                   {| accountId := id; personalAccessKey := None;
                      clientId := None; clientSecret := None;
                      refreshToken := None; scopes := None;
                      apiKey := Some key; env := env |}, [])
            | None, _, _, _, None =>
                (None, ["environment.loadConfig.unknownAuthType"])
            end
        end
  end.
End Load.

End Environment.

(* ===================================================================== *)
(** ** A concrete shell environment                                       *)
(* ===================================================================== *)

Module Shell.

(** [generateConfig] answers with what it was handed; every environment
    name is valid and a missing one is "prod". *)
#[global] Instance collaborators
  : Environment.Collaborators (Environment.AuthMethod * Environment.Options)
  := {|
  Environment.generateConfig := λ method options, Some (method, options);
  Environment.getValidEnv :=
    λ env, match env with Some e => Some e | None => Some "prod" end;
  Environment.OAUTH_SCOPES := ["content"]
|}.

(** An account id with white space before and text after it, a personal
    access key and an API key. *)
Definition vars : Environment.Variables :=
  {| Environment.HUBSPOT_API_KEY := Some "api-key";
     Environment.HUBSPOT_CLIENT_ID := None;
     Environment.HUBSPOT_CLIENT_SECRET := Some "secret";
     Environment.HUBSPOT_PERSONAL_ACCESS_KEY := Some "pak";
     Environment.HUBSPOT_ACCOUNT_ID := Some " 123abc";
     Environment.HUBSPOT_REFRESH_TOKEN := None;
     Environment.HUBSPOT_ENVIRONMENT := Some "qa" |}.

(** The release endpoint knows no release and says which tag it was asked
    for. *)
#[global] Instance releases : Github.Api string := {|
  Github.fetchRepoReleaseData :=
    λ repoPath tag,
      inl (AxiosError (Some 404)
             (match tag with Some t => t | None => "" end))
|}.

End Shell.

(* ===================================================================== *)
(** ** Running method bodies                                              *)
(* ===================================================================== *)

(** Unfold the monad and the primitive effects, then compute. *)
Ltac js_unfold :=
  unfold Js.bind, Js.tryCatch, Js.ret, Js.throw, Js.modify,
    readSelf, updateSelf, loggerDebug, momentUtc, await, setInterval,
    clearInterval, throwErrorWithMessage, genericThrowErrorWithMessage in *.

Ltac js_run := js_unfold; cbn.

Section CacheHit.
Context `{Lang} {E : Type} `{Collaborators E}.

(** A covered request on an enabled manager touches nothing but the debug
    log. *)
Lemma getPrivateAppToken_hit (h : Heap E) appId requested cached :
  enabled (self h) = true →
  tokenMap (self h) !! appId = Some cached →
  doesTokenHaveAllScopes (Some cached) requested = true →
  getPrivateAppToken appId requested h
  = (inr (Some (userTokenKey cached)),
     addDebug (i18n (i18nKey +:+ ".cached") [("appId", VNum appId)]) h).
Proof.
  intros Hen Hcached Hcov.
  unfold getPrivateAppToken, has. js_run.
  rewrite Hen, Hcached. cbn.
  cbn in Hcov. rewrite Hcov. reflexivity.
Qed.

(** C9: with an empty list of required scopes, an enabled manager that
    holds a record for the app answers with the cached key, whatever the
    scopes of that record, and no remote endpoint is invoked. *)
Theorem cached_token_served_for_empty_scopes (h : Heap E) appId cached :
  enabled (self h) = true →
  tokenMap (self h) !! appId = Some cached →
  let '(result, h') := getPrivateAppToken appId [] h in
  result = inr (Some (userTokenKey cached))
  ∧ apiCalls h' = apiCalls h
  ∧ world h' = world h
  ∧ self h' = self h
  ∧ liveIntervals h' = liveIntervals h.
Proof.
  intros Hen Hcached.
  rewrite (getPrivateAppToken_hit h appId [] cached Hen Hcached eq_refl).
  repeat split.
Qed.
End CacheHit.

Lemma cached_token_served_for_empty_scopes_witness :
  let h := Sim.after (getPrivateAppToken 42 ["read"]) (Sim.ready 3600000) in
  let '(result, h') := getPrivateAppToken 42 [] h in
  result = inr (Some "token-0")
  ∧ apiCalls h' = apiCalls h
  ∧ world h' = world h
  ∧ self h' = self h
  ∧ liveIntervals h' = liveIntervals h.
Proof.
  apply (cached_token_served_for_empty_scopes
           (Sim.after (getPrivateAppToken 42 ["read"]) (Sim.ready 3600000))
           42
           {| userTokenKey := "token-0"; scopeGroups := ["read"];
              expiresAt := 4600000 |}).
  - vm_compute. reflexivity.
  - vm_compute. reflexivity.
Defined.

(* ===================================================================== *)
(** ** When the cache answers and when the network is consulted           *)
(* ===================================================================== *)

Section CacheMiss.
Context `{Lang} {E : Type} `{Collaborators E}.

(** [getExistingToken] always issues exactly the fetch request. *)
Lemma getExistingToken_calls (h : Heap E) appId :
  apiCalls (snd (getExistingToken appId h))
  = apiCalls h ++ [CallFetch (accountId (self h)) appId].
Proof.
  unfold getExistingToken. js_run.
  destruct (fetchPrivateAppUserToken _ _ _) as [[e|m] w]; cbn; [|done].
  destruct (isAxiosError e && statusIs e 404); done.
Qed.

(** Whatever happens after it, [createOrGetActiveToken] starts by
    fetching. *)
Lemma createOrGetActiveToken_calls (h : Heap E) appId requested :
  ∃ rest,
    apiCalls (snd (createOrGetActiveToken appId requested h))
    = apiCalls h ++ CallFetch (accountId (self h)) appId :: rest.
Proof.
  unfold createOrGetActiveToken.
  unfold Js.bind at 1. unfold readSelf at 1.
  unfold Js.bind at 1.
  pose proof (getExistingToken_calls h appId) as Hc.
  destruct (getExistingToken appId h) as [[e|m] h1]; cbn in Hc |- *.
  - exists []. done.
  - destruct m as [| |t]; js_run.
    + exists []. done.
    + destruct (createPrivateAppUserToken _ _ _ _) as [r w]. cbn.
      rewrite Hc, <- app_assoc. eauto.
    + destruct (_ || _); cbn.
      * destruct (updatePrivateAppUserToken _ _ _ _ _) as [r w]. cbn.
        rewrite Hc, <- app_assoc. eauto.
      * exists []. done.
Qed.

(** The heap [setCacheAndRefresh] leaves behind for a real token. *)
Lemma setCacheAndRefresh_val (h : Heap E) appId t requested :
  setCacheAndRefresh appId (JsVal t) requested h
  = (inr tt,
     {| self := withIntervalIds (insert appId (nextTimeout h))
                  (withTokenMap (insert appId t) (self h));
        liveIntervals :=
          match tokenMapIntervalId (self h) !! appId with
          | Some id => dropInterval id (liveIntervals h)
          | None => liveIntervals h
          end
          ++ [(nextTimeout h,
               {| cbAppId := appId; cbUserTokenKey := userTokenKey t;
                  cbScopeGroups := requested;
                  delayMillis := refreshDelayMillis t (utcNow (world h)) |})];
        nextTimeout := S (nextTimeout h);
        world := world h;
        apiCalls := apiCalls h;
        debugLog :=
          debugLog h
          ++ [i18n (i18nKey +:+ ".refreshScheduled")
                [("appId", VNum appId); ("expiresAt", VNum (expiresAt t));
                 ("refreshTime",
                  VNum (utcNow (world h)
                        + refreshDelayMillis t (utcNow (world h))))]] |}).
Proof.
  unfold setCacheAndRefresh. js_run.
  destruct (tokenMapIntervalId (self h) !! appId); reflexivity.
Qed.

(** Without a token [setCacheAndRefresh] throws and changes nothing. *)
Lemma setCacheAndRefresh_missing (h : Heap E) appId token requested :
  token = JsUndefined ∨ token = JsNull →
  setCacheAndRefresh appId token requested h
  = (inl (PlainError
            (i18n (i18nKey +:+ ".errors.refreshFailed")
               [("accountId", VNum (accountId (self h)));
                ("appId", VNum appId)]) None), h).
Proof. intros [-> | ->]; reflexivity. Qed.

Lemma setCacheAndRefresh_calls (h : Heap E) appId token requested :
  apiCalls (snd (setCacheAndRefresh appId token requested h)) = apiCalls h
  ∧ world (snd (setCacheAndRefresh appId token requested h)) = world h.
Proof.
  destruct token as [| |t].
  - rewrite setCacheAndRefresh_missing by auto. done.
  - rewrite setCacheAndRefresh_missing by auto. done.
  - rewrite setCacheAndRefresh_val. done.
Qed.

Lemma wrapApiError_heap {A} (h : Heap E) appId err :
  snd (wrapApiError (A := A) appId err h) = h.
Proof.
  unfold wrapApiError. js_run.
  destruct (isAxiosError err); cbn; [done|].
  destruct (truthyError err); done.
Qed.

Lemma wrapApiError_throws {A} (h : Heap E) appId err :
  ∃ wrapped, wrapApiError (A := A) appId err h = (inl wrapped, h).
Proof.
  unfold wrapApiError. js_run.
  destruct (isAxiosError err); cbn; [eauto|].
  destruct (truthyError err); eauto.
Qed.

(** An uncovered request on an enabled manager starts with a fetch. *)
Lemma getPrivateAppToken_miss (h : Heap E) appId requested :
  enabled (self h) = true →
  doesTokenHaveAllScopes (tokenMap (self h) !! appId) requested = false →
  ∃ rest,
    apiCalls (snd (getPrivateAppToken appId requested h))
    = apiCalls h ++ CallFetch (accountId (self h)) appId :: rest.
Proof.
  intros Hen Hmiss.
  unfold getPrivateAppToken.
  unfold Js.bind at 1. unfold readSelf at 1.
  rewrite Hen, Hmiss, andb_false_r. cbn [negb].
  unfold Js.tryCatch. unfold Js.bind at 1.
  destruct (createOrGetActiveToken_calls h appId requested) as [rest Hrest].
  destruct (createOrGetActiveToken appId requested h) as [[e|token] h1];
    cbn in Hrest.
  - rewrite wrapApiError_heap. eauto.
  - unfold Js.bind at 1.
    destruct (setCacheAndRefresh_calls h1 appId token requested) as [Hc _].
    destruct (setCacheAndRefresh appId token requested h1) as [[e|[]] h2];
      cbn in Hc.
    + rewrite wrapApiError_heap, Hc. eauto.
    + destruct token; cbn; rewrite Hc; eauto.
Qed.

(** C2, as the code has it: on an enabled manager the cached key is
    handed back without any remote invocation exactly when a record for
    the app is cached and its scope groups include every required scope.
    The record's expiry takes no part in that decision. *)
Theorem cache_answers_iff_scopes_covered (h : Heap E) appId requested :
  enabled (self h) = true →
  (doesTokenHaveAllScopes (tokenMap (self h) !! appId) requested = true →
   ∃ cached,
     tokenMap (self h) !! appId = Some cached
     ∧ fst (getPrivateAppToken appId requested h)
       = inr (Some (userTokenKey cached))
     ∧ apiCalls (snd (getPrivateAppToken appId requested h)) = apiCalls h
     ∧ world (snd (getPrivateAppToken appId requested h)) = world h
     ∧ self (snd (getPrivateAppToken appId requested h)) = self h)
  ∧ (doesTokenHaveAllScopes (tokenMap (self h) !! appId) requested = false →
     ∃ rest,
       apiCalls (snd (getPrivateAppToken appId requested h))
       = apiCalls h ++ CallFetch (accountId (self h)) appId :: rest).
Proof.
  intros Hen. split.
  - intros Hcov.
    destruct (tokenMap (self h) !! appId) as [cached|] eqn:Hc; [|done].
    exists cached.
    rewrite (getPrivateAppToken_hit h appId requested cached Hen Hc Hcov).
    done.
  - apply getPrivateAppToken_miss, Hen.
Qed.
End CacheMiss.

Lemma cache_answers_iff_scopes_covered_witness :
  let h := Sim.after (getPrivateAppToken 42 ["read"]) (Sim.ready 3600000) in
  (doesTokenHaveAllScopes (tokenMap (self h) !! 42) ["read"] = true →
   ∃ cached,
     tokenMap (self h) !! 42 = Some cached
     ∧ fst (getPrivateAppToken 42 ["read"] h) = inr (Some (userTokenKey cached))
     ∧ apiCalls (snd (getPrivateAppToken 42 ["read"] h)) = apiCalls h
     ∧ world (snd (getPrivateAppToken 42 ["read"] h)) = world h
     ∧ self (snd (getPrivateAppToken 42 ["read"] h)) = self h)
  ∧ (doesTokenHaveAllScopes (tokenMap (self h) !! 42) ["read"] = false →
     ∃ rest,
       apiCalls (snd (getPrivateAppToken 42 ["read"] h))
       = apiCalls h ++ CallFetch (accountId (self h)) 42 :: rest).
Proof.
  apply (cache_answers_iff_scopes_covered
           (Sim.after (getPrivateAppToken 42 ["read"]) (Sim.ready 3600000))
           42 ["read"]).
  vm_compute. reflexivity.
Defined.

(** C2 fails as stated.  A token minted at 1000000 expires at 4600000; the
    armed interval fires while the service is down, so the refresh fails and
    the record stays; at 8200000 the record is long expired, yet
    [getPrivateAppToken] hands its key back and contacts no endpoint. *)
Lemma expired_cached_token_is_served :
  let h1 := Sim.after (getPrivateAppToken 42 ["read"]) (Sim.ready 3600000) in
  let h2 := Sim.after (fireInterval 0) (Sim.drift 3300000 Sim.Down h1) in
  let h3 := Sim.drift 3900000 Sim.Up h2 in
  enabled (self h3) = true
  ∧ tokenMap (self h3) !! 42
    = Some {| userTokenKey := "token-0"; scopeGroups := ["read"];
              expiresAt := 4600000 |}
  ∧ utcNow (world h3) = 8200000
  ∧ fst (getPrivateAppToken 42 ["read"] h3) = inr (Some "token-0")
  ∧ apiCalls (snd (getPrivateAppToken 42 ["read"] h3)) = apiCalls h3.
Proof. vm_compute. repeat split; reflexivity. Qed.

(* ===================================================================== *)
(** ** A manager that never became enabled                                *)
(* ===================================================================== *)

Section Disabled.
Context `{Lang} {E : Type} `{Collaborators E}.

Lemma getPrivateAppToken_disabled (h : Heap E) appId requested :
  enabled (self h) = false →
  getPrivateAppToken appId requested h
  = (inr None,
     addDebug (i18n (i18nKey +:+ ".disabled")
                 [("accountId", VNum (accountId (self h)));
                  ("appId", VNum appId)]) h).
Proof.
  intros Hoff. unfold getPrivateAppToken. js_run. rewrite Hoff. reflexivity.
Qed.

Lemma getPrivateAppTokens_disabled requests : ∀ h : Heap E,
  enabled (self h) = false →
  Forall (λ answer, answer = inr None) (fst (getPrivateAppTokens requests h))
  ∧ length (fst (getPrivateAppTokens requests h)) = length requests
  ∧ apiCalls (snd (getPrivateAppTokens requests h)) = apiCalls h
  ∧ world (snd (getPrivateAppTokens requests h)) = world h
  ∧ self (snd (getPrivateAppTokens requests h)) = self h
  ∧ liveIntervals (snd (getPrivateAppTokens requests h)) = liveIntervals h.
Proof.
  induction requests as [|[appId requested] more IH]; intros h Hoff.
  - cbn. repeat split; constructor.
  - cbn [getPrivateAppTokens].
    rewrite (getPrivateAppToken_disabled h appId requested Hoff).
    set (h1 := addDebug _ h).
    destruct (IH h1 Hoff) as (Hall & Hlen & Hcalls & Hworld & Hself & Hlive).
    destruct (getPrivateAppTokens more h1) as [answers h2]. cbn in *.
    repeat split; auto.
Qed.

Lemma init_insufficient (h : Heap E) granted w :
  scopeGroupsForPersonalAccessKey (accountId (self h)) (world h)
  = (inr granted, w) →
  includes granted USER_TOKEN_READ && includes granted USER_TOKEN_WRITE
  = false →
  init h
  = (inl (PlainError (i18n (i18nKey +:+ ".errors.noScopes")
                        [("accountId", VNum (accountId (self h)))]) None),
     setWorld w (CallScopeGroups (accountId (self h))) h).
Proof.
  intros Hscopes Hlack. unfold init. js_run. rewrite Hscopes. cbn.
  rewrite <- negb_andb, Hlack. reflexivity.
Qed.

(** C3, as the code has it: when the account lacks one of the two
    token-management scopes, [init] throws the [noScopes] error and leaves
    the manager as it was; a manager that was not enabled then answers
    every [getPrivateAppToken] with [undefined] and invokes no endpoint. *)
Theorem init_without_scopes_throws_and_manager_stays_silent
    (h : Heap E) granted w requests :
  enabled (self h) = false →
  scopeGroupsForPersonalAccessKey (accountId (self h)) (world h)
  = (inr granted, w) →
  includes granted USER_TOKEN_READ && includes granted USER_TOKEN_WRITE
  = false →
  let '(outcome, h1) := init h in
  let '(answers, h2) := getPrivateAppTokens requests h1 in
  outcome
  = inl (PlainError (i18n (i18nKey +:+ ".errors.noScopes")
                       [("accountId", VNum (accountId (self h)))]) None)
  ∧ self h1 = self h
  ∧ isEnabled (self h2) = false
  ∧ Forall (λ answer, answer = inr None) answers
  ∧ length answers = length requests
  ∧ apiCalls h2 = apiCalls h1
  ∧ world h2 = world h1
  ∧ liveIntervals h2 = liveIntervals h.
Proof.
  intros Hoff Hscopes Hlack.
  rewrite (init_insufficient h granted w Hscopes Hlack).
  set (h1 := setWorld _ _ h).
  assert (Hoff1 : enabled (self h1) = false) by exact Hoff.
  destruct (getPrivateAppTokens_disabled requests h1 Hoff1)
    as (Hall & Hlen & Hcalls & Hworld & Hself & Hlive).
  destruct (getPrivateAppTokens requests h1) as [answers h2]. cbn in *.
  unfold isEnabled. rewrite Hself.
  repeat split; auto.
Qed.
End Disabled.

Lemma init_without_scopes_throws_and_manager_stays_silent_witness :
  let '(outcome, h1) := init (Sim.boot [USER_TOKEN_READ] 3600000) in
  let '(answers, h2) :=
    getPrivateAppTokens [(42, ["read"]); (43, [])] h1 in
  outcome
  = inl (PlainError (i18n (i18nKey +:+ ".errors.noScopes")
                       [("accountId", VNum 7)]) None)
  ∧ self h1 = self (Sim.boot [USER_TOKEN_READ] 3600000)
  ∧ isEnabled (self h2) = false
  ∧ Forall (λ answer, answer = inr None) answers
  ∧ length answers = 2%nat
  ∧ apiCalls h2 = apiCalls h1
  ∧ world h2 = world h1
  ∧ liveIntervals h2 = [].
Proof.
  apply (init_without_scopes_throws_and_manager_stays_silent
           (Sim.boot [USER_TOKEN_READ] 3600000) [USER_TOKEN_READ]
           (Sim.world0 [USER_TOKEN_READ] 3600000)
           [(42, ["read"]); (43, [])]).
  - reflexivity.
  - reflexivity.
  - vm_compute. reflexivity.
Defined.

(** C3 fails as stated: with only the read scope granted, [init] does raise;
    the promise it returns is rejected with the [noScopes] error. *)
Lemma init_without_write_scope_raises :
  fst (init (Sim.boot [USER_TOKEN_READ] 3600000))
  = inl (PlainError "lib.PrivateAppUserTokenManager.errors.noScopes" None).
Proof. vm_compute. reflexivity. Qed.

(* ===================================================================== *)
(** ** Minting and updating on a cache miss                               *)
(* ===================================================================== *)

Section Mint.
Context `{Lang} {E : Type} `{Collaborators E}.

(** The body of [getPrivateAppToken] on an enabled manager whose cache
    does not answer. *)
Lemma getPrivateAppToken_miss_body (h : Heap E) appId requested :
  enabled (self h) = true →
  doesTokenHaveAllScopes (tokenMap (self h) !! appId) requested = false →
  getPrivateAppToken appId requested h
  = Js.tryCatch
      (let* token := createOrGetActiveToken appId requested in
       let* _ := setCacheAndRefresh appId token requested in
       match token with
       | JsVal t => Js.ret (Some (userTokenKey t))
       | _ =>
           Js.throw (PlainError
             "Cannot read properties of undefined (reading 'userTokenKey')"
             None)
       end)
      (wrapApiError appId) h.
Proof.
  intros Hen Hmiss. unfold getPrivateAppToken.
  unfold Js.bind at 1. unfold readSelf at 1.
  rewrite Hen, Hmiss, andb_false_r. reflexivity.
Qed.

(** A 404 from the fetch endpoint leads to one create request carrying
    the required scopes as they were passed. *)
Lemma createOrGetActiveToken_not_found (h : Heap E) appId requested
    message w1 outcome w2 :
  fetchPrivateAppUserToken (accountId (self h)) appId (world h)
  = (inl (AxiosError (Some 404) message), w1) →
  createPrivateAppUserToken (accountId (self h)) appId requested w1
  = (outcome, w2) →
  createOrGetActiveToken appId requested h
  = (outcome,
     setWorld w2 (CallCreate (accountId (self h)) appId requested)
       (addDebug (i18n (i18nKey +:+ ".create") [("appId", VNum appId)])
          (setWorld w1 (CallFetch (accountId (self h)) appId) h))).
Proof.
  intros Hfetch Hcreate.
  unfold createOrGetActiveToken, getExistingToken. js_run.
  rewrite Hfetch. cbn. rewrite Hcreate. reflexivity.
Qed.

(** An existing remote token that is about to expire, or that lacks a
    required scope, leads to one update request carrying the required
    scopes as they were passed. *)
Lemma createOrGetActiveToken_stale (h : Heap E) appId requested
    existing w1 outcome w2 :
  fetchPrivateAppUserToken (accountId (self h)) appId (world h)
  = (inr (JsVal existing), w1) →
  (expiresAt existing <? utcNow w1 + FIVE_MINUTES)%Z
  || negb (doesTokenHaveAllScopes (Some existing) requested) = true →
  updatePrivateAppUserToken (accountId (self h)) appId
    (userTokenKey existing) requested w1 = (outcome, w2) →
  createOrGetActiveToken appId requested h
  = (outcome,
     setWorld w2
       (CallUpdate (accountId (self h)) appId (userTokenKey existing)
          requested)
       (addDebug (i18n (i18nKey +:+ ".refresh") [("appId", VNum appId)])
          (setWorld w1 (CallFetch (accountId (self h)) appId) h))).
Proof.
  intros Hfetch Hstale Hupdate.
  unfold createOrGetActiveToken, getExistingToken. js_run.
  rewrite Hfetch. cbn. cbn in Hstale. rewrite Hstale. cbn.
  rewrite Hupdate. reflexivity.
Qed.

(** C6: on an enabled manager with nothing cached for the app, a 404 from
    the fetch endpoint is not an error; [createPrivateAppUserToken] is
    invoked once with the required scopes.  When it returns a token, that
    token is the answer, it is put in the token map, and one interval is
    armed whose delay is [max(expiresAt - now - 5 minutes, 0)]; when it
    does not, the call throws and the instance and the timer table are as
    before. *)
Theorem not_found_creates_caches_and_arms (h : Heap E) appId requested
    message w1 outcome w2 :
  enabled (self h) = true →
  tokenMap (self h) !! appId = None →
  fetchPrivateAppUserToken (accountId (self h)) appId (world h)
  = (inl (AxiosError (Some 404) message), w1) →
  createPrivateAppUserToken (accountId (self h)) appId requested w1
  = (outcome, w2) →
  let '(result, h') := getPrivateAppToken appId requested h in
  apiCalls h'
  = apiCalls h ++ [CallFetch (accountId (self h)) appId;
                   CallCreate (accountId (self h)) appId requested]
  ∧ match outcome with
    | inr (JsVal token) =>
        result = inr (Some (userTokenKey token))
        ∧ tokenMap (self h') !! appId = Some token
        ∧ tokenMapIntervalId (self h') !! appId = Some (nextTimeout h)
        ∧ liveIntervals h'
          = match tokenMapIntervalId (self h) !! appId with
            | Some id => dropInterval id (liveIntervals h)
            | None => liveIntervals h
            end
            ++ [(nextTimeout h,
                 {| cbAppId := appId; cbUserTokenKey := userTokenKey token;
                    cbScopeGroups := requested;
                    delayMillis :=
                      Z.max (expiresAt token - utcNow w2 - 5 * 60 * 1000) 0
                 |})]
    | _ =>
        (∃ thrown, result = inl thrown)
        ∧ self h' = self h
        ∧ liveIntervals h' = liveIntervals h
    end.
Proof.
  intros Hen Hnone Hfetch Hcreate.
  rewrite getPrivateAppToken_miss_body by (rewrite ?Hnone; done).
  unfold Js.tryCatch. unfold Js.bind at 1.
  rewrite (createOrGetActiveToken_not_found h appId requested message w1
             outcome w2 Hfetch Hcreate).
  set (h1 := setWorld w2 _ _).
  destruct outcome as [rejection | [| |token]].
  - destruct (wrapApiError_throws (A := option string) h1 appId rejection)
      as [wrapped ->].
    cbn. rewrite <- app_assoc. eauto.
  - unfold Js.bind at 1. rewrite setCacheAndRefresh_missing by auto.
    match goal with
    | |- context [wrapApiError appId ?e h1] =>
        destruct (wrapApiError_throws (A := option string) h1 appId e)
          as [wrapped ->]
    end.
    cbn. rewrite <- app_assoc. eauto.
  - unfold Js.bind at 1. rewrite setCacheAndRefresh_missing by auto.
    match goal with
    | |- context [wrapApiError appId ?e h1] =>
        destruct (wrapApiError_throws (A := option string) h1 appId e)
          as [wrapped ->]
    end.
    cbn. rewrite <- app_assoc. eauto.
  - unfold Js.bind at 1. rewrite setCacheAndRefresh_val. cbn.
    rewrite !lookup_insert_eq.
    repeat split.
    + rewrite <- app_assoc. reflexivity.
    + unfold refreshDelayMillis, FIVE_MINUTES.
      do 4 f_equal. lia.
Qed.

(** C1, as the code has it: when [getPrivateAppToken] updates an existing
    remote token, the scopes it sends to the update endpoint are exactly
    the scopes required by that call (no union with earlier scopes is
    formed), and the record cached afterwards is the very record the
    endpoint returned. *)
Theorem update_sends_required_scopes_and_caches_reply (h : Heap E) appId
    requested existing w1 updated w2 :
  enabled (self h) = true →
  doesTokenHaveAllScopes (tokenMap (self h) !! appId) requested = false →
  fetchPrivateAppUserToken (accountId (self h)) appId (world h)
  = (inr (JsVal existing), w1) →
  (expiresAt existing <? utcNow w1 + FIVE_MINUTES)%Z
  || negb (doesTokenHaveAllScopes (Some existing) requested) = true →
  updatePrivateAppUserToken (accountId (self h)) appId
    (userTokenKey existing) requested w1 = (inr (JsVal updated), w2) →
  let '(result, h') := getPrivateAppToken appId requested h in
  result = inr (Some (userTokenKey updated))
  ∧ apiCalls h'
    = apiCalls h ++ [CallFetch (accountId (self h)) appId;
                     CallUpdate (accountId (self h)) appId
                       (userTokenKey existing) requested]
  ∧ tokenMap (self h') !! appId = Some updated.
Proof.
  intros Hen Hmiss Hfetch Hstale Hupdate.
  rewrite getPrivateAppToken_miss_body by done.
  unfold Js.tryCatch. unfold Js.bind at 1.
  rewrite (createOrGetActiveToken_stale h appId requested existing w1
             (inr (JsVal updated)) w2 Hfetch Hstale Hupdate).
  unfold Js.bind at 1. rewrite setCacheAndRefresh_val. cbn.
  rewrite lookup_insert_eq, <- app_assoc. done.
Qed.
End Mint.

Lemma not_found_creates_caches_and_arms_witness :
  let h := Sim.ready 3600000 in
  let token := Sim.mint ["read"] (world h) in
  let '(result, h') := getPrivateAppToken 42 ["read"] h in
  apiCalls h'
  = apiCalls h ++ [CallFetch (accountId (self h)) 42;
                   CallCreate (accountId (self h)) 42 ["read"]]
  ∧ result = inr (Some (userTokenKey token))
  ∧ tokenMap (self h') !! 42 = Some token
  ∧ tokenMapIntervalId (self h') !! 42 = Some (nextTimeout h)
  ∧ liveIntervals h'
    = match tokenMapIntervalId (self h) !! 42 with
      | Some id => dropInterval id (liveIntervals h)
      | None => liveIntervals h
      end
      ++ [(nextTimeout h,
           {| cbAppId := 42; cbUserTokenKey := userTokenKey token;
              cbScopeGroups := ["read"];
              delayMillis :=
                Z.max (expiresAt token
                       - utcNow (Sim.store 42 token (world h))
                       - 5 * 60 * 1000) 0 |})].
Proof.
  apply (not_found_creates_caches_and_arms (Sim.ready 3600000) 42 ["read"]
           "not found" (world (Sim.ready 3600000))
           (inr (JsVal (Sim.mint ["read"] (world (Sim.ready 3600000)))))
           (Sim.store 42 (Sim.mint ["read"] (world (Sim.ready 3600000)))
              (world (Sim.ready 3600000)))).
  - vm_compute. reflexivity.
  - vm_compute. reflexivity.
  - vm_compute. reflexivity.
  - reflexivity.
Defined.

Lemma update_sends_required_scopes_and_caches_reply_witness :
  let h := Sim.after (getPrivateAppToken 42 ["read"]) (Sim.ready 3600000) in
  let existing := Sim.mint ["read"] (world (Sim.ready 3600000)) in
  let updated := Sim.mint ["write"] (world h) in
  let '(result, h') := getPrivateAppToken 42 ["write"] h in
  result = inr (Some (userTokenKey updated))
  ∧ apiCalls h'
    = apiCalls h ++ [CallFetch (accountId (self h)) 42;
                     CallUpdate (accountId (self h)) 42
                       (userTokenKey existing) ["write"]]
  ∧ tokenMap (self h') !! 42 = Some updated.
Proof.
  apply (update_sends_required_scopes_and_caches_reply
           (Sim.after (getPrivateAppToken 42 ["read"]) (Sim.ready 3600000))
           42 ["write"]
           (Sim.mint ["read"] (world (Sim.ready 3600000)))
           (world (Sim.after (getPrivateAppToken 42 ["read"])
                     (Sim.ready 3600000)))
           (Sim.mint ["write"]
              (world (Sim.after (getPrivateAppToken 42 ["read"])
                        (Sim.ready 3600000))))
           (Sim.store 42
              (Sim.mint ["write"]
                 (world (Sim.after (getPrivateAppToken 42 ["read"])
                           (Sim.ready 3600000))))
              (world (Sim.after (getPrivateAppToken 42 ["read"])
                        (Sim.ready 3600000))))).
  - vm_compute. reflexivity.
  - vm_compute. reflexivity.
  - vm_compute. reflexivity.
  - vm_compute. reflexivity.
  - vm_compute. reflexivity.
Defined.

(** C1 fails as stated.  The record cached for app 42 carries ["read"]; a
    call requiring ["write"] sends the update endpoint ["write"] alone, not
    the union, and against a service that grants what it is asked for the
    cached record ends up without "read". *)
Lemma update_request_is_not_the_union_and_scopes_shrink :
  let h1 := Sim.after (getPrivateAppToken 42 ["read"]) (Sim.ready 3600000) in
  let h2 := Sim.after (getPrivateAppToken 42 ["write"]) h1 in
  scopeGroups <$> tokenMap (self h1) !! 42 = Some ["read"]
  ∧ apiCalls h2
    = apiCalls h1 ++ [CallFetch 7 42; CallUpdate 7 42 "token-0" ["write"]]
  ∧ scopeGroups <$> tokenMap (self h2) !! 42 = Some ["write"]
  ∧ doesTokenHaveAllScopes (tokenMap (self h2) !! 42) ["read"] = false.
Proof. vm_compute. repeat split; reflexivity. Qed.

(* ===================================================================== *)
(** ** The timer table                                                    *)
(* ===================================================================== *)

Section Timers.
Context `{Lang} {E : Type} `{Collaborators E}.

Lemma forEach_clearInterval ids : ∀ h : Heap E,
  forEach clearInterval ids h
  = (inr tt,
     setLive (foldl (λ live id, dropInterval id live) (liveIntervals h) ids)
             (nextTimeout h) h).
Proof.
  induction ids as [|id ids IH]; intros h.
  - destruct h; reflexivity.
  - cbn [forEach]. unfold Js.bind. unfold clearInterval at 1, Js.modify.
    rewrite IH. reflexivity.
Qed.

Lemma elem_of_dropped ids : ∀ (live : list (nat * Interval)) p,
  p ∈ foldl (λ live id, dropInterval id live) live ids →
  p ∈ live ∧ ¬ In p.1 ids.
Proof.
  induction ids as [|id ids IH]; intros live p Hp; cbn in *.
  - split; [done | tauto].
  - apply IH in Hp as [Hp Hnot].
    unfold dropInterval in Hp. apply list_elem_of_filter in Hp as [Hne Hp].
    split; [done|]. intros [->|?]; [done | tauto].
Qed.

(** What [cleanup] leaves behind. *)
Lemma cleanup_heap (h : Heap E) :
  cleanup h
  = (inr tt,
     {| self := {| accountId := accountId (self h); tokenMap := ∅;
                   tokenMapIntervalId := ∅; enabled := enabled (self h) |};
        liveIntervals :=
          foldl (λ live id, dropInterval id live) (liveIntervals h)
            (map snd (map_to_list (tokenMapIntervalId (self h))));
        nextTimeout := nextTimeout h;
        world := world h;
        apiCalls := apiCalls h;
        debugLog := debugLog h |}).
Proof.
  unfold cleanup. unfold Js.bind at 1. unfold readSelf at 1.
  unfold Js.bind at 1. rewrite forEach_clearInterval. reflexivity.
Qed.

(** Once [cleanup] has run, no interval the manager had on file is live. *)
Lemma cleanup_clears_registered (h : Heap E) :
  registered h → liveIntervals (snd (cleanup h)) = [].
Proof.
  intros Hreg. rewrite cleanup_heap. cbn.
  apply elem_of_nil_inv. intros [id cb] Hin.
  apply elem_of_dropped in Hin as [Hlive Hnot].
  apply Hnot. apply in_map_iff. exists (cbAppId cb, id). split; [done|].
  apply list_elem_of_In, elem_of_map_to_list. by apply Hreg.
Qed.

Lemma cleanup_registered (h : Heap E) :
  registered h → registered (snd (cleanup h)).
Proof.
  intros Hreg id cb Hin.
  rewrite cleanup_clears_registered in Hin by done.
  by apply elem_of_nil in Hin.
Qed.

(** Arming an app leaves exactly the new interval live for it. *)
Lemma setCacheAndRefresh_intervalsFor (h : Heap E) appId token requested :
  registered h →
  intervalsFor appId (snd (setCacheAndRefresh appId (JsVal token) requested h))
  = [(nextTimeout h,
      {| cbAppId := appId; cbUserTokenKey := userTokenKey token;
         cbScopeGroups := requested;
         delayMillis := refreshDelayMillis token (utcNow (world h)) |})].
Proof.
  intros Hreg. rewrite setCacheAndRefresh_val. unfold intervalsFor. cbn.
  rewrite filter_app, filter_cons_True, filter_nil by done.
  match goal with |- ?l ++ _ = _ => replace l with (@nil (nat * Interval)) end;
    [done|].
  symmetry. apply elem_of_nil_inv. intros [id cb] Hin.
  apply list_elem_of_filter in Hin as [Happ Hin]. cbn in Happ. subst appId.
  destruct (tokenMapIntervalId (self h) !! cbAppId cb) as [old|] eqn:Hold.
  - unfold dropInterval in Hin.
    apply list_elem_of_filter in Hin as [Hne Hin]. cbn in Hne.
    apply Hreg in Hin. congruence.
  - apply Hreg in Hin. congruence.
Qed.

Lemma setCacheAndRefresh_registered (h : Heap E) appId token requested :
  registered h →
  registered (snd (setCacheAndRefresh appId (JsVal token) requested h)).
Proof.
  intros Hreg id cb. rewrite setCacheAndRefresh_val. cbn.
  rewrite elem_of_app, list_elem_of_singleton. intros [Hin | Heq].
  - assert (Hlive : (id, cb) ∈ liveIntervals h).
    { destruct (tokenMapIntervalId (self h) !! appId); [|done].
      unfold dropInterval in Hin.
      by apply list_elem_of_filter in Hin as [_ Hin]. }
    destruct (decide (cbAppId cb = appId)) as [Heq|Hne].
    + exfalso. pose proof (Hreg _ _ Hlive) as Hold.
      rewrite Heq in Hold. rewrite Hold in Hin.
      unfold dropInterval in Hin.
      apply list_elem_of_filter in Hin as [Hdiff _]. done.
    + rewrite lookup_insert_ne by done. by apply Hreg.
  - inversion Heq; subst. cbn. apply lookup_insert_eq.
Qed.

Lemma armAll_registered appId arms : ∀ h : Heap E,
  registered h → registered (armAll appId arms h).
Proof.
  induction arms as [|[token requested] more IH]; intros h Hreg; cbn.
  - done.
  - apply IH. by apply setCacheAndRefresh_registered.
Qed.

Lemma armAll_snoc appId arms token requested : ∀ h : Heap E,
  armAll appId (arms ++ [(token, requested)]) h
  = snd (setCacheAndRefresh appId (JsVal token) requested
           (armAll appId arms h)).
Proof.
  induction arms as [|[t r] more IH]; intros h; cbn; [done|]. apply IH.
Qed.

(** C7: starting from a heap in which every live interval is on file, any
    number of consecutive arm operations for one app (at least one) leaves
    exactly one interval outstanding for it, namely the one armed last;
    each arm clears the interval on file before it sets the new one. *)
Theorem one_timer_per_app_after_arming (h : Heap E) appId arms token
    requested :
  registered h →
  let h' := armAll appId (arms ++ [(token, requested)]) h in
  outstanding appId h' = 1%nat
  ∧ registered h'
  ∧ ∃ id,
      tokenMapIntervalId (self h') !! appId = Some id
      ∧ intervalsFor appId h'
        = [(id, {| cbAppId := appId; cbUserTokenKey := userTokenKey token;
                   cbScopeGroups := requested;
                   delayMillis :=
                     refreshDelayMillis token
                       (utcNow (world (armAll appId arms h))) |})].
Proof.
  intros Hreg h'. subst h'. rewrite armAll_snoc.
  pose proof (armAll_registered appId arms h Hreg) as Hreg'.
  set (h1 := armAll appId arms h) in *.
  unfold outstanding.
  rewrite (setCacheAndRefresh_intervalsFor h1 appId token requested Hreg').
  split; [done|]. split; [by apply setCacheAndRefresh_registered|].
  exists (nextTimeout h1). split; [|done].
  rewrite setCacheAndRefresh_val. cbn. apply lookup_insert_eq.
Qed.
End Timers.

Lemma one_timer_per_app_after_arming_witness :
  let h := Sim.after (getPrivateAppToken 42 ["read"]) (Sim.ready 3600000) in
  let t1 := Sim.mint ["a"] (world h) in
  let t2 := Sim.mint ["b"] (world h) in
  let t3 := Sim.mint ["c"] (world h) in
  let h' := armAll 42 ([(t1, ["a"]); (t2, ["b"])] ++ [(t3, ["c"])]) h in
  outstanding 42 h' = 1%nat
  ∧ registered h'
  ∧ ∃ id,
      tokenMapIntervalId (self h') !! 42 = Some id
      ∧ intervalsFor 42 h'
        = [(id, {| cbAppId := 42; cbUserTokenKey := userTokenKey t3;
                   cbScopeGroups := ["c"];
                   delayMillis :=
                     refreshDelayMillis t3
                       (utcNow (world (armAll 42 [(t1, ["a"]); (t2, ["b"])]
                                         h))) |})].
Proof.
  apply (one_timer_per_app_after_arming
           (Sim.after (getPrivateAppToken 42 ["read"]) (Sim.ready 3600000))
           42).
  intros id cb Hin.
  vm_compute in Hin.
  apply list_elem_of_singleton in Hin. inversion Hin; subst.
  vm_compute. reflexivity.
Defined.

(* ===================================================================== *)
(** ** cleanup, and what still runs after it                              *)
(* ===================================================================== *)

Section Cleanup.
Context `{Lang} {E : Type} `{Collaborators E}.

(** [createOrGetActiveToken] talks to the network and the debug log only:
    the instance and the timer table are as before. *)
Lemma createOrGetActiveToken_frame (h : Heap E) appId requested :
  self (snd (createOrGetActiveToken appId requested h)) = self h
  ∧ liveIntervals (snd (createOrGetActiveToken appId requested h))
    = liveIntervals h
  ∧ nextTimeout (snd (createOrGetActiveToken appId requested h))
    = nextTimeout h.
Proof.
  unfold createOrGetActiveToken, getExistingToken. js_run.
  destruct (fetchPrivateAppUserToken _ _ _) as [[e|m] w]; cbn.
  - destruct (isAxiosError e && statusIs e 404); cbn; [|done].
    destruct (createPrivateAppUserToken _ _ _ _) as [r w']. done.
  - destruct m as [| |t]; cbn.
    + done.
    + destruct (createPrivateAppUserToken _ _ _ _) as [r w']. done.
    + destruct (_ || _); cbn; [|done].
      destruct (updatePrivateAppUserToken _ _ _ _ _) as [r w']. done.
Qed.

(** A successful uncached [getPrivateAppToken] leaves the token it
    answers with in the token map and a fresh interval armed for it. *)
Lemma getPrivateAppToken_miss_success (h : Heap E) appId requested key :
  enabled (self h) = true →
  doesTokenHaveAllScopes (tokenMap (self h) !! appId) requested = false →
  fst (getPrivateAppToken appId requested h) = inr (Some key) →
  ∃ token cb,
    userTokenKey token = key
    ∧ cbAppId cb = appId
    ∧ tokenMap (self (snd (getPrivateAppToken appId requested h))) !! appId
      = Some token
    ∧ tokenMapIntervalId (self (snd (getPrivateAppToken appId requested h)))
        !! appId = Some (nextTimeout h)
    ∧ (nextTimeout h, cb)
      ∈ liveIntervals (snd (getPrivateAppToken appId requested h)).
Proof.
  intros Hen Hmiss.
  pose proof (getPrivateAppToken_miss_body h appId requested Hen Hmiss)
    as Hbody.
  destruct (getPrivateAppToken appId requested h) as [result h2].
  cbn [fst snd]. intros ->.
  revert Hbody. unfold Js.tryCatch. unfold Js.bind at 1.
  destruct (createOrGetActiveToken_frame h appId requested)
    as (Hself & Hlive & Hnext).
  destruct (createOrGetActiveToken appId requested h) as [[e|token] h1];
    cbn [fst snd] in Hself, Hlive, Hnext.
  - destruct (wrapApiError_throws (A := option string) h1 appId e)
      as [err ->].
    discriminate.
  - unfold Js.bind at 1.
    destruct token as [| |t].
    + rewrite setCacheAndRefresh_missing by auto.
      destruct (wrapApiError_throws (A := option string) h1 appId
                  (PlainError
                     (i18n (i18nKey +:+ ".errors.refreshFailed")
                        [("accountId", VNum (accountId (self h1)));
                         ("appId", VNum appId)]) None)) as [err ->].
      discriminate.
    + rewrite setCacheAndRefresh_missing by auto.
      destruct (wrapApiError_throws (A := option string) h1 appId
                  (PlainError
                     (i18n (i18nKey +:+ ".errors.refreshFailed")
                        [("accountId", VNum (accountId (self h1)));
                         ("appId", VNum appId)]) None)) as [err ->].
      discriminate.
    + rewrite setCacheAndRefresh_val. unfold Js.ret.
      intros [= -> ->]. cbn [self tokenMap tokenMapIntervalId liveIntervals
                               withIntervalIds withTokenMap].
      eexists t, _. rewrite !lookup_insert_eq, Hnext.
      split; [reflexivity|]. split; [|split; [reflexivity|]].
      2:{ split; [reflexivity|].
          apply elem_of_app. right. apply list_elem_of_singleton.
          reflexivity. }
      reflexivity.
Qed.

(** C10: [cleanup] empties the token map and the interval map and clears
    the intervals that were on file; the enabled flag and the account id
    are as before.  An enabled manager is therefore still enabled after
    [cleanup], and its next [getPrivateAppToken] goes to the network
    (starting with a fetch); when that call answers with a token, the
    token is cached again and a new interval is armed for the app. *)
Theorem cleanup_leaves_manager_enabled (h : Heap E) appId requested :
  let '(finished, h1) := cleanup h in
  finished = inr tt
  ∧ enabled (self h1) = enabled (self h)
  ∧ accountId (self h1) = accountId (self h)
  ∧ tokenMap (self h1) = ∅
  ∧ tokenMapIntervalId (self h1) = ∅
  ∧ world h1 = world h
  ∧ apiCalls h1 = apiCalls h
  ∧ (enabled (self h) = true →
     isEnabled (self h1) = true
     ∧ let '(result, h2) := getPrivateAppToken appId requested h1 in
       (∃ rest,
          apiCalls h2
          = apiCalls h1 ++ CallFetch (accountId (self h)) appId :: rest)
       ∧ ∀ key, result = inr (Some key) →
           ∃ token cb,
             userTokenKey token = key
             ∧ cbAppId cb = appId
             ∧ tokenMap (self h2) !! appId = Some token
             ∧ tokenMapIntervalId (self h2) !! appId = Some (nextTimeout h1)
             ∧ (nextTimeout h1, cb) ∈ liveIntervals h2).
Proof.
  rewrite cleanup_heap.
  set (h1 := {| self := _ |}).
  repeat (split; [reflexivity|]).
  intros Hen. split; [exact Hen|].
  assert (Hen1 : enabled (self h1) = true) by exact Hen.
  assert (Hmiss :
    doesTokenHaveAllScopes (tokenMap (self h1) !! appId) requested = false).
  { cbn. rewrite lookup_empty. reflexivity. }
  pose proof (getPrivateAppToken_miss h1 appId requested Hen1 Hmiss) as Hnet.
  pose proof (getPrivateAppToken_miss_success h1 appId requested) as Hok.
  destruct (getPrivateAppToken appId requested h1) as [result h2].
  cbn [fst snd] in *. split; [exact Hnet|].
  intros key ->. apply Hok; done.
Qed.
End Cleanup.

Lemma cleanup_leaves_manager_enabled_witness :
  let h := Sim.after (getPrivateAppToken 42 ["read"]) (Sim.ready 3600000) in
  let '(finished, h1) := cleanup h in
  finished = inr tt
  ∧ enabled (self h1) = enabled (self h)
  ∧ accountId (self h1) = accountId (self h)
  ∧ tokenMap (self h1) = ∅
  ∧ tokenMapIntervalId (self h1) = ∅
  ∧ world h1 = world h
  ∧ apiCalls h1 = apiCalls h
  ∧ isEnabled (self h1) = true
  ∧ let '(result, h2) := getPrivateAppToken 42 ["read"] h1 in
    (∃ rest,
       apiCalls h2 = apiCalls h1 ++ CallFetch (accountId (self h)) 42 :: rest)
    ∧ ∀ key, result = inr (Some key) →
        ∃ token cb,
          userTokenKey token = key
          ∧ cbAppId cb = 42
          ∧ tokenMap (self h2) !! 42 = Some token
          ∧ tokenMapIntervalId (self h2) !! 42 = Some (nextTimeout h1)
          ∧ (nextTimeout h1, cb) ∈ liveIntervals h2.
Proof.
  pose proof (cleanup_leaves_manager_enabled
                (Sim.after (getPrivateAppToken 42 ["read"])
                   (Sim.ready 3600000)) 42 ["read"]) as Hthm.
  cbv zeta.
  destruct (cleanup _) as [finished h1].
  destruct Hthm as (H1 & H2 & H3 & H4 & H5 & H6 & H7 & H8).
  assert (Hen : enabled
                  (self (Sim.after (getPrivateAppToken 42 ["read"])
                           (Sim.ready 3600000))) = true)
    by (vm_compute; reflexivity).
  destruct (H8 Hen) as [H9 H10].
  repeat (split; [assumption|]). exact H10.
Defined.

(* ===================================================================== *)
(** ** The timer invariant over the life of a manager                     *)
(* ===================================================================== *)

Section Invariant.
Context `{Lang} {E : Type} `{Collaborators E}.

Lemma refreshToken_request_heap (h : Heap E) appId key requested :
  refreshToken_request appId key requested h
  = (fst (updatePrivateAppUserToken (accountId (self h)) appId key requested
            (world h)),
     setWorld
       (snd (updatePrivateAppUserToken (accountId (self h)) appId key
               requested (world h)))
       (CallUpdate (accountId (self h)) appId key requested)
       (addDebug (i18n (i18nKey +:+ ".refresh") [("appId", VNum appId)]) h)).
Proof.
  unfold refreshToken_request. js_run.
  destruct (updatePrivateAppUserToken _ _ _ _ _) as [r w]. reflexivity.
Qed.

(** [registered] looks at the interval map and the timer table only. *)
Lemma registered_frame (h h' : Heap E) :
  tokenMapIntervalId (self h') = tokenMapIntervalId (self h) →
  liveIntervals h' = liveIntervals h →
  registered h → registered h'.
Proof.
  intros Hmap Hlive Hreg id cb. rewrite Hmap, Hlive. apply Hreg.
Qed.

(** A new manager in a runtime without live intervals. *)
Lemma constructor_registered account next (w : E) calls log :
  registered {| self := constructor account; liveIntervals := [];
                nextTimeout := next; world := w; apiCalls := calls;
                debugLog := log |}.
Proof. intros id cb Hin. by apply elem_of_nil in Hin. Qed.

Lemma init_registered (h : Heap E) :
  registered h → registered (snd (init h)).
Proof.
  apply registered_frame; unfold init; js_run;
    destruct (scopeGroupsForPersonalAccessKey _ _) as [[e|granted] w]; cbn;
    try done; destruct (_ || _); done.
Qed.

Lemma getPrivateAppToken_registered (h : Heap E) appId requested :
  registered h → registered (snd (getPrivateAppToken appId requested h)).
Proof.
  intros Hreg.
  destruct (enabled (self h)) eqn:Hen.
  - destruct (doesTokenHaveAllScopes (tokenMap (self h) !! appId) requested)
      eqn:Hcov.
    + destruct (tokenMap (self h) !! appId) as [cached|] eqn:Hc; [|done].
      rewrite (getPrivateAppToken_hit h appId requested cached Hen Hc Hcov).
      exact Hreg.
    + rewrite getPrivateAppToken_miss_body by done.
      unfold Js.tryCatch. unfold Js.bind at 1.
      destruct (createOrGetActiveToken_frame h appId requested)
        as (Hself & Hlive & _).
      destruct (createOrGetActiveToken appId requested h) as [[e|token] h1];
        cbn [fst snd] in Hself, Hlive.
      * rewrite wrapApiError_heap.
        apply (registered_frame h); [by rewrite Hself|done|done].
      * assert (Hreg1 : registered h1)
          by (apply (registered_frame h); [by rewrite Hself|done|done]).
        unfold Js.bind at 1.
        destruct token as [| |t].
        -- rewrite setCacheAndRefresh_missing by auto.
           by rewrite wrapApiError_heap.
        -- rewrite setCacheAndRefresh_missing by auto.
           by rewrite wrapApiError_heap.
        -- pose proof (setCacheAndRefresh_registered h1 appId t requested
                         Hreg1) as Hreg2.
           destruct (setCacheAndRefresh appId (JsVal t) requested h1)
             as [[e|[]] h2]; cbn [fst snd] in Hreg2 |- *.
           ++ by rewrite wrapApiError_heap.
           ++ exact Hreg2.
  - rewrite getPrivateAppToken_disabled by done. exact Hreg.
Qed.

Lemma refreshToken_resume_registered (h : Heap E) appId requested response :
  registered h →
  registered (snd (refreshToken_resume appId requested response h)).
Proof.
  intros Hreg. unfold refreshToken_resume. unfold Js.bind, readSelf.
  destruct response as [| |t]; try exact Hreg.
  by apply setCacheAndRefresh_registered.
Qed.

Lemma refreshToken_registered (h : Heap E) appId key requested :
  registered h → registered (snd (refreshToken appId key requested h)).
Proof.
  intros Hreg. unfold refreshToken. unfold Js.bind at 1.
  rewrite refreshToken_request_heap.
  destruct (updatePrivateAppUserToken _ _ _ _ _) as [[e|response] w];
    cbn [fst snd].
  - exact Hreg.
  - apply refreshToken_resume_registered. exact Hreg.
Qed.

Lemma fireInterval_registered (h : Heap E) id :
  registered h → registered (snd (fireInterval id h)).
Proof.
  intros Hreg. unfold fireInterval.
  destruct (List.find _ _) as [[? cb]|]; [|exact Hreg].
  by apply refreshToken_registered.
Qed.
End Invariant.

(* ===================================================================== *)
(** ** The background refresh                                             *)
(* ===================================================================== *)

Section Refresh.
Context `{Lang} {E : Type} `{Collaborators E}.

(** C4, as the code has it: the manager keeps no shut-down flag.  When the
    response of a refresh that was in flight arrives after [cleanup], the
    rest of [refreshToken] puts the new token into the (emptied) token map
    and arms a new interval for the app. *)
Theorem refresh_completing_after_cleanup_writes_back (h : Heap E) appId key
    requested token w :
  updatePrivateAppUserToken (accountId (self h)) appId key requested
    (world h) = (inr (JsVal token), w) →
  let '(response, h1) := refreshToken_request appId key requested h in
  let '(finished, h2) := cleanup h1 in
  match response with
  | inr newToken =>
      let '(outcome, h3) := refreshToken_resume appId requested newToken h2 in
      finished = inr tt
      ∧ tokenMap (self h2) = ∅
      ∧ tokenMapIntervalId (self h2) = ∅
      ∧ outcome = inr tt
      ∧ tokenMap (self h3) !! appId = Some token
      ∧ tokenMapIntervalId (self h3) !! appId = Some (nextTimeout h)
      ∧ liveIntervals h3
        = liveIntervals h2
          ++ [(nextTimeout h,
               {| cbAppId := appId; cbUserTokenKey := userTokenKey token;
                  cbScopeGroups := requested;
                  delayMillis := refreshDelayMillis token (utcNow w) |})]
  | inl _ => False
  end.
Proof.
  intros Hupdate.
  rewrite refreshToken_request_heap, Hupdate. cbn [fst snd].
  rewrite cleanup_heap.
  unfold refreshToken_resume. unfold Js.bind at 1. unfold readSelf at 1.
  rewrite setCacheAndRefresh_val.
  cbn [self tokenMap tokenMapIntervalId liveIntervals nextTimeout world
         withIntervalIds withTokenMap setWorld addDebug].
  rewrite !lookup_insert_eq, lookup_empty.
  repeat split.
Qed.

(** C5, as the code has it: when the update endpoint rejects, or resolves
    without a token, [refreshToken] ends in a throw (the rejection itself,
    or the [refreshFailed] error) that nothing in the manager catches or
    logs; it has made exactly one update request, and the instance (token
    map, interval map, enabled flag) and the live intervals are as they
    were. *)
Theorem failed_refresh_throws_and_keeps_cache (h : Heap E) appId key
    requested outcome w :
  updatePrivateAppUserToken (accountId (self h)) appId key requested
    (world h) = (outcome, w) →
  (∀ token, outcome ≠ inr (JsVal token)) →
  let '(result, h') := refreshToken appId key requested h in
  result
  = inl (match outcome with
         | inl rejection => rejection
         | inr _ =>
             PlainError
               (i18n (i18nKey +:+ ".errors.refreshFailed")
                  [("accountId", VNum (accountId (self h)));
                   ("appId", VNum appId)]) None
         end)
  ∧ self h' = self h
  ∧ liveIntervals h' = liveIntervals h
  ∧ apiCalls h'
    = apiCalls h ++ [CallUpdate (accountId (self h)) appId key requested]
  ∧ debugLog h'
    = debugLog h ++ [i18n (i18nKey +:+ ".refresh") [("appId", VNum appId)]].
Proof.
  intros Hupdate Hfail.
  unfold refreshToken. unfold Js.bind at 1.
  rewrite refreshToken_request_heap, Hupdate. cbn [fst snd].
  destruct outcome as [rejection | [| |token]].
  - done.
  - done.
  - done.
  - by destruct (Hfail token).
Qed.
End Refresh.

Lemma refresh_completing_after_cleanup_writes_back_witness :
  let h := Sim.after (getPrivateAppToken 42 ["read"]) (Sim.ready 3600000) in
  let token := Sim.mint ["read"] (world h) in
  let '(response, h1) := refreshToken_request 42 "token-0" ["read"] h in
  let '(finished, h2) := cleanup h1 in
  match response with
  | inr newToken =>
      let '(outcome, h3) := refreshToken_resume 42 ["read"] newToken h2 in
      finished = inr tt
      ∧ tokenMap (self h2) = ∅
      ∧ tokenMapIntervalId (self h2) = ∅
      ∧ outcome = inr tt
      ∧ tokenMap (self h3) !! 42 = Some token
      ∧ tokenMapIntervalId (self h3) !! 42 = Some (nextTimeout h)
      ∧ liveIntervals h3
        = liveIntervals h2
          ++ [(nextTimeout h,
               {| cbAppId := 42; cbUserTokenKey := userTokenKey token;
                  cbScopeGroups := ["read"];
                  delayMillis :=
                    refreshDelayMillis token
                      (utcNow (Sim.store 42 token (world h))) |})]
  | inl _ => False
  end.
Proof.
  apply (refresh_completing_after_cleanup_writes_back
           (Sim.after (getPrivateAppToken 42 ["read"]) (Sim.ready 3600000))
           42 "token-0" ["read"]).
  vm_compute. reflexivity.
Defined.

(** C4 fails as stated.  The interval armed for app 42 fires and its update
    request is in flight; [cleanup] runs and empties both maps and the timer
    table; the response then arrives, and the continuation stores the token
    and arms an interval again. *)
Lemma refresh_in_flight_at_cleanup_still_mutates :
  let h := Sim.after (getPrivateAppToken 42 ["read"]) (Sim.ready 3600000) in
  let '(inFlight, h1) :=
    refreshToken_request 42 "token-0" ["read"] (Sim.drift 3300000 Sim.Up h) in
  let h2 := Sim.after cleanup h1 in
  match inFlight with
  | inr response =>
      let h3 := Sim.after (refreshToken_resume 42 ["read"] response) h2 in
      tokenMap (self h2) !! 42 = None
      ∧ outstanding 42 h2 = 0%nat
      ∧ userTokenKey <$> tokenMap (self h3) !! 42 = Some "token-1"
      ∧ outstanding 42 h3 = 1%nat
  | inl _ => False
  end.
Proof. vm_compute. repeat split; reflexivity. Qed.

Lemma failed_refresh_throws_and_keeps_cache_witness :
  let h := Sim.drift 3300000 Sim.Blank
             (Sim.after (getPrivateAppToken 42 ["read"]) (Sim.ready 3600000)) in
  let '(result, h') := refreshToken 42 "token-0" ["read"] h in
  result
  = inl (PlainError
           (i18n (i18nKey +:+ ".errors.refreshFailed")
              [("accountId", VNum (accountId (self h))); ("appId", VNum 42)])
           None)
  ∧ self h' = self h
  ∧ liveIntervals h' = liveIntervals h
  ∧ apiCalls h'
    = apiCalls h ++ [CallUpdate (accountId (self h)) 42 "token-0" ["read"]]
  ∧ debugLog h'
    = debugLog h ++ [i18n (i18nKey +:+ ".refresh") [("appId", VNum 42)]].
Proof.
  apply (failed_refresh_throws_and_keeps_cache
           (Sim.drift 3300000 Sim.Blank
              (Sim.after (getPrivateAppToken 42 ["read"])
                 (Sim.ready 3600000)))
           42 "token-0" ["read"] (inr JsUndefined)
           (world (Sim.drift 3300000 Sim.Blank
                     (Sim.after (getPrivateAppToken 42 ["read"])
                        (Sim.ready 3600000))))).
  - vm_compute. reflexivity.
  - intros token. discriminate.
Defined.

(** C5 fails as stated.  The armed interval fires while the service is down:
    the callback's promise is rejected with the endpoint's error (it is not
    swallowed), the debug log gains the "refresh" line only, and the
    interval stays live, so the runtime will run the callback again. *)
Lemma failed_refresh_is_not_swallowed :
  let h := Sim.drift 3300000 Sim.Down
             (Sim.after (getPrivateAppToken 42 ["read"]) (Sim.ready 3600000)) in
  let '(result, h') := fireInterval 0 h in
  result = inl (AxiosError (Some 503) "service unavailable")
  ∧ debugLog h' = debugLog h ++ ["lib.PrivateAppUserTokenManager.refresh"]
  ∧ tokenMap (self h') !! 42 = tokenMap (self h) !! 42
  ∧ outstanding 42 h' = 1%nat
  ∧ fst (fireInterval 0 h')
    = inl (AxiosError (Some 503) "service unavailable").
Proof. vm_compute. repeat split; reflexivity. Qed.

(* ===================================================================== *)
(** ** Resolving the account credential                                   *)
(* ===================================================================== *)

Section AccountCredential.
Context `{Lang} {Opts : Type} `{Http.Collaborators Opts}.

Lemma authTypeIs_false account literal :
  CLIConfiguration.authType account ≠ Some literal →
  Http.authTypeIs account literal = false.
Proof.
  intros Hne. unfold Http.authTypeIs.
  destruct (CLIConfiguration.authType account) as [t|]; [|done].
  apply String.eqb_neq. congruence.
Qed.

(** C8, as the code has it: [withAuth] throws a plain [Error] keyed
    [http.index.withAuth] when the account is not in the configuration, and
    one keyed [http.index.withOauth] when an "oauth2" account has no OAuth
    manager.  An account whose auth type is neither "personalaccesskey" nor
    "oauth2" (an unknown type, or none at all) is handled as an API-key
    account: the request options come back with the portal id and with the
    stored API key, or [undefined] when none is stored, as the [hapikey]
    query parameter. *)
Theorem withAuth_defaults_to_api_key
    (config : option CLIConfiguration.CLIConfig) (accountId : Z)
    (options : Opts) :
  (CLIConfiguration.getAccount config
     (Some (CLIConfiguration.ById accountId)) = None →
   Http.withAuth config accountId options
   = inl (PlainError
            (i18n "http.index.withAuth" [("accountId", VNum accountId)])
            None))
  ∧ (∀ account,
       CLIConfiguration.getAccount config
         (Some (CLIConfiguration.ById accountId)) = Some account →
       CLIConfiguration.authType account = Some "oauth2" →
       Http.getOauthManager accountId account = None →
       Http.withAuth config accountId options
       = inl (PlainError
                (i18n "http.index.withOauth" [("accountId", VNum accountId)])
                None))
  ∧ (∀ account,
       CLIConfiguration.getAccount config
         (Some (CLIConfiguration.ById accountId)) = Some account →
       CLIConfiguration.authType account ≠ Some "personalaccesskey" →
       CLIConfiguration.authType account ≠ Some "oauth2" →
       let base :=
         Http.getRequestOptions (CLIConfiguration.env account) options in
       Http.withAuth config accountId options
       = inr {| Http.headers := Http.headers base;
                Http.qs :=
                  <["hapikey" :=
                      Http.optionalString (CLIConfiguration.apiKey account)]>
                    (<["portalId" := VNum accountId]> (Http.qs base));
                Http.others := Http.others base |}).
Proof.
  unfold Http.withAuth. split; [|split].
  - intros ->. reflexivity.
  - intros account -> Hoauth Hnone.
    unfold Http.authTypeIs, Http.withOauth. rewrite Hoauth, Hnone.
    reflexivity.
  - intros account -> Hpak Hoauth. cbv zeta.
    rewrite (authTypeIs_false account _ Hpak),
            (authTypeIs_false account _ Hoauth).
    reflexivity.
Qed.
End AccountCredential.

Lemma withAuth_defaults_to_api_key_witness :
  Http.withAuth (Some Sim.config) 7 tt
  = inr {| Http.headers := ∅;
           Http.qs := <["hapikey" := VUndefined]>
                        (<["portalId" := VNum 7]> ∅);
           Http.others := [("env", VStr "prod")] |}.
Proof.
  refine (proj2 (proj2 (withAuth_defaults_to_api_key (Some Sim.config) 7 tt))
            {| CLIConfiguration.name := Some "sso";
               CLIConfiguration.accountId := 7;
               CLIConfiguration.env := Some "prod";
               CLIConfiguration.authType := Some "saml";
               CLIConfiguration.apiKey := None |} _ _ _).
  - vm_compute. reflexivity.
  - discriminate.
  - discriminate.
Defined.

(** C8 fails as stated.  Account 7 is configured with the auth type "saml",
    which is none of the three strategies, and stores no API key; [withAuth]
    does not fail: it returns request options without an [Authorization]
    header and with [hapikey] set to [undefined]. *)
Lemma unrecognized_auth_type_is_not_rejected :
  CLIConfiguration.authType
    <$> CLIConfiguration.getAccount (Some Sim.config)
          (Some (CLIConfiguration.ById 7))
  = Some (Some "saml")
  ∧ CLIConfiguration.apiKey
      <$> CLIConfiguration.getAccount (Some Sim.config)
            (Some (CLIConfiguration.ById 7))
    = Some None
  ∧ match Http.withAuth (Some Sim.config) 7 tt with
    | inr requestOptions =>
        Http.qs requestOptions !! "hapikey" = Some VUndefined
        ∧ Http.headers requestOptions !! "Authorization" = None
    | inl _ => False
    end.
Proof. vm_compute. repeat split; reflexivity. Qed.

(* ===================================================================== *)
(** ** Token map, interval map and timer table stay in step               *)
(* ===================================================================== *)

Section InSync.
Context `{Lang} {E : Type} `{Collaborators E}.

Lemma sameTimers_refl (h : Heap E) : sameTimers h h.
Proof. by repeat split. Qed.

Lemma sameTimers_trans (h1 h2 h3 : Heap E) :
  sameTimers h1 h2 → sameTimers h2 h3 → sameTimers h1 h3.
Proof.
  intros (A1 & A2 & A3 & A4) (B1 & B2 & B3 & B4).
  repeat split; congruence.
Qed.

Lemma inSync_frame (h h' : Heap E) :
  sameTimers h h' → inSync h → inSync h'.
Proof.
  intros (Htok & Hmap & Hlive & Hnext) (Hreg & Hnd & Hlt & Hfile & Hdom).
  unfold inSync. rewrite Htok, Hmap, Hlive, Hnext.
  repeat split; try done.
  - intros id cb. rewrite Hmap, Hlive. apply Hreg.
  - apply Hdom.
  - apply Hdom.
Qed.

Lemma inSync_newborn account (w : E) : inSync (newborn account w).
Proof.
  split; [|split; [|split; [|split]]]; cbn.
  - intros id cb Hin. by apply elem_of_nil in Hin.
  - constructor.
  - intros p Hin. by apply elem_of_nil in Hin.
  - intros appId id. by rewrite lookup_empty.
  - intros appId. rewrite !lookup_empty. done.
Qed.

Lemma dropInterval_fst id (live : list (nat * Interval)) p :
  p ∈ dropInterval id live ↔ p.1 ≠ id ∧ p ∈ live.
Proof. exact (list_elem_of_filter (λ q, q.1 ≠ id) live p). Qed.

Lemma NoDup_fst_filter (P : nat * Interval → Prop) `{∀ p, Decision (P p)}
    (live : list (nat * Interval)) :
  NoDup (map fst live) → NoDup (map fst (filter P live)).
Proof.
  induction live as [|p live IH]; [done|].
  cbn [map]. rewrite NoDup_cons. intros [Hnotin Hnd].
  rewrite filter_cons. destruct (decide (P p)); [|by apply IH].
  cbn [map]. apply NoDup_cons. split; [|by apply IH].
  intros Hin. apply Hnotin.
  apply list_elem_of_In, in_map_iff in Hin as (q & Hq & Hin).
  apply list_elem_of_In, in_map_iff. exists q. split; [done|].
  apply list_elem_of_In in Hin. apply list_elem_of_filter in Hin as [_ Hin].
  by apply list_elem_of_In.
Qed.

Lemma NoDup_fst_same_handle (live : list (nat * Interval)) id cb cb' :
  NoDup (map fst live) → (id, cb) ∈ live → (id, cb') ∈ live → cb = cb'.
Proof.
  induction live as [|p live IH]; cbn.
  - intros _ Hin. by apply elem_of_nil in Hin.
  - rewrite NoDup_cons. intros [Hnotin Hnd].
    rewrite !elem_of_cons. intros [<-|Hin] [Heq|Hin'].
    + by inversion Heq.
    + exfalso. apply Hnotin. cbn.
      apply list_elem_of_In, in_map_iff. exists (id, cb').
      split; [done|]. by apply list_elem_of_In.
    + exfalso. apply Hnotin. subst p. cbn.
      apply list_elem_of_In, in_map_iff. exists (id, cb).
      split; [done|]. by apply list_elem_of_In.
    + by apply IH.
Qed.

(** Arming keeps the three structures in step. *)
Lemma inSync_arm (h : Heap E) appId token requested :
  inSync h →
  inSync (snd (setCacheAndRefresh appId (JsVal token) requested h)).
Proof.
  intros (Hreg & Hnd & Hlt & Hfile & Hdom).
  split; [by apply setCacheAndRefresh_registered|].
  rewrite setCacheAndRefresh_val. cbn.
  set (base := match tokenMapIntervalId (self h) !! appId with
               | Some id => dropInterval id (liveIntervals h)
               | None => liveIntervals h
               end).
  assert (Hbase : ∀ p, p ∈ base → p ∈ liveIntervals h).
  { intros p. subst base.
    destruct (tokenMapIntervalId (self h) !! appId); [|done].
    rewrite dropInterval_fst. tauto. }
  assert (Hbase_nd : NoDup (map fst base)).
  { subst base. destruct (tokenMapIntervalId (self h) !! appId); [|done].
    unfold dropInterval. by apply NoDup_fst_filter. }
  split; [|split; [|split]].
  - rewrite map_app. cbn. apply NoDup_app. split; [done|]. split.
    + intros id Hin Hnew. apply list_elem_of_singleton in Hnew. subst id.
      apply list_elem_of_In, in_map_iff in Hin as (p & Hp & Hin).
      apply list_elem_of_In, Hbase, Hlt in Hin. lia.
    + apply NoDup_singleton.
  - intros p. rewrite elem_of_app, list_elem_of_singleton.
    intros [Hin | ->]; cbn; [|lia].
    apply Hbase, Hlt in Hin. lia.
  - intros app id. rewrite lookup_insert.
    destruct (decide (appId = app)) as [<-|Hne].
    + intros [= <-]. eexists. split.
      * apply elem_of_app. right. apply list_elem_of_singleton. reflexivity.
      * reflexivity.
    + intros Hon.
      destruct (Hfile app id Hon) as (cb & Hin & Happ).
      exists cb. split; [|done]. apply elem_of_app. left.
      subst base.
      destruct (tokenMapIntervalId (self h) !! appId) as [old|] eqn:Hold;
        [|done].
      apply dropInterval_fst. split; [|done]. cbn. intros ->.
      destruct (Hfile appId old Hold) as (cb0 & Hin0 & Happ0).
      pose proof (NoDup_fst_same_handle _ _ _ _ Hnd Hin Hin0). subst cb0.
      congruence.
  - intros app. rewrite !lookup_insert.
    destruct (decide (appId = app)); [|apply Hdom].
    split; eauto.
Qed.

Lemma inSync_cleanup (h : Heap E) : inSync h → inSync (snd (cleanup h)).
Proof.
  intros Hsync. pose proof Hsync as (Hreg & _).
  pose proof (cleanup_clears_registered h Hreg) as Hnone.
  split; [by apply cleanup_registered|].
  rewrite Hnone. rewrite cleanup_heap. cbn.
  split; [constructor|]. split; [|split].
  - intros p Hin. by apply elem_of_nil in Hin.
  - intros appId id. by rewrite lookup_empty.
  - intros appId. rewrite !lookup_empty. done.
Qed.

Lemma init_sameTimers (h : Heap E) : sameTimers h (snd (init h)).
Proof.
  unfold sameTimers, init. js_run.
  destruct (scopeGroupsForPersonalAccessKey _ _) as [[e|granted] w]; cbn;
    [done|].
  destruct (_ || _); done.
Qed.

Lemma getPrivateAppToken_atMostOneArm (h : Heap E) appId requested :
  atMostOneArm h (snd (getPrivateAppToken appId requested h)).
Proof.
  destruct (enabled (self h)) eqn:Hen.
  - destruct (doesTokenHaveAllScopes (tokenMap (self h) !! appId) requested)
      eqn:Hcov.
    + destruct (tokenMap (self h) !! appId) as [cached|] eqn:Hc; [|done].
      rewrite (getPrivateAppToken_hit h appId requested cached Hen Hc Hcov).
      left. by repeat split.
    + rewrite getPrivateAppToken_miss_body by done.
      unfold Js.tryCatch. unfold Js.bind at 1.
      destruct (createOrGetActiveToken_frame h appId requested)
        as (Hself & Hlive & Hnext).
      destruct (createOrGetActiveToken appId requested h) as [[e|token] h1];
        cbn [fst snd] in Hself, Hlive, Hnext.
      * rewrite wrapApiError_heap. left.
        unfold sameTimers. by rewrite Hself.
      * assert (Hsame : sameTimers h h1)
          by (unfold sameTimers; by rewrite Hself).
        unfold Js.bind at 1.
        destruct token as [| |t].
        -- rewrite setCacheAndRefresh_missing by auto.
           rewrite wrapApiError_heap. by left.
        -- rewrite setCacheAndRefresh_missing by auto.
           rewrite wrapApiError_heap. by left.
        -- right. exists h1, appId, t, requested. split; [done|].
           rewrite setCacheAndRefresh_val. reflexivity.
  - rewrite getPrivateAppToken_disabled by done. left. by repeat split.
Qed.

Lemma refreshToken_resume_atMostOneArm (h : Heap E) appId requested response :
  atMostOneArm h (snd (refreshToken_resume appId requested response h)).
Proof.
  unfold refreshToken_resume. unfold Js.bind, readSelf.
  destruct response as [| |t]; try (left; apply sameTimers_refl).
  right. exists h, appId, t, requested. split; [apply sameTimers_refl|done].
Qed.

Lemma fireInterval_atMostOneArm (h : Heap E) id :
  atMostOneArm h (snd (fireInterval id h)).
Proof.
  unfold fireInterval.
  destruct (List.find _ _) as [[? cb]|]; [|left; apply sameTimers_refl].
  unfold refreshToken. unfold Js.bind at 1.
  rewrite refreshToken_request_heap.
  set (h1 := setWorld _ _ _).
  assert (Hsame : sameTimers h h1) by (by repeat split).
  destruct (updatePrivateAppUserToken _ _ _ _ _) as [[e|response] w];
    cbn [fst snd]; [by left|].
  destruct (refreshToken_resume_atMostOneArm h1 (cbAppId cb)
              (cbScopeGroups cb) response)
    as [Hsame' | (h2 & appId & t & requested & Hsame' & ->)].
  - left. by eapply sameTimers_trans.
  - right. exists h2, appId, t, requested. split; [|done].
    by eapply sameTimers_trans.
Qed.

Lemma inSync_atMostOneArm (h h' : Heap E) :
  atMostOneArm h h' → inSync h → inSync h'.
Proof.
  intros [Hsame | (h1 & appId & t & requested & Hsame & ->)] Hsync.
  - by eapply inSync_frame.
  - apply inSync_arm. by eapply inSync_frame.
Qed.

Lemma inSync_happen (ev : Event E) (h : Heap E) :
  inSync h → inSync (happen ev h).
Proof.
  destruct ev as [|appId requested| |id|appId requested response|w]; cbn.
  - apply inSync_frame, init_sameTimers.
  - apply inSync_atMostOneArm, getPrivateAppToken_atMostOneArm.
  - apply inSync_cleanup.
  - apply inSync_atMostOneArm, fireInterval_atMostOneArm.
  - apply inSync_atMostOneArm, refreshToken_resume_atMostOneArm.
  - apply inSync_frame. by repeat split.
Qed.

Lemma inSync_history (events : list (Event E)) : ∀ h : Heap E,
  inSync h → inSync (history events h).
Proof.
  induction events as [|ev events IH]; intros h Hsync; cbn; [done|].
  apply IH. by apply inSync_happen.
Qed.

Lemma inSync_outstanding (h : Heap E) appId :
  inSync h →
  outstanding appId h = if has (tokenMap (self h)) appId then 1%nat else 0%nat.
Proof.
  intros (Hreg & Hnd & Hlt & Hfile & Hdom).
  unfold outstanding, intervalsFor, has.
  pose proof (NoDup_fst_filter (λ p, cbAppId p.2 = appId) _ Hnd) as Hnd'.
  assert (Hall : ∀ p, p ∈ filter (λ p, cbAppId p.2 = appId) (liveIntervals h) →
                      tokenMapIntervalId (self h) !! appId = Some p.1).
  { intros [id cb] Hin. apply list_elem_of_filter in Hin as [<- Hin].
    by apply Hreg. }
  destruct (tokenMap (self h) !! appId) as [cached|] eqn:Hc.
  - destruct (proj1 (Hdom appId)) as [id Hid]; [by rewrite Hc|].
    destruct (Hfile appId id Hid) as (cb & Hin & Happ).
    assert (Hin' : (id, cb) ∈ filter (λ p, cbAppId p.2 = appId)
                                (liveIntervals h))
      by (by apply list_elem_of_filter).
    destruct (filter _ _) as [|p [|q rest]].
    + by apply elem_of_nil in Hin'.
    + done.
    + exfalso.
      pose proof (Hall p ltac:(left)) as Hp.
      pose proof (Hall q ltac:(right; left)) as Hq.
      cbn in Hnd'. apply NoDup_cons in Hnd' as [Hnotin _].
      apply Hnotin. replace (p.1) with (q.1) by congruence. left.
  - destruct (filter _ _) as [|p rest]; [done|].
    exfalso. pose proof (Hall p ltac:(left)) as Hp.
    assert (is_Some (tokenMap (self h) !! appId)) as [? ?]
      by (apply Hdom; eauto).
    congruence.
Qed.

(** X1: whatever sequence of events a new manager lives through (calls of
    [init], [getPrivateAppToken] and [cleanup], timer firings, refresh
    responses arriving at any moment, the world changing), every app has
    exactly one live interval when a token is cached for it and none
    otherwise. *)
Theorem one_interval_per_cached_app (account : Z) (w : E)
    (events : list (Event E)) (appId : Z) :
  let h := history events (newborn account w) in
  outstanding appId h
  = if has (tokenMap (self h)) appId then 1%nat else 0%nat.
Proof.
  intros h. apply inSync_outstanding.
  apply inSync_history, inSync_newborn.
Qed.
End InSync.

(* ===================================================================== *)
(** ** More about the token manager                                       *)
(* ===================================================================== *)

Section ManagerFacts.
Context `{Lang} {E : Type} `{Collaborators E}.

Lemma includes_elem_of (l : list string) (s : string) :
  includes l s = true ↔ s ∈ l.
Proof.
  unfold includes. rewrite existsb_exists. split.
  - intros (x & Hin & Heq). apply String.eqb_eq in Heq. subst x.
    by apply list_elem_of_In.
  - intros Hin. exists s. split; [by apply list_elem_of_In|].
    apply String.eqb_refl.
Qed.

(** X2: a token covers a request exactly when every requested scope is
    among the token's scope groups (order and repetition do not matter);
    a missing token covers nothing, not even the empty request. *)
Theorem doesTokenHaveAllScopes_iff_included
    (token : PrivateAppUserTokenResponse) (requested : list string) :
  (doesTokenHaveAllScopes (Some token) requested = true
   ↔ ∀ scope, scope ∈ requested → scope ∈ scopeGroups token)
  ∧ doesTokenHaveAllScopes None requested = false.
Proof.
  split; [|reflexivity]. cbn. rewrite forallb_forall. split.
  - intros Hall scope Hin. apply includes_elem_of, Hall.
    by apply list_elem_of_In.
  - intros Hall scope Hin. apply includes_elem_of, Hall.
    by apply list_elem_of_In.
Qed.

(** X3: [init] turns the enabled flag on exactly when the scope lookup
    succeeds and grants both token-management scopes, and it resolves
    exactly then; it never turns the flag off, makes one scope lookup, and
    leaves the token map, the interval map and the timer table alone. *)
Theorem init_enables_exactly_with_both_scopes (h : Heap E) outcome w :
  scopeGroupsForPersonalAccessKey (accountId (self h)) (world h)
  = (outcome, w) →
  let granted_both :=
    match outcome with
    | inr granted =>
        includes granted USER_TOKEN_READ && includes granted USER_TOKEN_WRITE
    | inl _ => false
    end in
  let '(result, h') := init h in
  (result = inr tt ↔ granted_both = true)
  ∧ isEnabled (self h') = isEnabled (self h) || granted_both
  ∧ accountId (self h') = accountId (self h)
  ∧ sameTimers h h'
  ∧ apiCalls h' = apiCalls h ++ [CallScopeGroups (accountId (self h))]
  ∧ world h' = w.
Proof.
  intros Hlookup. unfold init, isEnabled. js_run. rewrite Hlookup. cbn.
  destruct outcome as [rejection|granted]; cbn.
  - rewrite orb_false_r. repeat split; done.
  - rewrite <- negb_andb.
    destruct (includes granted USER_TOKEN_READ
              && includes granted USER_TOKEN_WRITE); cbn.
    + rewrite orb_true_r. repeat split; done.
    + rewrite orb_false_r. repeat split; done.
Qed.

(** X4: [cleanup] is idempotent, and once it has run on a manager that
    has lived through any sequence of events, no interval is live: whatever
    handle the runtime might still try to fire, nothing runs and no
    endpoint is invoked. *)
Theorem cleanup_is_idempotent_and_silences_timers (account : Z) (w : E)
    (events : list (Event E)) (id : nat) :
  let h := history events (newborn account w) in
  let h1 := snd (cleanup h) in
  cleanup h1 = (inr tt, h1)
  ∧ liveIntervals h1 = []
  ∧ fireInterval id h1 = (inr tt, h1).
Proof.
  intros h h1.
  assert (Hreg : registered h).
  { apply (inSync_history events (newborn account w)), inSync_newborn. }
  pose proof (cleanup_clears_registered h Hreg) as Hnone.
  fold h1 in Hnone.
  assert (Htokens : tokenMap (self h1) = ∅)
    by (subst h1; by rewrite cleanup_heap).
  assert (Hids : tokenMapIntervalId (self h1) = ∅)
    by (subst h1; by rewrite cleanup_heap).
  clearbody h1.
  split; [|split; [done|]].
  - rewrite (cleanup_heap h1), Hnone, Hids, map_to_list_empty.
    destruct h1 as [[a tokens ids en] live next wd calls log].
    cbn in *. by subst.
  - unfold fireInterval. rewrite Hnone. reflexivity.
Qed.

(** X5: an existing remote token that still has more than five minutes to
    live and covers the request is adopted as it is: the only endpoint
    invoked is the fetch, the token is cached and an interval armed, and
    asking again for the same scopes is answered from the cache with no
    endpoint invoked. *)
Theorem valid_remote_token_is_adopted (h : Heap E) appId requested
    existing w1 :
  enabled (self h) = true →
  doesTokenHaveAllScopes (tokenMap (self h) !! appId) requested = false →
  fetchPrivateAppUserToken (accountId (self h)) appId (world h)
  = (inr (JsVal existing), w1) →
  (utcNow w1 + FIVE_MINUTES ≤ expiresAt existing)%Z →
  doesTokenHaveAllScopes (Some existing) requested = true →
  let '(result, h') := getPrivateAppToken appId requested h in
  let '(again, h'') := getPrivateAppToken appId requested h' in
  result = inr (Some (userTokenKey existing))
  ∧ apiCalls h' = apiCalls h ++ [CallFetch (accountId (self h)) appId]
  ∧ tokenMap (self h') !! appId = Some existing
  ∧ tokenMapIntervalId (self h') !! appId = Some (nextTimeout h)
  ∧ again = inr (Some (userTokenKey existing))
  ∧ apiCalls h'' = apiCalls h'.
Proof.
  intros Hen Hmiss Hfetch Hfresh Hcov.
  rewrite getPrivateAppToken_miss_body by done.
  unfold Js.tryCatch. unfold Js.bind at 1.
  assert (Hadopt :
    createOrGetActiveToken appId requested h
    = (inr (JsVal existing),
       setWorld w1 (CallFetch (accountId (self h)) appId) h)).
  { unfold createOrGetActiveToken, getExistingToken. js_run.
    rewrite Hfetch. cbn. cbn in Hcov. rewrite Hcov.
    replace (expiresAt existing <? utcNow w1 + FIVE_MINUTES)%Z with false
      by (symmetry; apply Z.ltb_ge; lia).
    reflexivity. }
  rewrite Hadopt. unfold Js.bind at 1. rewrite setCacheAndRefresh_val.
  cbn [fst snd Js.ret].
  match goal with |- context [getPrivateAppToken appId requested ?h1] =>
    rewrite (getPrivateAppToken_hit h1 appId requested existing)
  end.
  - cbn. rewrite !lookup_insert_eq. done.
  - exact Hen.
  - cbn. apply lookup_insert_eq.
  - exact Hcov.
Qed.

Lemma wrapApiError_value {A} (h : Heap E) appId err :
  wrapApiError (A := A) appId err h
  = (inl (PlainError
            (i18n (i18nKey +:+ ".errors.apiError")
               [("accountId", VNum (accountId (self h)));
                ("appId", VNum appId);
                ("messageDetail",
                 VStr (if isAxiosError err
                       then axiosErrorWithContextMessage err
                       else match err with
                            | PlainError m _ => m
                            | _ => "Unknown error"
                            end))])
            (if isAxiosError err then None
             else if truthyError err then Some err else None)), h).
Proof.
  unfold wrapApiError. js_run.
  destruct (isAxiosError err); cbn; [done|].
  destruct (truthyError err); done.
Qed.

(** X6: when [getPrivateAppToken] throws, what it throws is always the
    [apiError] message carrying the account id, the app id and a detail
    string, and the instance and the timer table are exactly as before the
    call: a failed call caches nothing and arms nothing. *)
Theorem getPrivateAppToken_failure_is_wrapped_and_atomic (h : Heap E) appId
    requested thrown :
  fst (getPrivateAppToken appId requested h) = inl thrown →
  (∃ detail cause,
     thrown
     = PlainError
         (i18n (i18nKey +:+ ".errors.apiError")
            [("accountId", VNum (accountId (self h))); ("appId", VNum appId);
             ("messageDetail", VStr detail)]) cause)
  ∧ self (snd (getPrivateAppToken appId requested h)) = self h
  ∧ liveIntervals (snd (getPrivateAppToken appId requested h))
    = liveIntervals h
  ∧ nextTimeout (snd (getPrivateAppToken appId requested h)) = nextTimeout h.
Proof.
  destruct (enabled (self h)) eqn:Hen.
  - destruct (doesTokenHaveAllScopes (tokenMap (self h) !! appId) requested)
      eqn:Hcov.
    + destruct (tokenMap (self h) !! appId) as [cached|] eqn:Hc; [|done].
      rewrite (getPrivateAppToken_hit h appId requested cached Hen Hc Hcov).
      discriminate.
    + pose proof (getPrivateAppToken_miss_body h appId requested Hen Hcov)
        as Hbody.
      destruct (getPrivateAppToken appId requested h) as [result h2].
      cbn [fst snd]. intros ->.
      revert Hbody. unfold Js.tryCatch. unfold Js.bind at 1.
      destruct (createOrGetActiveToken_frame h appId requested)
        as (Hself & Hlive & Hnext).
      destruct (createOrGetActiveToken appId requested h) as [[e|token] h1];
        cbn [fst snd] in Hself, Hlive, Hnext.
      * rewrite wrapApiError_value, Hself. intros [= -> ->]. eauto 10.
      * unfold Js.bind at 1.
        destruct token as [| |t].
        -- rewrite setCacheAndRefresh_missing by auto.
           rewrite wrapApiError_value, Hself. intros [= -> ->]. eauto 10.
        -- rewrite setCacheAndRefresh_missing by auto.
           rewrite wrapApiError_value, Hself. intros [= -> ->]. eauto 10.
        -- rewrite setCacheAndRefresh_val. discriminate.
  - rewrite getPrivateAppToken_disabled by done. discriminate.
Qed.
End ManagerFacts.

Section ManagerTraffic.
Context `{Lang} {E : Type} `{Collaborators E}.

Lemma getPrivateAppToken_miss_calls (h : Heap E) appId requested :
  enabled (self h) = true →
  doesTokenHaveAllScopes (tokenMap (self h) !! appId) requested = false →
  apiCalls (snd (getPrivateAppToken appId requested h))
  = apiCalls (snd (createOrGetActiveToken appId requested h)).
Proof.
  intros Hen Hmiss. rewrite getPrivateAppToken_miss_body by done.
  unfold Js.tryCatch. unfold Js.bind at 1.
  destruct (createOrGetActiveToken appId requested h) as [[e|token] h1];
    cbn [fst snd].
  - by rewrite wrapApiError_heap.
  - unfold Js.bind at 1.
    destruct (setCacheAndRefresh_calls h1 appId token requested) as [Hc _].
    destruct (setCacheAndRefresh appId token requested h1) as [[e|[]] h2];
      cbn [fst snd] in Hc |- *.
    + by rewrite wrapApiError_heap.
    + by destruct token.
Qed.

(** X7: what the network sees of a call the cache cannot answer is fixed
    by the outcome of the fetch.  A 404 (or a [null] answer) is followed by
    one create request; a token that expires within five minutes or lacks a
    required scope is followed by one update request presenting that
    token's key; in every other case (a usable token, any other failure)
    the fetch is the only request.  Create and update are never both
    issued, and never without the fetch before them. *)
Theorem uncached_call_traffic (h : Heap E) appId requested :
  enabled (self h) = true →
  doesTokenHaveAllScopes (tokenMap (self h) !! appId) requested = false →
  let account := accountId (self h) in
  let '(fetched, w1) := fetchPrivateAppUserToken account appId (world h) in
  apiCalls (snd (getPrivateAppToken appId requested h))
  = apiCalls h
    ++ CallFetch account appId
       :: match fetched with
          | inl err =>
              if isAxiosError err && statusIs err 404
              then [CallCreate account appId requested]
              else []
          | inr JsNull => [CallCreate account appId requested]
          | inr JsUndefined => []
          | inr (JsVal existing) =>
              if (expiresAt existing <? utcNow w1 + FIVE_MINUTES)%Z
                 || negb (doesTokenHaveAllScopes (Some existing) requested)
              then [CallUpdate account appId (userTokenKey existing)
                      requested]
              else []
          end.
Proof.
  intros Hen Hmiss account.
  rewrite getPrivateAppToken_miss_calls by done.
  unfold createOrGetActiveToken, getExistingToken. js_run. fold account.
  destruct (fetchPrivateAppUserToken account appId (world h))
    as [[err|[| |existing]] w1]; cbn.
  - destruct (isAxiosError err && statusIs err 404); cbn; [|done].
    destruct (createPrivateAppUserToken _ _ _ _) as [r w2]. cbn.
    by rewrite <- app_assoc.
  - done.
  - destruct (createPrivateAppUserToken _ _ _ _) as [r w2]. cbn.
    by rewrite <- app_assoc.
  - destruct (_ || _); cbn; [|done].
    destruct (updatePrivateAppUserToken _ _ _ _ _) as [r w2]. cbn.
    by rewrite <- app_assoc.
Qed.

(** X8: a background refresh that gets a token back makes exactly one
    update request (no fetch), replaces the cached record of its app by the
    new token and leaves every other app's record alone; the interval it
    arms carries the new token's key and the same scopes, so the next
    refresh presents the key this one obtained, and it is due at
    [max(now, expiresAt - 5 minutes)]. *)
Theorem successful_refresh_replaces_and_rearms (h : Heap E) appId key
    requested token w :
  updatePrivateAppUserToken (accountId (self h)) appId key requested
    (world h) = (inr (JsVal token), w) →
  let '(result, h') := refreshToken appId key requested h in
  result = inr tt
  ∧ apiCalls h'
    = apiCalls h ++ [CallUpdate (accountId (self h)) appId key requested]
  ∧ tokenMap (self h') !! appId = Some token
  ∧ (∀ other, other ≠ appId →
       tokenMap (self h') !! other = tokenMap (self h) !! other)
  ∧ ∃ delay,
      last (liveIntervals h')
      = Some (nextTimeout h,
              {| cbAppId := appId; cbUserTokenKey := userTokenKey token;
                 cbScopeGroups := requested; delayMillis := delay |})
      ∧ (0 ≤ delay)%Z
      ∧ (utcNow w + delay
         = Z.max (utcNow w) (expiresAt token - 5 * 60 * 1000))%Z.
Proof.
  intros Hupdate.
  unfold refreshToken. unfold Js.bind at 1.
  rewrite refreshToken_request_heap, Hupdate. cbn [fst snd].
  unfold refreshToken_resume. unfold Js.bind at 1. unfold readSelf at 1.
  rewrite setCacheAndRefresh_val.
  cbn [self tokenMap tokenMapIntervalId liveIntervals nextTimeout world
         apiCalls withIntervalIds withTokenMap setWorld addDebug].
  rewrite lookup_insert_eq.
  split; [done|]. split; [done|]. split; [done|]. split.
  - intros other Hne. by rewrite lookup_insert_ne.
  - eexists. rewrite last_snoc. split; [reflexivity|].
    unfold refreshDelayMillis, FIVE_MINUTES. lia.
Qed.

(** The maps and the timer table after [getPrivateAppToken]: as before, or
    armed once for the app that was asked for. *)
Lemma getPrivateAppToken_shape (h : Heap E) appId requested :
  sameTimers h (snd (getPrivateAppToken appId requested h))
  ∨ ∃ h1 token,
      sameTimers h h1
      ∧ snd (getPrivateAppToken appId requested h)
        = snd (setCacheAndRefresh appId (JsVal token) requested h1).
Proof.
  destruct (enabled (self h)) eqn:Hen.
  - destruct (doesTokenHaveAllScopes (tokenMap (self h) !! appId) requested)
      eqn:Hcov.
    + destruct (tokenMap (self h) !! appId) as [cached|] eqn:Hc; [|done].
      rewrite (getPrivateAppToken_hit h appId requested cached Hen Hc Hcov).
      left. by repeat split.
    + pose proof (getPrivateAppToken_miss_body h appId requested Hen Hcov)
        as Hbody.
      destruct (getPrivateAppToken appId requested h) as [result h2].
      cbn [fst snd].
      revert Hbody. unfold Js.tryCatch. unfold Js.bind at 1.
      destruct (createOrGetActiveToken_frame h appId requested)
        as (Hself & Hlive & Hnext).
      destruct (createOrGetActiveToken appId requested h) as [[e|token] h1];
        cbn [fst snd] in Hself, Hlive, Hnext.
      * rewrite wrapApiError_value. intros [= -> ->].
        left. unfold sameTimers. by rewrite Hself.
      * assert (Hsame : sameTimers h h1)
          by (unfold sameTimers; by rewrite Hself).
        unfold Js.bind at 1.
        destruct token as [| |t].
        -- rewrite setCacheAndRefresh_missing by auto.
           rewrite wrapApiError_value. intros [= -> ->]. by left.
        -- rewrite setCacheAndRefresh_missing by auto.
           rewrite wrapApiError_value. intros [= -> ->]. by left.
        -- rewrite setCacheAndRefresh_val. intros [= -> ->].
           right. exists h1, t. split; [done|].
           by rewrite setCacheAndRefresh_val.
  - rewrite getPrivateAppToken_disabled by done. left. by repeat split.
Qed.

Lemma filter_filter_implied {A} (P Q : A → Prop) `{∀ x, Decision (P x)}
    `{∀ x, Decision (Q x)} (l : list A) :
  (∀ x, x ∈ l → P x → Q x) → filter P (filter Q l) = filter P l.
Proof.
  induction l as [|x l IH]; intros Himp; [done|].
  rewrite (filter_cons Q), (filter_cons P).
  assert (Htail : ∀ y, y ∈ l → P y → Q y)
    by (intros y Hy; apply Himp; by right).
  destruct (decide (Q x)) as [HQ|HQ].
  - rewrite filter_cons. destruct (decide (P x)); rewrite IH; done.
  - destruct (decide (P x)) as [HP|HP]; [|by apply IH].
    destruct HQ. apply Himp; [by left|done].
Qed.

Lemma arm_leaves_other_apps (h : Heap E) appId token requested other :
  inSync h → other ≠ appId →
  let h' := snd (setCacheAndRefresh appId (JsVal token) requested h) in
  tokenMap (self h') !! other = tokenMap (self h) !! other
  ∧ tokenMapIntervalId (self h') !! other
    = tokenMapIntervalId (self h) !! other
  ∧ intervalsFor other h' = intervalsFor other h.
Proof.
  intros (Hreg & Hnd & Hlt & Hfile & Hdom) Hne h'. subst h'.
  rewrite setCacheAndRefresh_val. unfold intervalsFor.
  cbn [fst snd self tokenMap tokenMapIntervalId liveIntervals
         withIntervalIds withTokenMap].
  rewrite !lookup_insert_ne by done.
  split; [done|]. split; [done|].
  rewrite filter_app, filter_cons_False, filter_nil, app_nil_r
    by (cbn; congruence).
  destruct (tokenMapIntervalId (self h) !! appId) as [old|] eqn:Hold; [|done].
  unfold dropInterval. apply filter_filter_implied.
  intros [id cb] Hin Happ. cbn in Happ |- *. intros ->.
  destruct (Hfile appId old Hold) as (cb0 & Hin0 & Happ0).
  pose proof (NoDup_fst_same_handle _ _ _ _ Hnd Hin Hin0). subst cb0.
  congruence.
Qed.

(** X9: apps do not interfere.  In any state a manager can reach, a
    [getPrivateAppToken] call for one app leaves the cached record, the
    handle on file and the live interval of every other app exactly as they
    were. *)
Theorem getPrivateAppToken_leaves_other_apps (account : Z) (w : E)
    (events : list (Event E)) (appId : Z) (requested : list string)
    (other : Z) :
  other ≠ appId →
  let h := history events (newborn account w) in
  let h' := snd (getPrivateAppToken appId requested h) in
  tokenMap (self h') !! other = tokenMap (self h) !! other
  ∧ tokenMapIntervalId (self h') !! other
    = tokenMapIntervalId (self h) !! other
  ∧ intervalsFor other h' = intervalsFor other h.
Proof.
  intros Hne h h'. subst h'.
  assert (Hsync : inSync h)
    by apply (inSync_history events (newborn account w)), inSync_newborn.
  destruct (getPrivateAppToken_shape h appId requested)
    as [(Htok & Hids & Hlive & _) | (h1 & token & Hsame & ->)].
  - unfold intervalsFor. by rewrite Htok, Hids, Hlive.
  - pose proof (inSync_frame h h1 Hsame Hsync) as Hsync1.
    destruct (arm_leaves_other_apps h1 appId token requested other Hsync1 Hne)
      as (A1 & A2 & A3).
    destruct Hsame as (Htok & Hids & Hlive & _).
    rewrite A1, A2, A3. unfold intervalsFor. by rewrite Htok, Hids, Hlive.
Qed.
End ManagerTraffic.

Lemma init_enables_exactly_with_both_scopes_witness :
  let h := Sim.boot Sim.bothScopes 3600000 in
  let '(result, h') := init h in
  (result = inr tt ↔ true = true)
  ∧ isEnabled (self h') = isEnabled (self h) || true
  ∧ accountId (self h') = accountId (self h)
  ∧ sameTimers h h'
  ∧ apiCalls h' = apiCalls h ++ [CallScopeGroups (accountId (self h))]
  ∧ world h' = world h.
Proof.
  apply (init_enables_exactly_with_both_scopes
           (Sim.boot Sim.bothScopes 3600000) (inr Sim.bothScopes)
           (Sim.world0 Sim.bothScopes 3600000)).
  reflexivity.
Defined.

Lemma valid_remote_token_is_adopted_witness :
  let h := Sim.after cleanup
             (Sim.after (getPrivateAppToken 42 ["read"]) (Sim.ready 3600000)) in
  let existing := Sim.mint ["read"] (world (Sim.ready 3600000)) in
  let '(result, h') := getPrivateAppToken 42 ["read"] h in
  let '(again, h'') := getPrivateAppToken 42 ["read"] h' in
  result = inr (Some (userTokenKey existing))
  ∧ apiCalls h' = apiCalls h ++ [CallFetch (accountId (self h)) 42]
  ∧ tokenMap (self h') !! 42 = Some existing
  ∧ tokenMapIntervalId (self h') !! 42 = Some (nextTimeout h)
  ∧ again = inr (Some (userTokenKey existing))
  ∧ apiCalls h'' = apiCalls h'.
Proof.
  apply (valid_remote_token_is_adopted
           (Sim.after cleanup
              (Sim.after (getPrivateAppToken 42 ["read"]) (Sim.ready 3600000)))
           42 ["read"]
           (Sim.mint ["read"] (world (Sim.ready 3600000)))
           (world (Sim.after cleanup
                     (Sim.after (getPrivateAppToken 42 ["read"])
                        (Sim.ready 3600000))))).
  - vm_compute. reflexivity.
  - vm_compute. reflexivity.
  - vm_compute. reflexivity.
  - vm_compute. discriminate.
  - vm_compute. reflexivity.
Defined.

Lemma getPrivateAppToken_failure_is_wrapped_and_atomic_witness :
  let h := Sim.drift 0 Sim.Down (Sim.ready 3600000) in
  (∃ detail cause,
     PlainError "lib.PrivateAppUserTokenManager.errors.apiError" None
     = PlainError
         (i18n (i18nKey +:+ ".errors.apiError")
            [("accountId", VNum (accountId (self h))); ("appId", VNum 42);
             ("messageDetail", VStr detail)]) cause)
  ∧ self (snd (getPrivateAppToken 42 ["read"] h)) = self h
  ∧ liveIntervals (snd (getPrivateAppToken 42 ["read"] h)) = liveIntervals h
  ∧ nextTimeout (snd (getPrivateAppToken 42 ["read"] h)) = nextTimeout h.
Proof.
  apply (getPrivateAppToken_failure_is_wrapped_and_atomic
           (Sim.drift 0 Sim.Down (Sim.ready 3600000)) 42 ["read"]).
  vm_compute. reflexivity.
Defined.

Lemma uncached_call_traffic_witness :
  let h := Sim.ready 3600000 in
  apiCalls (snd (getPrivateAppToken 42 ["read"] h))
  = apiCalls h ++ [CallFetch 7 42; CallCreate 7 42 ["read"]].
Proof.
  exact (uncached_call_traffic (Sim.ready 3600000) 42 ["read"]
           eq_refl eq_refl).
Defined.

Lemma successful_refresh_replaces_and_rearms_witness :
  let h := Sim.drift 3300000 Sim.Up
             (Sim.after (getPrivateAppToken 42 ["read"]) (Sim.ready 3600000)) in
  let token := Sim.mint ["read"] (world h) in
  let '(result, h') := refreshToken 42 "token-0" ["read"] h in
  result = inr tt
  ∧ apiCalls h'
    = apiCalls h ++ [CallUpdate (accountId (self h)) 42 "token-0" ["read"]]
  ∧ tokenMap (self h') !! 42 = Some token
  ∧ (∀ other, other ≠ 42 →
       tokenMap (self h') !! other = tokenMap (self h) !! other)
  ∧ ∃ delay,
      last (liveIntervals h')
      = Some (nextTimeout h,
              {| cbAppId := 42; cbUserTokenKey := userTokenKey token;
                 cbScopeGroups := ["read"]; delayMillis := delay |})
      ∧ (0 ≤ delay)%Z
      ∧ (utcNow (Sim.store 42 token (world h)) + delay
         = Z.max (utcNow (Sim.store 42 token (world h)))
             (expiresAt token - 5 * 60 * 1000))%Z.
Proof.
  apply (successful_refresh_replaces_and_rearms
           (Sim.drift 3300000 Sim.Up
              (Sim.after (getPrivateAppToken 42 ["read"])
                 (Sim.ready 3600000)))
           42 "token-0" ["read"]).
  vm_compute. reflexivity.
Defined.

Lemma getPrivateAppToken_leaves_other_apps_witness :
  let h := history [EvInit; EvGetToken 42 ["read"]]
             (newborn 7 (Sim.world0 Sim.bothScopes 3600000)) in
  let h' := snd (getPrivateAppToken 43 ["write"] h) in
  tokenMap (self h') !! 42 = tokenMap (self h) !! 42
  ∧ tokenMapIntervalId (self h') !! 42 = tokenMapIntervalId (self h) !! 42
  ∧ intervalsFor 42 h' = intervalsFor 42 h.
Proof.
  apply (getPrivateAppToken_leaves_other_apps 7
           (Sim.world0 Sim.bothScopes 3600000)
           [EvInit; EvGetToken 42 ["read"]] 43 ["write"] 42).
  discriminate.
Defined.

(* ===================================================================== *)
(** ** More about requests                                                *)
(* ===================================================================== *)

Section BearerStrategies.
Context `{Lang} {Opts : Type} `{Http.Collaborators Opts}.

(** X10: for a "personalaccesskey" account, and for an "oauth2" account
    that has an OAuth manager, [withAuth] puts the access token it obtains
    into the [Authorization] header as a bearer token and the portal id
    into the query string, and adds no [hapikey]; when the token cannot be
    obtained, the rejection is passed on as it is. *)
Theorem withAuth_bearer_strategies
    (config : option CLIConfiguration.CLIConfig) (accountId : Z)
    (options : Opts) (account : CLIConfiguration.CLIAccount) :
  CLIConfiguration.getAccount config (Some (CLIConfiguration.ById accountId))
  = Some account →
  let base := Http.getRequestOptions (CLIConfiguration.env account) options in
  let authorized token :=
    {| Http.headers :=
         <["Authorization" := "Bearer " +:+ token]> (Http.headers base);
       Http.qs := <["portalId" := VNum accountId]> (Http.qs base);
       Http.others := Http.others base |} in
  (CLIConfiguration.authType account = Some "personalaccesskey" →
   Http.withAuth config accountId options
   = match Http.accessTokenForPersonalAccessKey accountId with
     | inl rejected => inl rejected
     | inr token => inr (authorized token)
     end)
  ∧ (∀ outcome,
       CLIConfiguration.authType account = Some "oauth2" →
       Http.getOauthManager accountId account = Some outcome →
       Http.withAuth config accountId options
       = match outcome with
         | inl rejected => inl rejected
         | inr token => inr (authorized token)
         end).
Proof.
  intros Hfound base authorized. unfold Http.withAuth. rewrite Hfound.
  split.
  - intros Hpak. unfold Http.authTypeIs. rewrite Hpak. cbn.
    unfold Http.withPersonalAccessKey.
    by destruct (Http.accessTokenForPersonalAccessKey accountId).
  - intros outcome Hoauth Hmanager. unfold Http.authTypeIs. rewrite Hoauth.
    cbn. unfold Http.withOauth. rewrite Hmanager. by destruct outcome.
Qed.
End BearerStrategies.

Lemma withAuth_bearer_strategies_witness :
  Http.withAuth (Some Sim.config) 9 tt
  = inr {| Http.headers := <["Authorization" := "Bearer pak-access-token"]> ∅;
           Http.qs := <["portalId" := VNum 9]> ∅;
           Http.others := [("env", VStr "qa")] |}.
Proof.
  refine (proj1 (withAuth_bearer_strategies (Some Sim.config) 9 tt
                   {| CLIConfiguration.name := Some "dev";
                      CLIConfiguration.accountId := 9;
                      CLIConfiguration.env := Some "qa";
                      CLIConfiguration.authType := Some "personalaccesskey";
                      CLIConfiguration.apiKey := None |} _) _).
  - vm_compute. reflexivity.
  - reflexivity.
Defined.

Section Verbs.
Context `{Lang} `{Http.Collaborators Requests.HttpOptions} {Resp : Type}
        `{Requests.Transport Resp}.

(** X11: for an account that is not in the configuration, each of the five
    verbs fails with the [http.index.withAuth] error and hands nothing to
    the transport: no request leaves without a resolved account. *)
Theorem no_request_without_account
    (config : option CLIConfiguration.CLIConfig) (accountId : Z)
    (options : Requests.HttpOptions) :
  CLIConfiguration.getAccount config (Some (CLIConfiguration.ById accountId))
  = None →
  let failure : JsResult Resp * list (Requests.Verb * Http.RequestOptions) :=
    (inl (PlainError
            (i18n "http.index.withAuth" [("accountId", VNum accountId)])
            None), []) in
  Requests.getRequest config accountId options = failure
  ∧ Requests.postRequest config accountId options = failure
  ∧ Requests.putRequest config accountId options = failure
  ∧ Requests.patchRequest config accountId options = failure
  ∧ Requests.deleteRequest config accountId options = failure.
Proof.
  intros Hnone failure.
  unfold Requests.getRequest, Requests.postRequest, Requests.putRequest,
    Requests.patchRequest, Requests.deleteRequest.
  unfold Http.withAuth. rewrite Hnone. repeat split.
Qed.
End Verbs.

Lemma no_request_without_account_witness :
  let failure : JsResult Requests.Verb
                * list (Requests.Verb * Http.RequestOptions) :=
    (inl (PlainError (i18n "http.index.withAuth" [("accountId", VNum 44)])
            None), []) in
  Requests.getRequest (Some Lab.config) 44 Lab.options = failure
  ∧ Requests.postRequest (Some Lab.config) 44 Lab.options = failure
  ∧ Requests.putRequest (Some Lab.config) 44 Lab.options = failure
  ∧ Requests.patchRequest (Some Lab.config) 44 Lab.options = failure
  ∧ Requests.deleteRequest (Some Lab.config) 44 Lab.options = failure.
Proof.
  apply (no_request_without_account (Some Lab.config) 44 Lab.options).
  vm_compute. reflexivity.
Defined.

(** X12: [addQueryParams] lets a query parameter override the option's own
    [qs] entry of the same name and keeps every other [qs] entry and every
    other member; adding no parameters changes no entry, and adding twice
    is adding the two tables merged, the later one winning. *)
Theorem addQueryParams_overrides_and_keeps (options : Requests.HttpOptions)
    (params more : option (gmap string JsValue)) (key : string) :
  Requests.spread (Requests.qs (Requests.addQueryParams options params)) !! key
  = match Requests.spread params !! key with
    | Some value => Some value
    | None => Requests.spread (Requests.qs options) !! key
    end
  ∧ Requests.rest (Requests.addQueryParams options params)
    = Requests.rest options
  ∧ Requests.spread (Requests.qs (Requests.addQueryParams options None))
    = Requests.spread (Requests.qs options)
  ∧ Requests.addQueryParams (Requests.addQueryParams options params) more
    = Requests.addQueryParams options
        (Some (Requests.spread more ∪ Requests.spread params)).
Proof.
  unfold Requests.addQueryParams. cbn. repeat split.
  - rewrite lookup_union.
    destruct (Requests.spread params !! key) as [v|]; cbn.
    + by destruct (Requests.spread (Requests.qs options) !! key).
    + by destruct (Requests.spread (Requests.qs options) !! key).
  - by rewrite (left_id_L ∅ (∪)).
  - by rewrite (assoc_L (∪)).
Qed.

(* ===================================================================== *)
(** ** Looking accounts up                                                *)
(* ===================================================================== *)

Section Lookup.

Lemma getAccount_by_id (c : CLIConfiguration.CLIConfig) (n : Z) :
  n ≠ 0 →
  CLIConfiguration.getAccount (Some c) (Some (CLIConfiguration.ById n))
  = List.find (λ a, (n =? CLIConfiguration.accountId a)%Z)
      (CLIConfiguration.accounts c).
Proof.
  intros Hn. unfold CLIConfiguration.getAccount. cbn.
  apply Z.eqb_neq in Hn. rewrite Hn. cbn. rewrite Hn. reflexivity.
Qed.

Lemma getAccount_by_name (c : CLIConfiguration.CLIConfig) (s : string) :
  s ≠ "" → CLIConfiguration.testDigits s = false →
  CLIConfiguration.getAccount (Some c) (Some (CLIConfiguration.ByName s))
  = List.find (λ a, match CLIConfiguration.name a with
                    | Some m => String.eqb m s
                    | None => false
                    end) (CLIConfiguration.accounts c).
Proof.
  intros Hs Hdigits. unfold CLIConfiguration.getAccount. cbn.
  apply String.eqb_neq in Hs. rewrite Hs. cbn. rewrite Hs, Hdigits.
  reflexivity.
Qed.

(** X13: a name or id that is missing or falsy (no argument, the id 0, the
    empty name) is replaced by the default account of the configuration;
    without a configuration or without a (truthy) default account the
    lookup finds nothing. *)
Theorem getAccount_falls_back_to_default
    (config : option CLIConfiguration.CLIConfig)
    (nameOrId : CLIConfiguration.NameOrId) :
  (CLIConfiguration.truthyNameOrId nameOrId = false →
   CLIConfiguration.getAccount config (Some nameOrId)
   = CLIConfiguration.getAccount config None)
  ∧ CLIConfiguration.getAccount config None
    = match CLIConfiguration.getDefaultAccount config with
      | Some default => CLIConfiguration.getAccount config (Some default)
      | None => None
      end
  ∧ CLIConfiguration.getAccount None (Some nameOrId) = None.
Proof.
  split; [|split; [|reflexivity]].
  - intros Hfalsy. unfold CLIConfiguration.getAccount. by rewrite Hfalsy.
  - destruct config as [c|]; [|reflexivity].
    unfold CLIConfiguration.getAccount, CLIConfiguration.getDefaultAccount.
    destruct (CLIConfiguration.defaultAccount c) as [d|]; [|reflexivity].
    destruct (CLIConfiguration.truthyNameOrId d) eqn:Hd; [|reflexivity].
    cbv zeta. rewrite !Hd. reflexivity.
Qed.

Lemma findIndex_spec {A} (f : A → bool) (l : list A) :
  match List.find f l with
  | Some x =>
      (0 ≤ Config.findIndex f l)%Z
      ∧ l !! Z.to_nat (Config.findIndex f l) = Some x
      ∧ ∀ j y, (j < Z.to_nat (Config.findIndex f l))%nat →
               l !! j = Some y → f y = false
  | None => Config.findIndex f l = (-1)%Z
  end.
Proof.
  induction l as [|x l IH]; cbn; [done|].
  destruct (f x) eqn:Hfx.
  - split; [done|]. split; [done|]. intros j y Hj. cbn in Hj. lia.
  - destruct (List.find f l) as [z|].
    + destruct IH as (Hpos & Hat & Hbefore).
      replace (Config.findIndex f l <? 0)%Z with false
        by (symmetry; apply Z.ltb_ge; lia).
      split; [lia|].
      replace (Z.to_nat (Config.findIndex f l + 1))
        with (S (Z.to_nat (Config.findIndex f l))) by lia.
      split; [done|].
      intros [|j] y Hj; cbn.
      * by intros [= <-].
      * apply Hbefore. lia.
    + rewrite IH. reflexivity.
Qed.

(** Lookup by id and [getConfigAccountIndex] point at the same account. *)
Lemma getAccount_index_spec (c : CLIConfiguration.CLIConfig) (n : Z) :
  n ≠ 0 →
  let index := Config.getConfigAccountIndex (Some c) n in
  match CLIConfiguration.getAccount (Some c)
          (Some (CLIConfiguration.ById n)) with
  | Some account =>
      CLIConfiguration.accountId account = n
      ∧ (0 ≤ index)%Z
      ∧ CLIConfiguration.accounts c !! Z.to_nat index = Some account
      ∧ ∀ j earlier, (j < Z.to_nat index)%nat →
          CLIConfiguration.accounts c !! j = Some earlier →
          CLIConfiguration.accountId earlier ≠ n
  | None =>
      index = (-1)%Z
      ∧ ∀ account, account ∈ CLIConfiguration.accounts c →
          CLIConfiguration.accountId account ≠ n
  end.
Proof.
  intros Hn index. rewrite getAccount_by_id by done.
  subst index. unfold Config.getConfigAccountIndex.
  assert (Hsame :
    List.find (λ a, (n =? CLIConfiguration.accountId a)%Z)
      (CLIConfiguration.accounts c)
    = List.find (λ a, (CLIConfiguration.accountId a =? n)%Z)
        (CLIConfiguration.accounts c)).
  { induction (CLIConfiguration.accounts c) as [|a l IH]; cbn; [done|].
    rewrite (Z.eqb_sym n). by rewrite IH. }
  rewrite Hsame. clear Hsame.
  pose proof (findIndex_spec
                (λ a, (CLIConfiguration.accountId a =? n)%Z)
                (CLIConfiguration.accounts c)) as Hspec.
  destruct (List.find _ _) as [account|] eqn:Hfind; cbv beta iota in Hspec.
  - destruct Hspec as (Hpos & Hat & Hbefore).
    apply List.find_some in Hfind as [_ Hid]. apply Z.eqb_eq in Hid.
    repeat split; try done.
    intros j earlier Hj Hlook. apply Z.eqb_neq. by eapply Hbefore.
  - split; [done|]. intros account Hin.
    apply Z.eqb_neq.
    apply (List.find_none _ _ Hfind account). by apply list_elem_of_In.
Qed.

(** X14: looking an account up by a non-zero id answers with the first
    account carrying that id, [getConfigAccountIndex] answers with the
    position of that very account, and the lookup fails (and the index is
    -1) exactly when no account carries the id. *)
Theorem getAccount_and_index_agree (c : CLIConfiguration.CLIConfig) (n : Z) :
  n ≠ 0 →
  let index := Config.getConfigAccountIndex (Some c) n in
  match CLIConfiguration.getAccount (Some c)
          (Some (CLIConfiguration.ById n)) with
  | Some account =>
      CLIConfiguration.accountId account = n
      ∧ (0 ≤ index)%Z
      ∧ CLIConfiguration.accounts c !! Z.to_nat index = Some account
      ∧ ∀ j earlier, (j < Z.to_nat index)%nat →
          CLIConfiguration.accounts c !! j = Some earlier →
          CLIConfiguration.accountId earlier ≠ n
  | None =>
      index = (-1)%Z
      ∧ ∀ account, account ∈ CLIConfiguration.accounts c →
          CLIConfiguration.accountId account ≠ n
  end.
Proof. apply getAccount_index_spec. Qed.

(** X15: a name made of digits only is never looked up as a name: it is
    read as a decimal id.  When that id is not 0 the lookup is the lookup
    by that id; when it is 0 (as for "0" or "000") nothing is found, not
    even the default account. *)
Theorem getAccount_reads_digit_names_as_ids
    (config : option CLIConfiguration.CLIConfig) (s : string) :
  CLIConfiguration.testDigits s = true →
  CLIConfiguration.getAccount config (Some (CLIConfiguration.ByName s))
  = if (CLIConfiguration.parseInt s =? 0)%Z then None
    else CLIConfiguration.getAccount config
           (Some (CLIConfiguration.ById (CLIConfiguration.parseInt s))).
Proof.
  intros Hdigits.
  destruct config as [c|]; [|by destruct (_ =? _)%Z].
  assert (Hs : String.eqb s "" = false).
  { unfold CLIConfiguration.testDigits in Hdigits.
    apply andb_prop in Hdigits as [Hne _]. by apply negb_true_iff in Hne. }
  unfold CLIConfiguration.getAccount. cbn. rewrite Hs. cbn.
  rewrite Hs, Hdigits. cbn.
  destruct (CLIConfiguration.parseInt s =? 0)%Z eqn:Hz; cbn; [done|].
  rewrite Hz. reflexivity.
Qed.
End Lookup.

Lemma getAccount_and_index_agree_witness :
  CLIConfiguration.accountId (Lab.account (Some "sandbox") 22) = 22
  ∧ (0 ≤ Config.getConfigAccountIndex (Some Lab.config) 22)%Z
  ∧ CLIConfiguration.accounts Lab.config
      !! Z.to_nat (Config.getConfigAccountIndex (Some Lab.config) 22)
    = Some (Lab.account (Some "sandbox") 22)
  ∧ ∀ j earlier,
      (j < Z.to_nat (Config.getConfigAccountIndex (Some Lab.config) 22))%nat →
      CLIConfiguration.accounts Lab.config !! j = Some earlier →
      CLIConfiguration.accountId earlier ≠ 22.
Proof.
  exact (getAccount_and_index_agree Lab.config 22 ltac:(discriminate)).
Defined.

Lemma getAccount_reads_digit_names_as_ids_witness :
  CLIConfiguration.getAccount (Some Lab.config)
    (Some (CLIConfiguration.ByName "022"))
  = Some (Lab.account (Some "sandbox") 22).
Proof.
  exact (getAccount_reads_digit_names_as_ids (Some Lab.config) "022" eq_refl).
Defined.

(* ===================================================================== *)
(** ** Validating and changing the configuration                          *)
(* ===================================================================== *)

Section Validate.

Lemma existsb_Zeqb_false (x : Z) (l : list Z) :
  existsb (Z.eqb x) l = false → ¬ In x l.
Proof.
  intros Hex Hin.
  assert (existsb (Z.eqb x) l = true); [|congruence].
  apply existsb_exists. exists x. split; [done|]. apply Z.eqb_refl.
Qed.

Lemma existsb_eqb_false (x : string) (l : list string) :
  existsb (String.eqb x) l = false → ¬ In x l.
Proof.
  intros Hex Hin.
  assert (existsb (String.eqb x) l = true); [|congruence].
  apply existsb_exists. exists x. split; [done|]. apply String.eqb_refl.
Qed.

Lemma validateAccounts_passes (l : list CLIConfiguration.CLIAccount) :
  ∀ ids names,
    Config.validateAccounts ids names (map Some l) = None →
    (∀ a, In a l →
          CLIConfiguration.accountId a ≠ 0
          ∧ ¬ In (CLIConfiguration.accountId a) ids)
    ∧ NoDup (map CLIConfiguration.accountId l)
    ∧ (∀ a n, In a l → CLIConfiguration.name a = Some n → n ≠ "" →
              ¬ In n names ∧ Config.hasSpace n = false)
    ∧ (∀ a b n, In a l → In b l → n ≠ "" →
                CLIConfiguration.name a = Some n →
                CLIConfiguration.name b = Some n → a = b).
Proof.
  induction l as [|x l IH]; intros ids names Hpass.
  - repeat split; try (intros; contradiction). constructor.
  - cbn [map Config.validateAccounts] in Hpass.
    destruct (CLIConfiguration.accountId x =? 0)%Z eqn:Hzero; [done|].
    destruct (existsb (Z.eqb (CLIConfiguration.accountId x)) ids) eqn:Hseen;
      [done|].
    apply Z.eqb_neq in Hzero. apply existsb_Zeqb_false in Hseen.
    assert (Hcases :
      ∃ names',
        Config.validateAccounts (CLIConfiguration.accountId x :: ids) names'
          (map Some l) = None
        ∧ (∀ n, In n names → In n names')
        ∧ (∀ n, CLIConfiguration.name x = Some n → n ≠ "" →
                In n names' ∧ ¬ In n names ∧ Config.hasSpace n = false)).
    { destruct (CLIConfiguration.name x) as [n|] eqn:Hname.
      - destruct (String.eqb n "") eqn:Hempty.
        + exists names. split; [done|]. split; [done|].
          intros m [= <-] Hm. by apply String.eqb_eq in Hempty.
        + destruct (existsb (String.eqb n)
                      (names ++ Config.objectPrototypeKeys)) eqn:Hdup;
            [done|].
          destruct (Config.hasSpace n) eqn:Hspace; [done|].
          exists (n :: names). split; [done|]. split; [by right|].
          intros m [= <-] _. split; [by left|]. split; [|done].
          apply existsb_eqb_false in Hdup.
          intros Hin. apply Hdup, in_or_app. by left.
      - exists names. split; [done|]. split; [done|]. done. }
    destruct Hcases as (names' & Hrest & Hkeep & Hx).
    destruct (IH _ _ Hrest) as (Hids & Hnd & Hnames & Hpair).
    split; [|split; [|split]].
    + intros a [<-|Hin]; [done|].
      destruct (Hids a Hin) as [Hnz Hnot]. split; [done|].
      intros Hold. apply Hnot. by right.
    + cbn. apply NoDup_cons. split; [|done].
      intros Hin. apply list_elem_of_In, in_map_iff in Hin as (b & Hb & Hin).
      destruct (Hids b Hin) as [_ Hnot]. apply Hnot. left. done.
    + intros a n [<-|Hin] Hname Hn.
      * destruct (Hx n Hname Hn) as (_ & Hnot & Hspace). done.
      * destruct (Hnames a n Hin Hname Hn) as [Hnot Hspace]. split; [|done].
        intros Hold. apply Hnot. by apply Hkeep.
    + intros a b n [<-|Ha] [<-|Hb] Hn Hna Hnb; try done.
      * destruct (Hx n Hna Hn) as (Hin' & _).
        destruct (Hnames b n Hb Hnb Hn) as [Hnot _]. done.
      * destruct (Hx n Hnb Hn) as (Hin' & _).
        destruct (Hnames a n Ha Hna Hn) as [Hnot _]. done.
      * by eapply Hpair.
Qed.

Lemma find_unique {A} (f : A → bool) (l : list A) (a : A) :
  In a l → f a = true → (∀ b, In b l → f b = true → b = a) →
  List.find f l = Some a.
Proof.
  intros Hin Hfa Huniq.
  destruct (List.find f l) as [b|] eqn:Hfind.
  - apply List.find_some in Hfind as [Hb Hfb]. f_equal. by apply Huniq.
  - by rewrite (List.find_none _ _ Hfind a Hin) in Hfa.
Qed.

Lemma NoDup_map_injective_on {A B} (g : A → B) (l : list A) (a b : A) :
  NoDup (map g l) → In a l → In b l → g a = g b → a = b.
Proof.
  induction l as [|x l IH]; cbn; [done|].
  rewrite NoDup_cons. intros [Hnotin Hnd] [<-|Ha] [<-|Hb] Heq; try done.
  - destruct Hnotin. rewrite Heq. apply list_elem_of_In, in_map. done.
  - destruct Hnotin. rewrite <- Heq. apply list_elem_of_In, in_map. done.
  - by apply IH.
Qed.

(** X16: a configuration that [validate] accepts has no account without an
    id, no id twice, no name twice and no name with white space, and
    nothing was logged; in such a configuration every account is the one
    [getAccount] finds under its id, and under its name unless the name is
    made of digits only. *)
Theorem validated_accounts_are_found (c : CLIConfiguration.CLIConfig) :
  fst (Config.validate (Some (Config.raw c))) = true →
  snd (Config.validate (Some (Config.raw c))) = []
  ∧ NoDup (map CLIConfiguration.accountId (CLIConfiguration.accounts c))
  ∧ ∀ account, account ∈ CLIConfiguration.accounts c →
      CLIConfiguration.accountId account ≠ 0
      ∧ CLIConfiguration.getAccount (Some c)
          (Some (CLIConfiguration.ById (CLIConfiguration.accountId account)))
        = Some account
      ∧ ∀ name, CLIConfiguration.name account = Some name → name ≠ "" →
          Config.hasSpace name = false
          ∧ (∀ other, other ∈ CLIConfiguration.accounts c →
                      CLIConfiguration.name other = Some name →
                      other = account)
          ∧ (CLIConfiguration.testDigits name = false →
             CLIConfiguration.getAccount (Some c)
               (Some (CLIConfiguration.ByName name)) = Some account).
Proof.
  unfold Config.validate, Config.raw. cbn [Config.rawAccounts].
  destruct (Config.validateAccounts [] []
              (map Some (CLIConfiguration.accounts c))) as [complaint|]
    eqn:Hpass; [done|].
  intros _.
  destruct (validateAccounts_passes _ _ _ Hpass)
    as (Hids & Hnd & Hnames & Hpair).
  split; [done|]. split; [done|].
  intros account Hin. apply list_elem_of_In in Hin.
  destruct (Hids account Hin) as [Hnz _].
  split; [done|]. split.
  - rewrite getAccount_by_id by done.
    apply find_unique; [done|apply Z.eqb_refl|].
    intros b Hb Heq. apply Z.eqb_eq in Heq.
    by eapply NoDup_map_injective_on.
  - intros name Hname Hne.
    destruct (Hnames account name Hin Hname Hne) as [_ Hspace].
    split; [done|]. split.
    + intros other Hother Hoth. apply list_elem_of_In in Hother.
      by eapply Hpair.
    + intros Hdigits. rewrite getAccount_by_name by done.
      apply find_unique; [done| |].
      * rewrite Hname. apply String.eqb_refl.
      * intros b Hb Hmatch.
        destruct (CLIConfiguration.name b) as [m|] eqn:Hm; [|done].
        apply String.eqb_eq in Hmatch. subst m. by eapply Hpair.
Qed.
End Validate.

Lemma validated_accounts_are_found_witness :
  snd (Config.validate (Some (Config.raw Lab.config))) = []
  ∧ NoDup (map CLIConfiguration.accountId
             (CLIConfiguration.accounts Lab.config))
  ∧ ∀ account, account ∈ CLIConfiguration.accounts Lab.config →
      CLIConfiguration.accountId account ≠ 0
      ∧ CLIConfiguration.getAccount (Some Lab.config)
          (Some (CLIConfiguration.ById (CLIConfiguration.accountId account)))
        = Some account
      ∧ ∀ name, CLIConfiguration.name account = Some name → name ≠ "" →
          Config.hasSpace name = false
          ∧ (∀ other, other ∈ CLIConfiguration.accounts Lab.config →
                      CLIConfiguration.name other = Some name →
                      other = account)
          ∧ (CLIConfiguration.testDigits name = false →
             CLIConfiguration.getAccount (Some Lab.config)
               (Some (CLIConfiguration.ByName name)) = Some account).
Proof.
  apply (validated_accounts_are_found Lab.config).
  vm_compute. reflexivity.
Defined.

Section Mutate.
Context `{Lang}.

Lemma getAccount_In (c : CLIConfiguration.CLIConfig)
    (x : option CLIConfiguration.NameOrId) (a : CLIConfiguration.CLIAccount) :
  CLIConfiguration.getAccount (Some c) x = Some a →
  In a (CLIConfiguration.accounts c).
Proof.
  unfold CLIConfiguration.getAccount.
  destruct (match x with Some _ => _ | None => _ end) as [y|]; [|done].
  destruct (negb (CLIConfiguration.truthyNameOrId y)); [done|].
  destruct (match y with
            | CLIConfiguration.ByName _ => _
            | CLIConfiguration.ById _ => _
            end) as [[n|] [i|]].
  - intros Hfind. by apply List.find_some in Hfind as [Hin _].
  - intros Hfind. by apply List.find_some in Hfind as [Hin _].
  - destruct (negb (i =? 0)%Z); [|done].
    intros Hfind. by apply List.find_some in Hfind as [Hin _].
  - done.
Qed.

Lemma find_delete_other {A} (f : A → bool) (l : list A) : ∀ i a,
  l !! i = Some a → f a = false → List.find f (delete i l) = List.find f l.
Proof.
  induction l as [|x l IH]; intros [|i] a Hat Hfa; cbn in *; try done.
  - injection Hat as ->. by rewrite Hfa.
  - destruct (f x); [done|]. by eapply IH.
Qed.

Lemma find_delete_unique {A B} (g : A → B) (f : A → bool) (l : list A) :
  ∀ i a,
    NoDup (map g l) → l !! i = Some a →
    (∀ b, f b = true → g b = g a) →
    List.find f (delete i l) = None.
Proof.
  induction l as [|x l IH]; intros [|i] a Hnd Hat Hf; cbn in *; try done.
  - injection Hat as ->. apply NoDup_cons in Hnd as [Hnotin _].
    destruct (List.find f l) as [b|] eqn:Hfind; [|done].
    apply List.find_some in Hfind as [Hin Hfb].
    destruct Hnotin. rewrite <- (Hf b Hfb).
    apply list_elem_of_In, in_map. done.
  - apply NoDup_cons in Hnd as [Hnotin Hnd].
    destruct (f x) eqn:Hfx.
    + destruct Hnotin. rewrite (Hf x Hfx).
      apply list_elem_of_In, in_map.
      apply list_elem_of_In. by eapply list_elem_of_lookup_2.
    + by eapply IH.
Qed.

(** X17: [removeAccountFromConfig] throws and changes nothing when the name
    or id resolves to no account id.  Otherwise it takes out exactly one
    account, the first one carrying the resolved id: lookups by any other
    id answer as before, the default account setting is left as it is, and
    when ids are not repeated the removed id is no longer found.  The
    answer tells whether the removed account's name is the default
    account, and the new configuration is written to disk once unless the
    configuration came from the environment. *)
Theorem removeAccountFromConfig_takes_out_one_account (s : Config.Store)
    (c : CLIConfiguration.CLIConfig) (nameOrId : CLIConfiguration.NameOrId) :
  Config.config s = Some c →
  ((Config.getAccountId (Some c) nameOrId = None
    ∨ Config.getAccountId (Some c) nameOrId = Some 0) →
   Config.removeAccountFromConfig nameOrId s
   = (inl (PlainError
             (i18n (Config.i18nKey +:+ ".removeAccountFromConfig")
                [("nameOrId", Config.nameOrIdValue nameOrId)]) None), s))
  ∧ (∀ n, Config.getAccountId (Some c) nameOrId = Some n → n ≠ 0 →
       ∃ removed c',
         CLIConfiguration.getAccount (Some c) (Some (CLIConfiguration.ById n))
         = Some removed
         ∧ fst (Config.removeAccountFromConfig nameOrId s)
           = inr (Config.isDefaultName
                    (CLIConfiguration.getDefaultAccount (Some c))
                    (CLIConfiguration.name removed))
         ∧ Config.config (snd (Config.removeAccountFromConfig nameOrId s))
           = Some c'
         ∧ CLIConfiguration.defaultAccount c'
           = CLIConfiguration.defaultAccount c
         ∧ S (length (CLIConfiguration.accounts c'))
           = length (CLIConfiguration.accounts c)
         ∧ (∀ m, m ≠ 0 → m ≠ n →
              CLIConfiguration.getAccount (Some c')
                (Some (CLIConfiguration.ById m))
              = CLIConfiguration.getAccount (Some c)
                  (Some (CLIConfiguration.ById m)))
         ∧ (NoDup (map CLIConfiguration.accountId
                     (CLIConfiguration.accounts c)) →
            CLIConfiguration.getAccount (Some c')
              (Some (CLIConfiguration.ById n)) = None)
         ∧ Config.disk (snd (Config.removeAccountFromConfig nameOrId s))
           = if Config.useEnvConfig s then Config.disk s
             else Config.disk s ++ [c']).
Proof.
  intros Hconfig. unfold Config.removeAccountFromConfig. rewrite Hconfig.
  split.
  - intros [-> | ->]; reflexivity.
  - intros n Hid Hn. rewrite Hid.
    apply Z.eqb_neq in Hn as Hnb. rewrite Hnb.
    assert (Hexists : ∃ found, In found (CLIConfiguration.accounts c)
                               ∧ CLIConfiguration.accountId found = n).
    { unfold Config.getAccountId in Hid.
      destruct (CLIConfiguration.getAccount (Some c) (Some nameOrId))
        as [found|] eqn:Hfound; [|done].
      injection Hid as Hid. exists found. split; [|done].
      by eapply getAccount_In. }
    pose proof (getAccount_index_spec c n Hn) as Hagree.
    cbv zeta in Hagree.
    destruct (CLIConfiguration.getAccount (Some c)
                (Some (CLIConfiguration.ById n))) as [removed|] eqn:Hremoved.
    2:{ destruct Hagree as [_ Hnone].
        destruct Hexists as (found & Hin & Hfid).
        destruct (Hnone found); [by apply list_elem_of_In|done]. }
    destruct Hagree as (Hrid & Hpos & Hat & Hbefore).
    set (index := Config.getConfigAccountIndex (Some c) n) in *.
    assert (Hlen : (Z.to_nat index < length (CLIConfiguration.accounts c))%nat)
      by (by eapply lookup_lt_Some).
    assert (Hsplice :
      Config.splice1 index (CLIConfiguration.accounts c)
      = delete (Z.to_nat index) (CLIConfiguration.accounts c)).
    { unfold Config.splice1.
      replace (index <? 0)%Z with false by (symmetry; apply Z.ltb_ge; lia).
      f_equal. lia. }
    set (c' := {| CLIConfiguration.accounts :=
                    Config.splice1 index (CLIConfiguration.accounts c);
                  CLIConfiguration.defaultAccount :=
                    CLIConfiguration.defaultAccount c |}).
    exists removed, c'.
    split; [done|].
    unfold Config.write. cbn [Config.useEnvConfig Config.setConfig Config.debug
                                Config.config].
    destruct (Config.useEnvConfig s) eqn:Henv;
      cbn [fst snd Config.config Config.disk Config.setConfig
             Config.writeConfigToFile Config.debug Config.useEnvConfig];
      (split; [done|]); (split; [done|]); (split; [done|]).
    all: split;
      [subst c'; cbn [CLIConfiguration.accounts]; rewrite Hsplice;
       rewrite length_delete by eauto; lia|].
    all: split;
      [intros m Hm Hmn; rewrite !getAccount_by_id by done;
       subst c'; cbn [CLIConfiguration.accounts]; rewrite Hsplice;
       apply (find_delete_other _ _ _ removed Hat);
       apply Z.eqb_neq; congruence|].
    all: split; [|done].
    all: intros Hnd; rewrite getAccount_by_id by done;
      subst c'; cbn [CLIConfiguration.accounts]; rewrite Hsplice;
      apply (find_delete_unique CLIConfiguration.accountId _ _ _ removed Hnd
               Hat);
      intros b Hb; apply Z.eqb_eq in Hb; congruence.
Qed.

(** X18: [updateDefaultAccount] throws and changes nothing for a falsy
    argument (the id 0, the empty name).  Otherwise the accounts are as
    before, the argument is what [getDefaultAccount] answers afterwards,
    a lookup without name or id now finds what a lookup with the argument
    finds, and the new configuration is returned, and written to disk once
    unless the configuration came from the environment. *)
Theorem updateDefaultAccount_sets_the_fallback (s : Config.Store)
    (c : CLIConfiguration.CLIConfig) (default : CLIConfiguration.NameOrId) :
  Config.config s = Some c →
  (CLIConfiguration.truthyNameOrId default = false →
   Config.updateDefaultAccount default s
   = (inl (PlainError (i18n (Config.i18nKey +:+ ".updateDefaultAccount") [])
             None), s))
  ∧ (CLIConfiguration.truthyNameOrId default = true →
     ∃ c',
       fst (Config.updateDefaultAccount default s) = inr (Some c')
       ∧ Config.config (snd (Config.updateDefaultAccount default s)) = Some c'
       ∧ CLIConfiguration.accounts c' = CLIConfiguration.accounts c
       ∧ CLIConfiguration.getDefaultAccount (Some c') = Some default
       ∧ CLIConfiguration.getAccount (Some c') None
         = CLIConfiguration.getAccount (Some c) (Some default)
       ∧ Config.disk (snd (Config.updateDefaultAccount default s))
         = if Config.useEnvConfig s then Config.disk s
           else Config.disk s ++ [c']).
Proof.
  intros Hconfig. unfold Config.updateDefaultAccount. rewrite Hconfig.
  split.
  - intros ->. reflexivity.
  - intros Htruthy. rewrite Htruthy. cbn [negb].
    eexists. unfold Config.write.
    cbn [Config.useEnvConfig Config.setConfig Config.config].
    destruct (Config.useEnvConfig s) eqn:Henv;
      cbn [fst snd Config.config Config.disk Config.setConfig
             Config.writeConfigToFile Config.useEnvConfig];
      (split; [reflexivity|]); (split; [reflexivity|]);
      (split; [reflexivity|]).
    all: split;
      [unfold CLIConfiguration.getDefaultAccount;
       cbn [CLIConfiguration.defaultAccount]; by rewrite Htruthy|].
    all: split; [|done].
    all: unfold CLIConfiguration.getAccount,
           CLIConfiguration.getDefaultAccount;
      cbn [CLIConfiguration.defaultAccount CLIConfiguration.accounts];
      rewrite !Htruthy; reflexivity.
Qed.
End Mutate.

Lemma removeAccountFromConfig_takes_out_one_account_witness :
  ∃ removed c',
    CLIConfiguration.getAccount (Some Lab.config)
      (Some (CLIConfiguration.ById 22)) = Some removed
    ∧ fst (Config.removeAccountFromConfig (CLIConfiguration.ByName "sandbox")
             Lab.store)
      = inr (Config.isDefaultName
               (CLIConfiguration.getDefaultAccount (Some Lab.config))
               (CLIConfiguration.name removed))
    ∧ Config.config
        (snd (Config.removeAccountFromConfig
                (CLIConfiguration.ByName "sandbox") Lab.store))
      = Some c'
    ∧ CLIConfiguration.defaultAccount c'
      = CLIConfiguration.defaultAccount Lab.config
    ∧ S (length (CLIConfiguration.accounts c'))
      = length (CLIConfiguration.accounts Lab.config)
    ∧ (∀ m, m ≠ 0 → m ≠ 22 →
         CLIConfiguration.getAccount (Some c')
           (Some (CLIConfiguration.ById m))
         = CLIConfiguration.getAccount (Some Lab.config)
             (Some (CLIConfiguration.ById m)))
    ∧ (NoDup (map CLIConfiguration.accountId
                (CLIConfiguration.accounts Lab.config)) →
       CLIConfiguration.getAccount (Some c')
         (Some (CLIConfiguration.ById 22)) = None)
    ∧ Config.disk
        (snd (Config.removeAccountFromConfig
                (CLIConfiguration.ByName "sandbox") Lab.store))
      = if Config.useEnvConfig Lab.store then Config.disk Lab.store
        else Config.disk Lab.store ++ [c'].
Proof.
  refine (proj2 (removeAccountFromConfig_takes_out_one_account Lab.store
                   Lab.config (CLIConfiguration.ByName "sandbox") _) 22 _ _).
  - reflexivity.
  - vm_compute. reflexivity.
  - discriminate.
Defined.

Lemma updateDefaultAccount_sets_the_fallback_witness :
  ∃ c',
    fst (Config.updateDefaultAccount (CLIConfiguration.ById 33) Lab.store)
    = inr (Some c')
    ∧ Config.config
        (snd (Config.updateDefaultAccount (CLIConfiguration.ById 33)
                Lab.store)) = Some c'
    ∧ CLIConfiguration.accounts c' = CLIConfiguration.accounts Lab.config
    ∧ CLIConfiguration.getDefaultAccount (Some c')
      = Some (CLIConfiguration.ById 33)
    ∧ CLIConfiguration.getAccount (Some c') None
      = CLIConfiguration.getAccount (Some Lab.config)
          (Some (CLIConfiguration.ById 33))
    ∧ Config.disk
        (snd (Config.updateDefaultAccount (CLIConfiguration.ById 33)
                Lab.store))
      = if Config.useEnvConfig Lab.store then Config.disk Lab.store
        else Config.disk Lab.store ++ [c'].
Proof.
  refine (proj2 (updateDefaultAccount_sets_the_fallback Lab.store Lab.config
                   (CLIConfiguration.ById 33) _) _).
  - reflexivity.
  - reflexivity.
Defined.

(* ===================================================================== *)
(** ** Release tags                                                       *)
(* ===================================================================== *)

Section ReleaseTag.

Lemma isSpace_toLowerUnit (c : ascii) :
  Config.isSpace (Github.toLowerUnit c) = Config.isSpace c.
Proof.
  destruct c as [[] [] [] [] [] [] [] []]; vm_compute; reflexivity.
Qed.

Lemma toLowerUnit_idempotent (c : ascii) :
  Github.toLowerUnit (Github.toLowerUnit c) = Github.toLowerUnit c.
Proof.
  destruct c as [[] [] [] [] [] [] [] []]; vm_compute; reflexivity.
Qed.

Lemma toLowerCase_idempotent (s : string) :
  Github.toLowerCase (Github.toLowerCase s) = Github.toLowerCase s.
Proof.
  induction s as [|c s IH]; cbn; [done|].
  by rewrite toLowerUnit_idempotent, IH.
Qed.

Lemma toLowerCase_trimStart (s : string) :
  Github.toLowerCase (Github.trimStart s)
  = Github.trimStart (Github.toLowerCase s).
Proof.
  induction s as [|c s IH]; cbn; [done|].
  rewrite isSpace_toLowerUnit. by destruct (Config.isSpace c).
Qed.

Lemma toLowerCase_empty (s : string) :
  Github.toLowerCase s = "" ↔ s = "".
Proof. by destruct s. Qed.

Lemma toLowerCase_trimEnd (s : string) :
  Github.toLowerCase (Github.trimEnd s)
  = Github.trimEnd (Github.toLowerCase s).
Proof.
  induction s as [|c s IH]; cbn; [done|].
  rewrite <- IH.
  destruct (Github.trimEnd s) as [|d kept]; cbn.
  - rewrite isSpace_toLowerUnit. by destruct (Config.isSpace c).
  - done.
Qed.

Lemma toLowerCase_trim (s : string) :
  Github.toLowerCase (Github.trim s) = Github.trim (Github.toLowerCase s).
Proof.
  unfold Github.trim. by rewrite toLowerCase_trimEnd, toLowerCase_trimStart.
Qed.

Lemma trimEnd_idempotent (s : string) :
  Github.trimEnd (Github.trimEnd s) = Github.trimEnd s.
Proof.
  induction s as [|c s IH]; cbn; [done|].
  destruct (Github.trimEnd s) as [|d kept] eqn:Hkept.
  - destruct (Config.isSpace c) eqn:Hc; cbn; [done|]. by rewrite Hc.
  - cbn [Github.trimEnd]. cbn [Github.trimEnd] in IH. rewrite IH. done.
Qed.

Lemma trimStart_fixed (s : string) :
  Github.trimStart (Github.trimStart s) = Github.trimStart s.
Proof.
  induction s as [|c s IH]; cbn; [done|].
  destruct (Config.isSpace c) eqn:Hc; [done|]. cbn. by rewrite Hc.
Qed.

(** Trimming the end leaves a string that starts as it should alone. *)
Lemma trimStart_trimEnd (s : string) :
  Github.trimStart s = s → Github.trimStart (Github.trimEnd s) = Github.trimEnd s.
Proof.
  destruct s as [|c s]; cbn; [done|].
  destruct (Config.isSpace c) eqn:Hc.
  - intros Hfix. exfalso.
    assert (Hlen : (String.length (Github.trimStart s) ≤ String.length s)%nat).
    { clear. induction s as [|d s IH]; cbn; [done|].
      destruct (Config.isSpace d); cbn; lia. }
    rewrite Hfix in Hlen. cbn in Hlen. lia.
  - intros _. destruct (Github.trimEnd s); cbn; by rewrite Hc.
Qed.

Lemma trim_idempotent (s : string) :
  Github.trim (Github.trim s) = Github.trim s.
Proof.
  unfold Github.trim.
  rewrite (trimStart_trimEnd (Github.trimStart s)) by apply trimStart_fixed.
  apply trimEnd_idempotent.
Qed.

Lemma trim_fixed_trimEnd (s : string) :
  Github.trim s = s → Github.trimEnd s = s ∧ Github.trimStart s = s.
Proof.
  intros Hfix. split.
  - rewrite <- Hfix at 1. unfold Github.trim.
    rewrite trimEnd_idempotent. exact Hfix.
  - rewrite <- Hfix at 1. unfold Github.trim.
    rewrite trimStart_trimEnd by apply trimStart_fixed. exact Hfix.
Qed.

Lemma trim_v (s : string) :
  s ≠ "" → Github.trim s = s → Github.trim ("v" +:+ s) = "v" +:+ s.
Proof.
  intros Hne Hfix. destruct (trim_fixed_trimEnd s Hfix) as [Hend _].
  change ("v" +:+ s) with (String "v" s).
  unfold Github.trim. cbn [Github.trimStart].
  change (Config.isSpace "v") with false. cbn iota.
  cbn [Github.trimEnd]. rewrite Hend. by destruct s.
Qed.

(** The tag that is asked for, once lowered and trimmed, is canonical. *)
Lemma releaseTag_canonical (given : string) :
  let lowered := Github.toLowerCase (Github.trim given) in
  Github.trim lowered = lowered ∧ Github.toLowerCase lowered = lowered.
Proof.
  cbv zeta. split.
  - by rewrite <- toLowerCase_trim, trim_idempotent.
  - apply toLowerCase_idempotent.
Qed.

Lemma releaseTag_shape (tag : option string) (asked : string) :
  Github.releaseTag tag = Some asked → asked ≠ "" →
  Github.startsWithV asked = true
  ∧ Github.trim asked = asked
  ∧ Github.toLowerCase asked = asked.
Proof.
  destruct tag as [given|]; [|done]. cbn.
  destruct (String.eqb given "") eqn:Hgiven.
  - intros [= <-] Hne. by apply String.eqb_eq in Hgiven.
  - destruct (releaseTag_canonical given) as [Htrim Hlow].
    set (lowered := Github.toLowerCase (Github.trim given)) in *.
    destruct (String.eqb lowered "") eqn:Hempty; cbn.
    + intros [= <-] Hne. by apply String.eqb_eq in Hempty.
    + apply String.eqb_neq in Hempty.
      destruct (Github.startsWithV lowered) eqn:Hv; cbn.
      * intros [= <-] _. done.
      * intros [= <-] _. split; [done|]. split.
        -- by apply trim_v.
        -- change ("v" +:+ lowered) with (String "v" lowered).
           cbn [Github.toLowerCase]. rewrite Hlow. reflexivity.
Qed.

Lemma releaseTag_idempotent (tag : option string) :
  Github.releaseTag (Github.releaseTag tag) = Github.releaseTag tag.
Proof.
  destruct (Github.releaseTag tag) as [asked|] eqn:Hasked; [|done].
  destruct (String.eqb asked "") eqn:Hempty.
  - cbn. by rewrite Hempty.
  - apply String.eqb_neq in Hempty.
    destruct (releaseTag_shape tag asked Hasked Hempty)
      as (Hv & Htrim & Hlow).
    cbn. apply String.eqb_neq in Hempty. rewrite Hempty.
    rewrite Htrim, Hlow, Hempty, Hv. done.
Qed.

(** X19: the tag [fetchReleaseData] asks the release endpoint for is
    either no tag, the empty tag, or a tag in canonical form: lower case,
    without white space at either end, starting with "v".  Putting a tag
    into that form changes nothing when it is already in it, so a tag and
    its canonical form lead to the same request and the same answer. *)
Theorem release_tag_is_canonical `{Lang} {Release : Type}
    `{Github.Api Release} (repoPath : string) (tag : option string) :
  (tag = None → Github.releaseTag tag = None)
  ∧ (∀ asked, Github.releaseTag tag = Some asked → asked ≠ "" →
       Github.startsWithV asked = true
       ∧ Github.trim asked = asked
       ∧ Github.toLowerCase asked = asked)
  ∧ Github.releaseTag (Github.releaseTag tag) = Github.releaseTag tag
  ∧ Github.fetchReleaseData repoPath (Github.releaseTag tag)
    = Github.fetchReleaseData repoPath tag.
Proof.
  split; [by intros ->|]. split; [apply releaseTag_shape|].
  split; [apply releaseTag_idempotent|].
  unfold Github.fetchReleaseData. by rewrite releaseTag_idempotent.
Qed.
End ReleaseTag.

(* ===================================================================== *)
(** ** Credentials from the environment                                   *)
(* ===================================================================== *)

Section FromEnvironment.
Context {Generated : Type} `{Environment.Collaborators Generated}.

(** X20: [loadConfigFromEnvironment] produces nothing when the account id
    variable is missing, does not start with a number, or is 0, whatever
    else is set.  A configuration it does produce was generated for the
    parsed account id and the validated environment, with one method and
    only that method's credentials: the personal access key whenever one
    is set; OAuth only without a personal access key and with client id,
    client secret and refresh token all set; the API key only when neither
    of the two applies. *)
Theorem environment_config_uses_one_method (vars : Environment.Variables) :
  (Environment.parseInt10 (Environment.HUBSPOT_ACCOUNT_ID vars) = None
   ∨ Environment.parseInt10 (Environment.HUBSPOT_ACCOUNT_ID vars) = Some 0 →
   Environment.loadConfigFromEnvironment vars
   = (None, ["environment.loadConfig.missingAccountId"]))
  ∧ ∀ generated,
      fst (Environment.loadConfigFromEnvironment vars) = Some generated →
      ∃ method options,
        Environment.generateConfig method options = Some generated
        ∧ Environment.parseInt10 (Environment.HUBSPOT_ACCOUNT_ID vars)
          = Some (Environment.accountId options)
        ∧ Environment.accountId options ≠ 0
        ∧ Environment.given
            (Environment.getValidEnv (Environment.HUBSPOT_ENVIRONMENT vars))
          = Some (Environment.env options)
        ∧ match method with
          | Environment.PERSONAL_ACCESS_KEY_AUTH_METHOD =>
              is_Some (Environment.personalAccessKey options)
              ∧ Environment.personalAccessKey options
                = Environment.given
                    (Environment.HUBSPOT_PERSONAL_ACCESS_KEY vars)
              ∧ Environment.apiKey options = None
              ∧ Environment.clientSecret options = None
              ∧ Environment.refreshToken options = None
          | Environment.OAUTH_AUTH_METHOD =>
              Environment.given
                (Environment.HUBSPOT_PERSONAL_ACCESS_KEY vars) = None
              ∧ is_Some (Environment.clientId options)
              ∧ is_Some (Environment.clientSecret options)
              ∧ is_Some (Environment.refreshToken options)
              ∧ Environment.clientId options
                = Environment.given (Environment.HUBSPOT_CLIENT_ID vars)
              ∧ Environment.clientSecret options
                = Environment.given (Environment.HUBSPOT_CLIENT_SECRET vars)
              ∧ Environment.refreshToken options
                = Environment.given (Environment.HUBSPOT_REFRESH_TOKEN vars)
              ∧ Environment.scopes options = Some Environment.OAUTH_SCOPES
              ∧ Environment.apiKey options = None
              ∧ Environment.personalAccessKey options = None
          | Environment.API_KEY_AUTH_METHOD =>
              Environment.given
                (Environment.HUBSPOT_PERSONAL_ACCESS_KEY vars) = None
              ∧ (Environment.given (Environment.HUBSPOT_CLIENT_ID vars) = None
                 ∨ Environment.given
                     (Environment.HUBSPOT_CLIENT_SECRET vars) = None
                 ∨ Environment.given
                     (Environment.HUBSPOT_REFRESH_TOKEN vars) = None)
              ∧ is_Some (Environment.apiKey options)
              ∧ Environment.apiKey options
                = Environment.given (Environment.HUBSPOT_API_KEY vars)
              ∧ Environment.personalAccessKey options = None
              ∧ Environment.clientSecret options = None
              ∧ Environment.refreshToken options = None
          end.
Proof.
  unfold Environment.loadConfigFromEnvironment. split.
  - intros [-> | ->]; reflexivity.
  - intros generated.
    destruct (Environment.parseInt10 (Environment.HUBSPOT_ACCOUNT_ID vars))
      as [id|]; [|done].
    destruct (id =? 0)%Z eqn:Hid; [done|]. apply Z.eqb_neq in Hid.
    destruct (Environment.given (Environment.getValidEnv _)) as [env|];
      [|done].
    destruct (Environment.given (Environment.HUBSPOT_PERSONAL_ACCESS_KEY vars))
      as [pak|].
    { cbn [fst]. intros Hgen.
      eexists Environment.PERSONAL_ACCESS_KEY_AUTH_METHOD, _.
      split; [exact Hgen|]. cbn. eauto 10. }
    destruct (Environment.given (Environment.HUBSPOT_CLIENT_ID vars))
      as [client|];
      destruct (Environment.given (Environment.HUBSPOT_CLIENT_SECRET vars))
        as [secret|];
      destruct (Environment.given (Environment.HUBSPOT_REFRESH_TOKEN vars))
        as [refresh|];
      try (cbn [fst]; intros Hgen;
           eexists Environment.OAUTH_AUTH_METHOD, _;
           split; [exact Hgen|]; cbn; by eauto 15);
      (destruct (Environment.given (Environment.HUBSPOT_API_KEY vars))
         as [key|]; [|done]);
      cbn [fst]; intros Hgen;
      eexists Environment.API_KEY_AUTH_METHOD, _;
      (split; [exact Hgen|]); cbn; eauto 15.
Qed.
End FromEnvironment.

Lemma environment_config_uses_one_method_witness :
  ∃ method options,
    Environment.generateConfig method options
    = Some (Environment.PERSONAL_ACCESS_KEY_AUTH_METHOD,
            {| Environment.accountId := 123;
               Environment.personalAccessKey := Some "pak";
               Environment.clientId := None;
               Environment.clientSecret := None;
               Environment.refreshToken := None;
               Environment.scopes := None;
               Environment.apiKey := None;
               Environment.env := "qa" |})
    ∧ Environment.parseInt10 (Environment.HUBSPOT_ACCOUNT_ID Shell.vars)
      = Some (Environment.accountId options)
    ∧ Environment.accountId options ≠ 0
    ∧ Environment.given
        (Environment.getValidEnv (Environment.HUBSPOT_ENVIRONMENT Shell.vars))
      = Some (Environment.env options)
    ∧ match method with
      | Environment.PERSONAL_ACCESS_KEY_AUTH_METHOD =>
          is_Some (Environment.personalAccessKey options)
          ∧ Environment.personalAccessKey options
            = Environment.given
                (Environment.HUBSPOT_PERSONAL_ACCESS_KEY Shell.vars)
          ∧ Environment.apiKey options = None
          ∧ Environment.clientSecret options = None
          ∧ Environment.refreshToken options = None
      | Environment.OAUTH_AUTH_METHOD =>
          Environment.given
            (Environment.HUBSPOT_PERSONAL_ACCESS_KEY Shell.vars) = None
          ∧ is_Some (Environment.clientId options)
          ∧ is_Some (Environment.clientSecret options)
          ∧ is_Some (Environment.refreshToken options)
          ∧ Environment.clientId options
            = Environment.given (Environment.HUBSPOT_CLIENT_ID Shell.vars)
          ∧ Environment.clientSecret options
            = Environment.given (Environment.HUBSPOT_CLIENT_SECRET Shell.vars)
          ∧ Environment.refreshToken options
            = Environment.given (Environment.HUBSPOT_REFRESH_TOKEN Shell.vars)
          ∧ Environment.scopes options = Some Environment.OAUTH_SCOPES
          ∧ Environment.apiKey options = None
          ∧ Environment.personalAccessKey options = None
      | Environment.API_KEY_AUTH_METHOD =>
          Environment.given
            (Environment.HUBSPOT_PERSONAL_ACCESS_KEY Shell.vars) = None
          ∧ (Environment.given (Environment.HUBSPOT_CLIENT_ID Shell.vars)
             = None
             ∨ Environment.given
                 (Environment.HUBSPOT_CLIENT_SECRET Shell.vars) = None
             ∨ Environment.given
                 (Environment.HUBSPOT_REFRESH_TOKEN Shell.vars) = None)
          ∧ is_Some (Environment.apiKey options)
          ∧ Environment.apiKey options
            = Environment.given (Environment.HUBSPOT_API_KEY Shell.vars)
          ∧ Environment.personalAccessKey options = None
          ∧ Environment.clientSecret options = None
          ∧ Environment.refreshToken options = None
      end.
Proof.
  refine (proj2 (environment_config_uses_one_method Shell.vars) _ _).
  vm_compute. reflexivity.
Defined.

Lemma getAccount_falls_back_to_default_witness :
  CLIConfiguration.getAccount (Some Lab.config) (Some (CLIConfiguration.ById 0))
  = CLIConfiguration.getAccount (Some Lab.config) None.
Proof.
  refine (proj1 (getAccount_falls_back_to_default (Some Lab.config)
                   (CLIConfiguration.ById 0)) _).
  reflexivity.
Defined.

Lemma release_tag_is_canonical_witness :
  Github.startsWithV "v1.2.3" = true
  ∧ Github.trim "v1.2.3" = "v1.2.3"
  ∧ Github.toLowerCase "v1.2.3" = "v1.2.3".
Proof.
  refine (proj1 (proj2 (release_tag_is_canonical (Release := string)
                          "hubspot/cms-theme" (Some " V1.2.3 ")))
            "v1.2.3" _ _).
  - vm_compute. reflexivity.
  - discriminate.
Defined.
